(** * SBOM analyzer: package-URL parsing and registry enrichment

    A shallow embedding of [sbom-analyzer.py]: the two regular
    expressions with the backtracking matcher that runs them, percent
    decoding, the [Package] class with [from_purl], [set_repo_url] and
    [fill_package_metadata], and the row loop of [main].

    Python strings are sequences of Unicode code points; JSON documents
    and SBOM entries are dynamically typed values; methods run in a monad
    that threads the object, the log and the HTTP exchanges and in which
    a raised exception keeps every mutation made before it. *)

From Stdlib Require Import List NArith ZArith Bool String Ascii Lia.
Import ListNotations.

Set Implicit Arguments.
Set Warnings "-register-all".

(* ================================================================== *)
(** ** Strings *)

(** A Python [str]: its code points in order. *)
Definition pystr := list N.

(** A literal of the source, written as a Rocq string of ASCII characters. *)
Definition str (s : string) : pystr := map N_of_ascii (list_ascii_of_string s).

Fixpoint pystr_eqb (a b : pystr) : bool :=
  match a, b with
  | [], [] => true
  | x :: a', y :: b' => N.eqb x y && pystr_eqb a' b'
  | _, _ => false
  end.

(** [", ".join(parts)] *)
Fixpoint join (sep : pystr) (parts : list pystr) : pystr :=
  match parts with
  | [] => []
  | [p] => p
  | p :: rest => p ++ sep ++ join sep rest
  end.

Definition in_range (lo hi c : N) : bool := N.leb lo c && N.leb c hi.

Definition is_digit (c : N) : bool := in_range 48 57 c.
Definition is_hexdig (c : N) : bool :=
  in_range 48 57 c || in_range 97 102 c || in_range 65 70 c.
Definition is_ascii (c : N) : bool := N.ltb c 128.

(** Value of a hexadecimal digit. *)
Definition hexval (c : N) : N :=
  if in_range 48 57 c then c - 48
  else if in_range 97 102 c then c - 87
  else c - 55.

(* ================================================================== *)
(** ** Regular expressions

    The fragment of Python's [re] syntax the two patterns use: literal
    characters, one character of a class, greedy [*] and [+] over a class,
    greedy [?] on a literal, unnested capture groups, concatenation and
    [$].  The leading [^] of both patterns is the anchoring that
    [Pattern.match] performs anyway. *)

Inductive regex : Type :=
| Lit (c : N)
| Many (p : N -> bool)
| Many1 (p : N -> bool)
| Maybe (c : N)
| Group (r : regex)
| Cat (r1 r2 : regex)
| Eol.

(** Greedy repetition: the longest run first, shorter ones on
    backtracking.  The continuation gets the text consumed and the rest. *)
Fixpoint many (R : Type) (p : N -> bool) (s : pystr)
    (k : pystr -> pystr -> option R) : option R :=
  match s with
  | c :: s' =>
      if p c then
        match many p s' (fun m rest => k (c :: m) rest) with
        | Some r => Some r
        | None => k [] s
        end
      else k [] s
  | [] => k [] s
  end.

(** The backtracking matcher: [exec r s g k] runs [r] at the front of [s]
    with the groups [g] captured so far and hands the text it consumed,
    the remaining text and the groups to [k]; the first success in
    priority order wins. *)
Fixpoint exec (r : regex) (s : pystr) (g : list pystr)
    (k : pystr -> pystr -> list pystr -> option (list pystr))
    : option (list pystr) :=
  match r with
  | Lit c =>
      match s with
      | x :: s' => if N.eqb x c then k [x] s' g else None
      | [] => None
      end
  | Many p => many p s (fun m rest => k m rest g)
  | Many1 p =>
      match s with
      | x :: s' =>
          if p x then many p s' (fun m rest => k (x :: m) rest g) else None
      | [] => None
      end
  | Maybe c =>
      match s with
      | x :: s' =>
          if N.eqb x c then
            match k [x] s' g with
            | Some res => Some res
            | None => k [] s g
            end
          else k [] s g
      | [] => k [] s g
      end
  | Group r' => exec r' s g (fun m rest g' => k m rest (g' ++ [m]))
  | Cat r1 r2 =>
      exec r1 s g (fun m1 rest g' =>
        exec r2 rest g' (fun m2 rest' g'' => k (m1 ++ m2) rest' g''))
  | Eol =>
      (* end of string, or just before a newline that ends the string *)
      match s with
      | [] => k [] s g
      | [10%N] => k [] s g
      | _ => None
      end
  end.

(** [pattern.match(s)]: [None], or the captured groups 1, 2, ... *)
Definition re_match (r : regex) (s : pystr) : option (list pystr) :=
  exec r s [] (fun _ _ g => Some g).

(** A literal word of a pattern. *)
Fixpoint lits (s : pystr) (r : regex) : regex :=
  match s with
  | [] => r
  | c :: s' => Cat (Lit c) (lits s' r)
  end.

(* ================================================================== *)
(** ** Python values *)

(** The values a decoded JSON document or an SBOM entry is made of.  A
    dict is the list of its items, looked up from the front.  Numbers are
    integers, as the registry's counts are. *)
Inductive pyval : Type :=
| VNone
| VBool (b : bool)
| VInt (z : Z)
| VStr (s : pystr)
| VList (l : list pyval)
| VDict (d : list (pystr * pyval)).

Inductive exn : Type :=
| KeyError
| IndexError
| TypeError
| AttributeError
| ValueError
| JSONDecodeError
| RequestException.

(** Truth value of an object in a condition. *)
Definition truthy (v : pyval) : bool :=
  match v with
  | VNone => false
  | VBool b => b
  | VInt z => negb (Z.eqb z 0)
  | VStr s => match s with [] => false | _ => true end
  | VList l => match l with [] => false | _ => true end
  | VDict d => match d with [] => false | _ => true end
  end.

Fixpoint assoc (k : pystr) (d : list (pystr * pyval)) : option pyval :=
  match d with
  | [] => None
  | (k', v) :: d' => if pystr_eqb k k' then Some v else assoc k d'
  end.

(** An optional string attribute as an object: [None] or the [str]. *)
Definition of_opt (o : option pystr) : pyval :=
  match o with
  | Some s => VStr s
  | None => VNone
  end.

(** [v == s] for a [str] [s]. *)
Definition eq_str (v : pyval) (s : pyval) : bool :=
  match v, s with
  | VStr a, VStr b => pystr_eqb a b
  | _, _ => false
  end.

(* ================================================================== *)
(** ** The runtime the program calls into

    Library functions whose code is outside the repository and whose
    tables are too large to write out. *)
Class Runtime : Type := {
  (** the Unicode database behind [\w]: whether a code point [>= 128] is
      alphanumeric *)
  unicode_alnum : N -> bool;
  (** [bytes.decode('utf-8', 'replace')] on input with a byte outside
      ASCII *)
  utf8_decode_replace : list N -> pystr;
  (** it yields at least one code point (possibly U+FFFD) from a non-empty
      input *)
  utf8_decode_replace_nonempty :
    forall bs, bs <> [] -> utf8_decode_replace bs <> [];
  (** [datetime.datetime] objects *)
  datetime : Type;
  (** [datetime.datetime.strptime(s, CRATES_INPUT_DATE_FORMAT)];
      [None] is a [ValueError] *)
  strptime : pystr -> option datetime;
  (** [d.strftime(OUTPUT_DATE_FORMAT)] *)
  strftime : datetime -> pystr;
  (** [str(v)] of an object that is not a [str], inside an f-string *)
  py_repr : pyval -> pystr
}.

Section Analyzer.

Context {rt : Runtime}.

(** [\w] *)
Definition is_word (c : N) : bool :=
  if is_ascii c then
    in_range 48 57 c || in_range 65 90 c || in_range 97 122 c || N.eqb c 95
  else unicode_alnum c.

(** [.] : anything but a newline *)
Definition any_char (c : N) : bool := negb (N.eqb c 10).

(** [[^/]] *)
Definition not_slash (c : N) : bool := negb (N.eqb c 47).

(** [[/\w]] *)
Definition slash_or_word (c : N) : bool := N.eqb c 47 || is_word c.

(** [[%\w/\.-]] *)
Definition purl_name_char (c : N) : bool :=
  N.eqb c 37 || is_word c || N.eqb c 47 || N.eqb c 46 || N.eqb c 45.

(** [[0-9a-fA-F\.%]] *)
Definition purl_version_char (c : N) : bool :=
  in_range 48 57 c || in_range 97 102 c || in_range 65 70 c
  || N.eqb c 46 || N.eqb c 37.

(** [REPO_URL_REGEX = re.compile(r'^https://[\w]+\.[\w]+/([^/]+)/([^/]+)[/\w]*$')] *)
Definition REPO_URL_REGEX : regex :=
  lits (str "https://")
    (Cat (Many1 is_word) (Cat (Lit 46) (Cat (Many1 is_word) (Cat (Lit 47)
    (Cat (Group (Many1 not_slash)) (Cat (Lit 47)
    (Cat (Group (Many1 not_slash)) (Cat (Many slash_or_word) Eol)))))))).

(** [PURL_REGEX = re.compile(r'^pkg:(\w+)/([%\w/\.-]+)@?(V).*$')] where [V]
    stands for the class [[0-9a-fA-F\.%]] under a star. *)
Definition PURL_REGEX : regex :=
  lits (str "pkg:")
    (Cat (Group (Many1 is_word)) (Cat (Lit 47)
    (Cat (Group (Many1 purl_name_char)) (Cat (Maybe 64)
    (Cat (Group (Many purl_version_char)) (Cat (Many any_char) Eol)))))).

Definition MAX_REGISTRY_FAILED_REQUESTS : nat := 3.
Definition DOWNLOADS_DEPTH_DAYS : nat := 7.

(** [PackageType.CARGO]; a [StrEnum] member equals its string. *)
Definition CARGO : pystr := str "cargo".

(** [match.group(i)] *)
Definition group (m : list pystr) (i : nat) : pystr := nth (i - 1) m [].

(* ------------------------------------------------------------------ *)
(** *** [urllib.parse.unquote] *)

(** [urllib.parse.unquote_to_bytes] on ASCII text: [%XX] with two
    hexadecimal digits becomes the byte, any other [%] stays. *)
Fixpoint unquote_to_bytes (s : pystr) : list N :=
  match s with
  | [] => []
  | c :: rest =>
      if N.eqb c 37 then
        match rest with
        | a :: b :: rest' =>
            if is_hexdig a && is_hexdig b
            then (16 * hexval a + hexval b)%N :: unquote_to_bytes rest'
            else c :: unquote_to_bytes rest
        | _ => c :: unquote_to_bytes rest
        end
      else c :: unquote_to_bytes rest
  end.

Definition utf8_decode (bs : list N) : pystr :=
  if forallb is_ascii bs then bs else utf8_decode_replace bs.

(** The ASCII runs of the string are unquoted to bytes and decoded, the
    text between them is kept; [run] is the ASCII run being read,
    reversed. *)
Fixpoint unquote_parts (s : pystr) (run : pystr) : pystr :=
  match s with
  | [] => utf8_decode (unquote_to_bytes (rev run))
  | c :: s' =>
      if is_ascii c then unquote_parts s' (c :: run)
      else utf8_decode (unquote_to_bytes (rev run)) ++ c :: unquote_parts s' []
  end.

(** [unquote(string)] with the default [encoding='utf-8', errors='replace']. *)
Definition unquote (s : pystr) : pystr :=
  if existsb (N.eqb 37) s then unquote_parts s [] else s.

(** [str(v)] as an f-string field formats it. *)
Definition format_value (v : pyval) : pystr :=
  match v with
  | VStr s => s
  | _ => py_repr v
  end.

(* ================================================================== *)
(** ** The [Package] class *)

Record Package : Type := mkPackage {
  _name : option pystr;
  _version : option pystr;
  _package_type : option pystr;
  _downloads : Z;
  (** a [set] of strings: no duplicates; kept in insertion order *)
  _lib_owners : list pystr;
  _repo_owner : option pystr;
  _repo_name : option pystr;
  _repo_url : pyval;
  _last_push_date : option datetime;
  _last_push_author : pyval
}.

(** [Package.__init__] *)
Definition Package_init (package_type name version : option pystr) : Package :=
  {| _name := name;
     _version := version;
     _package_type := package_type;
     _downloads := 0;
     _lib_owners := [];
     _repo_owner := None;
     _repo_name := None;
     _repo_url := VNone;
     _last_push_date := None;
     _last_push_author := VNone |}.

Definition with_name (x : option pystr) (p : Package) : Package :=
  mkPackage x (_version p) (_package_type p) (_downloads p) (_lib_owners p)
    (_repo_owner p) (_repo_name p) (_repo_url p) (_last_push_date p)
    (_last_push_author p).
Definition with_version (x : option pystr) (p : Package) : Package :=
  mkPackage (_name p) x (_package_type p) (_downloads p) (_lib_owners p)
    (_repo_owner p) (_repo_name p) (_repo_url p) (_last_push_date p)
    (_last_push_author p).
Definition with_package_type (x : option pystr) (p : Package) : Package :=
  mkPackage (_name p) (_version p) x (_downloads p) (_lib_owners p)
    (_repo_owner p) (_repo_name p) (_repo_url p) (_last_push_date p)
    (_last_push_author p).
Definition with_downloads (x : Z) (p : Package) : Package :=
  mkPackage (_name p) (_version p) (_package_type p) x (_lib_owners p)
    (_repo_owner p) (_repo_name p) (_repo_url p) (_last_push_date p)
    (_last_push_author p).
Definition with_lib_owners (x : list pystr) (p : Package) : Package :=
  mkPackage (_name p) (_version p) (_package_type p) (_downloads p) x
    (_repo_owner p) (_repo_name p) (_repo_url p) (_last_push_date p)
    (_last_push_author p).
Definition with_repo_owner (x : option pystr) (p : Package) : Package :=
  mkPackage (_name p) (_version p) (_package_type p) (_downloads p)
    (_lib_owners p) x (_repo_name p) (_repo_url p) (_last_push_date p)
    (_last_push_author p).
Definition with_repo_name (x : option pystr) (p : Package) : Package :=
  mkPackage (_name p) (_version p) (_package_type p) (_downloads p)
    (_lib_owners p) (_repo_owner p) x (_repo_url p) (_last_push_date p)
    (_last_push_author p).
Definition with_repo_url (x : pyval) (p : Package) : Package :=
  mkPackage (_name p) (_version p) (_package_type p) (_downloads p)
    (_lib_owners p) (_repo_owner p) (_repo_name p) x (_last_push_date p)
    (_last_push_author p).
Definition with_last_push_date (x : option datetime) (p : Package) : Package :=
  mkPackage (_name p) (_version p) (_package_type p) (_downloads p)
    (_lib_owners p) (_repo_owner p) (_repo_name p) (_repo_url p) x
    (_last_push_author p).
Definition with_last_push_author (x : pyval) (p : Package) : Package :=
  mkPackage (_name p) (_version p) (_package_type p) (_downloads p)
    (_lib_owners p) (_repo_owner p) (_repo_name p) (_repo_url p)
    (_last_push_date p) x.

(** The [owners] property: [", ".join(self._lib_owners)]. *)
Definition owners (p : Package) : pystr := join (str ", ") (_lib_owners p).

(* ================================================================== *)
(** ** The world a method runs in *)

Inductive level : Type := DEBUG | WARNING.

(** The messages of the program's logging calls, by the fields their
    f-strings interpolate. *)
Inductive message : Type :=
| InvalidRepoUrl (repo_url : pyval) (name : option pystr)
| GotCargoMetadata (name : option pystr)
| ErrorFetchingOwners (name : option pystr) (status_code : Z)
| ErrorFetchingDownloads (name : option pystr) (status_code : Z)
| ErrorFetchingMetadata (name : option pystr) (e : exn) (attempt : nat)
| AnalyzingPackage (package_type name version : option pystr).

(** What [requests.get(url)] does: raise, or return a response with a
    status code and a body; [None] is a body that [response.json()]
    rejects. *)
Inductive outcome : Type :=
| Raises (e : exn)
| Response (status_code : Z) (body : option pyval).

Record world : Type := mkWorld {
  (** the object the method runs on *)
  self : Package;
  (** the logging calls made, oldest first *)
  log : list (level * message);
  (** the HTTP requests issued with what came back, oldest first *)
  exchanges : list (pystr * outcome);
  (** ghost: the arguments of the calls of [set_repo_url], oldest first *)
  repo_urls_given : list pyval;
  (** the registry: its answer to the [n]-th request of the run *)
  registry : nat -> pystr -> outcome
}.

Inductive result (A : Type) : Type :=
| Ok (a : A)
| Raise (e : exn).
Arguments Raise {A} e.

(** A computation returns or raises, and leaves a world either way. *)
Definition M (A : Type) : Type := world -> result A * world.

Definition ret (A : Type) (a : A) : M A := fun w => (Ok a, w).

Definition bind (A B : Type) (m : M A) (f : A -> M B) : M B :=
  fun w =>
    match m w with
    | (Ok a, w') => f a w'
    | (Raise e, w') => (Raise e, w')
    end.

Definition raise (A : Type) (e : exn) : M A := fun w => (Raise e, w).
Arguments raise {A} e.

(** [try: m  except Exception as e: h e] *)
Definition try_except (A : Type) (m : M A) (h : exn -> M A) : M A :=
  fun w =>
    match m w with
    | (Ok a, w') => (Ok a, w')
    | (Raise e, w') => h e w'
    end.

Notation "x <- m ;; k" := (bind m (fun x => k))
  (at level 61, m at next level, right associativity).
Notation "m ;; k" := (bind m (fun _ => k))
  (at level 61, right associativity).

Definition get_self : M Package := fun w => (Ok (self w), w).

(** An assignment to an attribute of [self]. *)
Definition update_self (f : Package -> Package) : M unit :=
  fun w =>
    (Ok tt, mkWorld (f (self w)) (log w) (exchanges w) (repo_urls_given w)
              (registry w)).

(** [logger.debug] and [logger.warning] *)
Definition emit (l : level) (m : message) : M unit :=
  fun w =>
    (Ok tt, mkWorld (self w) (log w ++ [(l, m)]) (exchanges w)
              (repo_urls_given w) (registry w)).

Definition note_repo_url (v : pyval) : M unit :=
  fun w =>
    (Ok tt, mkWorld (self w) (log w) (exchanges w) (repo_urls_given w ++ [v])
              (registry w)).

(** [requests.get(url)] *)
Definition requests_get (url : pystr) : M (Z * option pyval) :=
  fun w =>
    let o := registry w (List.length (exchanges w)) url in
    let w' := mkWorld (self w) (log w) (exchanges w ++ [(url, o)])
                (repo_urls_given w) (registry w) in
    match o with
    | Raises e => (Raise e, w')
    | Response status_code body => (Ok (status_code, body), w')
    end.

(** [response.json()] *)
Definition json (body : option pyval) : M pyval :=
  match body with
  | Some v => ret v
  | None => raise JSONDecodeError
  end.

(** [v[key]] with a string key *)
Definition getitem (v : pyval) (key : string) : M pyval :=
  match v with
  | VDict d =>
      match assoc (str key) d with
      | Some x => ret x
      | None => raise KeyError
      end
  | _ => raise TypeError
  end.

(** [v[i]] with an integer index [i >= 0] *)
Definition getindex (v : pyval) (i : nat) : M pyval :=
  match v with
  | VList l =>
      match nth_error l i with
      | Some x => ret x
      | None => raise IndexError
      end
  | VStr s =>
      match nth_error s i with
      | Some c => ret (VStr [c])
      | None => raise IndexError
      end
  | VDict _ => raise KeyError
  | _ => raise TypeError
  end.

(** [v.get(key, default)] *)
Definition py_get (v : pyval) (key : string) (default : pyval) : M pyval :=
  match v with
  | VDict d =>
      match assoc (str key) d with
      | Some x => ret x
      | None => ret default
      end
  | _ => raise AttributeError
  end.

(** The objects a [for] loop over [v] visits. *)
Definition iterate (v : pyval) : M (list pyval) :=
  match v with
  | VList l => ret l
  | VDict d => ret (map (fun kv => VStr (fst kv)) d)
  | VStr s => ret (map (fun c => VStr [c]) s)
  | _ => raise TypeError
  end.

(** [pattern.match(v)]: only a [str] can be matched. *)
Definition regex_match (r : regex) (v : pyval) : M (option (list pystr)) :=
  match v with
  | VStr s => ret (re_match r s)
  | _ => raise TypeError
  end.

(** [unquote(v)]: anything but a [str] raises (a [TypeError] or an
    [AttributeError], by the kind of object). *)
Definition unquote_value (v : pyval) : M pystr :=
  match v with
  | VStr s => ret (unquote s)
  | _ => raise TypeError
  end.

(** [datetime.datetime.strptime(v, CRATES_INPUT_DATE_FORMAT)] *)
Definition strptime_value (v : pyval) : M datetime :=
  match v with
  | VStr s =>
      match strptime s with
      | Some d => ret d
      | None => raise ValueError
      end
  | _ => raise TypeError
  end.

(** [n + v] for an [int] [n]; [bool] is a subclass of [int]. *)
Definition int_add (n : Z) (v : pyval) : M Z :=
  match v with
  | VInt z => ret (n + z)%Z
  | VBool b => ret (n + (if b then 1 else 0))%Z
  | _ => raise TypeError
  end.

Definition truthy_str (o : option pystr) : bool := truthy (of_opt o).

(* ------------------------------------------------------------------ *)
(** *** [Package.from_purl] *)

Definition from_purl (purl : pyval) (sbom_dict : pyval) : M unit :=
  m <- regex_match PURL_REGEX purl ;;
  match m with
  | Some g =>
      update_self (with_package_type (Some (group g 1))) ;;
      update_self (with_name (Some (unquote (group g 2)))) ;;
      update_self (with_version (Some (unquote (group g 3)))) ;;
      p <- get_self ;;
      if negb (truthy_str (_version p)) && truthy sbom_dict then
        v <- py_get sbom_dict "version" (VStr []) ;;
        s <- unquote_value v ;;
        update_self (with_version (Some s))
      else ret tt
  | None => ret tt
  end.

(** [Package.add_lib_owner]: [set.add] *)
Definition add_lib_owner (lib_owner : pystr) : M unit :=
  update_self (fun p =>
    if existsb (pystr_eqb lib_owner) (_lib_owners p) then p
    else with_lib_owners (_lib_owners p ++ [lib_owner]) p).

(** [Package.set_repo_url] *)
Definition set_repo_url (repo_url : pyval) : M unit :=
  note_repo_url repo_url ;;
  if truthy repo_url then
    update_self (with_repo_url repo_url) ;;
    m <- regex_match REPO_URL_REGEX repo_url ;;
    match m with
    | Some g =>
        update_self (with_repo_owner (Some (group g 1))) ;;
        update_self (with_repo_name (Some (group g 2)))
    | None => ret tt
    end
  else
    p <- get_self ;;
    emit WARNING (InvalidRepoUrl repo_url (_name p)).

(* ------------------------------------------------------------------ *)
(** *** [Package.fill_package_metadata] *)

(** The name as an f-string prints it. *)
Definition format_name (o : option pystr) : pystr :=
  match o with
  | Some s => s
  | None => str "None"
  end.

(** The three URLs of lines 112, 128 and 138. *)
Definition cargo_api_url (p : Package) : pystr :=
  str "https://crates.io/api/v1/crates/" ++ format_name (_name p).
Definition cargo_owners_url (p : Package) : pystr :=
  str "https://crates.io/api/v1/crates/" ++ format_name (_name p)
    ++ str "/owners".
Definition downloads_url (p : Package) : pystr :=
  str "https://crates.io/api/v1/crates/" ++ format_name (_name p)
    ++ str "/downloads".

(** Lines 121-127: the loop over [enumerate(data['versions'])]. *)
Fixpoint scan_versions (index : nat) (versions : list pyval) : M unit :=
  match versions with
  | [] => ret tt
  | crate :: rest =>
      num <- getitem crate "num" ;;
      p <- get_self ;;
      if eq_str num (of_opt (_version p)) || Nat.eqb index 0 then
        created_at <- getitem crate "created_at" ;;
        d <- strptime_value created_at ;;
        update_self (with_last_push_date (Some d)) ;;
        published_by <- getitem crate "published_by" ;;
        (if truthy published_by then
           published_by' <- getitem crate "published_by" ;;
           login <- py_get published_by' "login" VNone ;;
           update_self (with_last_push_author login)
         else update_self (with_last_push_author VNone))
      else scan_versions (S index) rest
  end.

(** Lines 120-127: the version history of a 200 response. *)
Definition record_last_push (data : pyval) : M unit :=
  p <- get_self ;;
  if truthy_str (_version p) then
    versions <- getitem data "versions" ;;
    l <- iterate versions ;;
    scan_versions 0 l
  else ret tt.

(** Lines 132-135: the loop over [users_data['users']]. *)
Fixpoint add_owners (users : list pyval) : M unit :=
  match users with
  | [] => ret tt
  | owner :: rest =>
      owner_login <- getitem owner "login" ;;
      owner_name <- getitem owner "name" ;;
      add_lib_owner
        (format_value owner_login ++ str " (" ++ format_value owner_name
           ++ str ")") ;;
      add_owners rest
  end.

(** Lines 132-135 on the decoded owners document. *)
Definition read_owners (users_data : pyval) : M unit :=
  users <- getitem users_data "users" ;;
  l <- iterate users ;;
  add_owners l.

(** Lines 128-137: the owners request. *)
Definition fetch_owners : M unit :=
  p <- get_self ;;
  owners_response <- requests_get (cargo_owners_url p) ;;
  if Z.eqb (fst owners_response) 200 then
    users_data <- json (snd owners_response) ;;
    read_owners users_data
  else
    emit WARNING (ErrorFetchingOwners (_name p) (fst owners_response)).

(** Lines 143-146: the loop over
    [enumerate(downloads_data['meta']['extra_downloads'])]. *)
Fixpoint sum_downloads (index : nat) (days : list pyval) : M unit :=
  match days with
  | [] => ret tt
  | download :: rest =>
      if Nat.eqb index DOWNLOADS_DEPTH_DAYS then ret tt
      else
        p <- get_self ;;
        n <- getitem download "downloads" ;;
        total <- int_add (_downloads p) n ;;
        update_self (with_downloads total) ;;
        sum_downloads (S index) rest
  end.

(** Lines 142-146 on the decoded downloads document. *)
Definition read_downloads (downloads_data : pyval) : M unit :=
  update_self (with_downloads 0) ;;
  meta <- getitem downloads_data "meta" ;;
  extra_downloads <- getitem meta "extra_downloads" ;;
  l <- iterate extra_downloads ;;
  sum_downloads 0 l.

(** Lines 138-148: the downloads request. *)
Definition fetch_downloads : M unit :=
  p <- get_self ;;
  downloads_response <- requests_get (downloads_url p) ;;
  if Z.eqb (fst downloads_response) 200 then
    downloads_data <- json (snd downloads_response) ;;
    read_downloads downloads_data
  else
    emit WARNING (ErrorFetchingDownloads (_name p) (fst downloads_response)).

(** Lines 116-127: what is read from the decoded top-level document. *)
Definition read_metadata (data : pyval) : M unit :=
  p <- get_self ;;
  emit DEBUG (GotCargoMetadata (_name p)) ;;
  crate <- getitem data "crate" ;;
  repo_url <- getitem crate "repository" ;;
  crate' <- getitem data "crate" ;;
  repo_homepage <- getitem crate' "homepage" ;;
  set_repo_url (if truthy repo_url then repo_url else repo_homepage) ;;
  record_last_push data.

(** Lines 109-149: the body of the [try]; [true] when it ends in the
    [break] of line 149. *)
Definition cargo_attempt : M bool :=
  p <- get_self ;;
  if eq_str (of_opt (_package_type p)) (VStr CARGO) then
    response <- requests_get (cargo_api_url p) ;;
    if Z.eqb (fst response) 200 then
      data <- json (snd response) ;;
      read_metadata data ;;
      fetch_owners ;;
      fetch_downloads ;;
      ret true
    else ret false
  else ret false.

(** Lines 107-152: iteration [i] of [for i in range(...)] with [n]
    iterations left. *)
Fixpoint attempts (n i : nat) : M unit :=
  match n with
  | O => ret tt
  | S n' =>
      done <- try_except cargo_attempt
                (fun e =>
                   p <- get_self ;;
                   emit WARNING (ErrorFetchingMetadata (_name p) e (i + 1)) ;;
                   ret false) ;;
      if done then ret tt else attempts n' (S i)
  end.

Definition fill_package_metadata : M unit :=
  attempts MAX_REGISTRY_FAILED_REQUESTS 0.

(* ------------------------------------------------------------------ *)
(** *** The rows of [main] *)

(** Lines 181-190: the row of a package. *)
Definition row (p : Package) : list pyval :=
  [ of_opt (_package_type p);
    of_opt (_name p);
    of_opt (_version p);
    _repo_url p;
    of_opt (_repo_owner p);
    of_opt (_repo_name p);
    VStr (owners p);
    VInt (_downloads p);
    match _last_push_date p with
    | Some d => VStr (strftime d)
    | None => VNone
    end;
    _last_push_author p ].

(** Lines 176-190: the loop over the packages of the SBOM. *)
Fixpoint main_loop (packages : list pyval) (parsed_packages : list (list pyval))
    : M (list (list pyval)) :=
  match packages with
  | [] => ret parsed_packages
  | package :: rest =>
      update_self (fun _ => Package_init None None None) ;;
      refs <- getitem package "externalreference" ;;
      ref0 <- getindex refs 0 ;;
      purl <- getindex ref0 2 ;;
      from_purl purl package ;;
      p <- get_self ;;
      emit DEBUG (AnalyzingPackage (_package_type p) (_name p) (_version p)) ;;
      fill_package_metadata ;;
      p' <- get_self ;;
      main_loop rest (parsed_packages ++ [row p'])
  end.

End Analyzer.

Arguments raise {rt} {A} e.
Arguments Raise {A} e.

(** The package-URL string of a triple, as the valid form spells it:
    [pkg:<eco>/<name>@<version>]. *)
Definition purl_string (eco name version : pystr) : pystr :=
  str "pkg:" ++ eco ++ [47%N] ++ name ++ [64%N] ++ version.

(** The identity of a package: ecosystem, name, version. *)
Definition identity {rt : Runtime} (p : Package)
    : option pystr * option pystr * option pystr :=
  (_package_type p, _name p, _version p).

(** The world with another object as [self]. *)
Definition with_self {rt : Runtime} (p : Package) (w : world) : world :=
  mkWorld p (log w) (exchanges w) (repo_urls_given w) (registry w).

(** A runtime to evaluate the program on ASCII input, on which the results
    do not depend on it: no alphanumeric beyond ASCII, bytes decoded one
    by one, a date kept as its text. *)
Definition ascii_runtime : Runtime :=
  {| unicode_alnum := fun _ => false;
     utf8_decode_replace := fun bs => bs;
     utf8_decode_replace_nonempty := fun bs H => H;
     datetime := pystr;
     strptime := fun s => Some s;
     strftime := fun d => firstn 10 d;
     py_repr := fun _ => str "<object>" |}.

(** A registry that refuses every connection. *)
Definition offline : nat -> pystr -> outcome := fun _ _ => Raises RequestException.

(** A world with a new [Package()] and nothing logged or requested yet. *)
Definition fresh_world {rt : Runtime} (reg : nat -> pystr -> outcome) : world :=
  mkWorld (Package_init None None None) [] [] [] reg.

(** Whether [fill_package_metadata] takes the cargo branch on that object. *)
Definition is_cargo {rt : Runtime} (p : Package) : bool :=
  eq_str (of_opt (_package_type p)) (VStr CARGO).

(** The per-day count of an entry of [meta.extra_downloads], when the
    entry is an object with an integer [downloads]. *)
Definition daily_downloads (v : pyval) : option Z :=
  match v with
  | VDict d =>
      match assoc (str "downloads") d with
      | Some (VInt z) => Some z
      | _ => None
      end
  | _ => None
  end.

Definition sum_list (zs : list Z) : Z := fold_right Z.add 0%Z zs.

(** *** The version-history scan in the words of the specification *)

(** The author a version entry names: the [login] of [published_by] if
    present, else null; undefined when [published_by] is an object without
    [get]. *)
Definition entry_author (published_by : pyval) : option pyval :=
  if truthy published_by then
    match published_by with
    | VDict d =>
        match assoc (str "login") d with
        | Some x => Some x
        | None => Some VNone
        end
    | _ => None
    end
  else Some VNone.

(** The package with the creation time and author of entry [e] recorded;
    undefined when [e] lacks a field or its time does not parse. *)
Definition recorded {rt : Runtime} (e : pyval) (p : Package) : option Package :=
  match e with
  | VDict d =>
      match assoc (str "created_at") d, assoc (str "published_by") d with
      | Some (VStr s), Some pb =>
          match strptime s, entry_author pb with
          | Some t, Some a =>
              Some (with_last_push_author a (with_last_push_date (Some t) p))
          | _, _ => None
          end
      | _, _ => None
      end
  | _ => None
  end.

(** The entry's version string [num]. *)
Definition entry_num (e : pyval) : pyval :=
  match e with
  | VDict d =>
      match assoc (str "num") d with
      | Some x => x
      | None => VNone
      end
  | _ => VNone
  end.

(** The entry the specification selects: with a target version, the first
    entry whose [num] equals it; without one, the first entry. *)
Definition spec_selected (version : option pystr) (versions : list pyval)
    : option pyval :=
  if truthy (of_opt version)
  then find (fun e => eq_str (entry_num e) (of_opt version)) versions
  else hd_error versions.

(** The scan as the specification states it, on a 200 response whose
    version history is the list [versions]: the selected entry is recorded;
    with no entry selected the two fields are left as they were. *)
Definition version_scan_as_stated {rt : Runtime} (w : world)
    (versions : list pyval) : Prop :=
  let w' :=
    snd (record_last_push (VDict [(str "versions", VList versions)]) w) in
  match spec_selected (_version (self w)) versions with
  | Some e => Some (self w') = recorded e (self w)
  | None =>
      _last_push_date (self w') = _last_push_date (self w)
      /\ _last_push_author (self w') = _last_push_author (self w)
  end.

(** An entry of a version history. *)
Definition version_entry (num created_at login : string) : pyval :=
  VDict [ (str "num", VStr (str num));
          (str "created_at", VStr (str created_at));
          (str "published_by", VDict [(str "login", VStr (str login))]) ].

(** A new cargo package [name] with target version [version]. *)
Definition cargo_package {rt : Runtime} (name version : string) : Package :=
  Package_init (Some CARGO) (Some (str name)) (Some (str version)).

(** *** Frames *)

(** A computation respects a relation between the worlds before and after
    it, whether it returns or raises. *)
Definition respects {rt : Runtime} {A : Type} (R : world -> world -> Prop)
    (m : M A) : Prop :=
  forall w, R w (snd (m w)).

(** An update that leaves the identity and the repository fields alone. *)
Definition keeps {rt : Runtime} (f : Package -> Package) : Prop :=
  forall p,
    identity (f p) = identity p
    /\ _repo_owner (f p) = _repo_owner p
    /\ _repo_name (f p) = _repo_name p
    /\ _repo_url (f p) = _repo_url p.

(** The messages logged inside an attempt, as opposed to the warning of
    the [except] clause. *)
Definition body_message (m : message) : Prop :=
  match m with
  | ErrorFetchingMetadata _ _ _ => False
  | _ => True
  end.

(** The invariant of the derived repository fields: owner and name are
    both null, or the record has a repository URL and they are groups 1
    and 2 of the match of one URL that [set_repo_url] was given. *)
Definition repo_invariant {rt : Runtime} (w : world) : Prop :=
  match _repo_owner (self w), _repo_name (self w) with
  | None, None => True
  | Some o, Some n =>
      truthy (_repo_url (self w)) = true
      /\ exists u g,
        In (VStr u) (repo_urls_given w)
        /\ re_match REPO_URL_REGEX u = Some g
        /\ o = group g 1 /\ n = group g 2
  | _, _ => False
  end.

(** The invariant passes from the world before to the world after. *)
Definition keeps_invariant {rt : Runtime} (w w' : world) : Prop :=
  repo_invariant w -> repo_invariant w'.

(** A step that makes no request: the exchanges, the registry and the
    identity stay, the log grows by messages of the attempt's body. *)
Definition quiet {rt : Runtime} (w w' : world) : Prop :=
  exchanges w' = exchanges w
  /\ registry w' = registry w
  /\ identity (self w') = identity (self w)
  /\ exists lg,
       log w' = log w ++ lg /\ Forall (fun x => body_message (snd x)) lg.

(** A step that makes the exchanges [t] and otherwise behaves like a
    quiet one. *)
Definition grown {rt : Runtime} (t : list (pystr * outcome)) (w w' : world)
    : Prop :=
  exchanges w' = exchanges w ++ t
  /\ registry w' = registry w
  /\ identity (self w') = identity (self w)
  /\ exists lg,
       log w' = log w ++ lg /\ Forall (fun x => body_message (snd x)) lg.

(** The registry's answer to the next request of the world, if sent to
    [url]. *)
Definition answer {rt : Runtime} (w : world) (url : pystr) : outcome :=
  registry w (List.length (exchanges w)) url.

(** *** The requests of a run *)

(** The step that issued a request raised [e]: the request failed with
    [e], or it got a 200 response that the step could not use; a body that
    is not JSON gives [JSONDecodeError]. *)
Definition stops (o : outcome) (e : exn) : Prop :=
  match o with
  | Raises e' => e = e'
  | Response s b => s = 200%Z /\ (b = None -> e = JSONDecodeError)
  end.

(** The step that issued a request went on: it got a response, and a
    decodable one if the status was 200. *)
Definition passes (o : outcome) : Prop :=
  match o with
  | Raises _ => False
  | Response s b => s = 200%Z -> b <> None
  end.

(** How a step that issued a request with outcome [o] ended. *)
Definition step_end (A : Type) (o : outcome) (r : result A) : Prop :=
  match r with
  | Ok _ => passes o
  | Raise e => stops o e
  end.

(** The exchanges of one attempt on a cargo package and how the attempt
    ends: [Ok true] at the [break], [Ok false] at the end of the body,
    [Raise e] in the [except] clause. *)
Inductive attempt_trace (api own dl : pystr)
    : list (pystr * outcome) -> result bool -> Prop :=
| AT_top (o : outcome) (e : exn) :
    stops o e -> attempt_trace api own dl [(api, o)] (Raise e)
| AT_status (s : Z) (b : option pyval) :
    s <> 200%Z -> attempt_trace api own dl [(api, Response s b)] (Ok false)
| AT_owners (d : pyval) (o2 : outcome) (e : exn) :
    stops o2 e ->
    attempt_trace api own dl
      [(api, Response 200 (Some d)); (own, o2)] (Raise e)
| AT_downloads (d : pyval) (o2 o3 : outcome) (e : exn) :
    passes o2 -> stops o3 e ->
    attempt_trace api own dl
      [(api, Response 200 (Some d)); (own, o2); (dl, o3)] (Raise e)
| AT_done (d : pyval) (o2 o3 : outcome) :
    passes o2 -> passes o3 ->
    attempt_trace api own dl
      [(api, Response 200 (Some d)); (own, o2); (dl, o3)] (Ok true).

(** The exchanges of a run of the retry loop with [n] attempts left. *)
Inductive fill_trace (api own dl : pystr)
    : nat -> list (pystr * outcome) -> Prop :=
| FT_exhausted : fill_trace api own dl 0 []
| FT_done (n : nat) (t : list (pystr * outcome)) :
    attempt_trace api own dl t (Ok true) -> fill_trace api own dl (S n) t
| FT_retry (n : nat) (t ts : list (pystr * outcome)) (r : result bool) :
    attempt_trace api own dl t r -> r <> Ok true ->
    fill_trace api own dl n ts -> fill_trace api own dl (S n) (t ++ ts).

(** The exchanges and the log of a run of the retry loop with [n] attempts
    left, [i] attempts made: an attempt that raises leaves the warning
    with the attempt number [i + 1] after what its body logged, and the
    next attempt follows. *)
Inductive run_trace (name : option pystr) (api own dl : pystr)
    : nat -> nat -> list (pystr * outcome) -> list (level * message) -> Prop :=
| RT_exhausted (i : nat) : run_trace name api own dl 0 i [] []
| RT_done (n i : nat) t lg :
    attempt_trace api own dl t (Ok true) ->
    Forall (fun x => body_message (snd x)) lg ->
    run_trace name api own dl (S n) i t lg
| RT_again (n i : nat) t lg ts lgs :
    attempt_trace api own dl t (Ok false) ->
    Forall (fun x => body_message (snd x)) lg ->
    run_trace name api own dl n (S i) ts lgs ->
    run_trace name api own dl (S n) i (t ++ ts) (lg ++ lgs)
| RT_caught (n i : nat) t lg (e : exn) ts lgs :
    attempt_trace api own dl t (Raise e) ->
    Forall (fun x => body_message (snd x)) lg ->
    run_trace name api own dl n (S i) ts lgs ->
    run_trace name api own dl (S n) i (t ++ ts)
      (lg ++ (WARNING, ErrorFetchingMetadata name e (i + 1)) :: lgs).

(** *** The entries of the SBOM *)

(** The package-URL string an entry exposes: the locator (third item) of
    its first external reference. *)
Definition entry_purl (package : pyval) : option pystr :=
  match package with
  | VDict d =>
      match assoc (str "externalreference") d with
      | Some (VList (VList (_ :: _ :: VStr purl :: _) :: _)) => Some purl
      | _ => None
      end
  | _ => None
  end.

(** The optional [version] of an entry is a string when present. *)
Definition entry_version_is_text (package : pyval) : bool :=
  match package with
  | VDict d =>
      match assoc (str "version") d with
      | Some (VStr _) => true
      | Some _ => false
      | None => true
      end
  | _ => false
  end.

(** The identity [from_purl] reads from an entry into a new package. *)
Definition parsed_identity {rt : Runtime} (package : pyval)
    : option pystr * option pystr * option pystr :=
  match entry_purl package with
  | Some purl =>
      identity
        (self (snd (from_purl (VStr purl) package (fresh_world offline))))
  | None => (None, None, None)
  end.

(** The first three cells of a row. *)
Definition identity_cells (i : option pystr * option pystr * option pystr)
    : list pyval :=
  match i with
  | (t, n, v) => [of_opt t; of_opt n; of_opt v]
  end.

(** *** The package URL in the words of the specification *)

(** The identity [from_purl] reads from the string [s] into a new
    package, without auxiliary record. *)
Definition purl_identity {rt : Runtime} (s : pystr)
    : option pystr * option pystr * option pystr :=
  identity (self (snd (from_purl (VStr s) VNone (fresh_world offline)))).

(** The valid form of the specification: [pkg:<eco>/<name>@<version>]
    with a non-empty ecosystem of word characters, a non-empty name over
    the percent sign, word characters, slash, dot and hyphen, and a
    non-empty version over hex digits, dot and percent sign. *)
Definition purl_valid_form {rt : Runtime} (eco name version : pystr) : Prop :=
  eco <> [] /\ forallb is_word eco = true
  /\ name <> [] /\ forallb purl_name_char name = true
  /\ version <> [] /\ forallb purl_version_char version = true.

(** Modelled from the spec: the repository has no function that writes a
    package URL.  Re-serializing a triple writes the valid form
    [pkg:<eco>/<name>@<version>] from its three fields, a null field as the
    empty text. *)
Definition reserialize (i : option pystr * option pystr * option pystr)
    : pystr :=
  match i with
  | (t, n, v) =>
      purl_string (match t with Some x => x | None => [] end)
        (match n with Some x => x | None => [] end)
        (match v with Some x => x | None => [] end)
  end.

(** The round trip as the specification states it, in either reading: the
    triple parsed from a string of the valid form is written back to that
    string, or it is written to a string from which the same triple is
    parsed. *)
Definition round_trip_as_stated {rt : Runtime} : Prop :=
  forall eco name version,
    purl_valid_form eco name version ->
    let s := purl_string eco name version in
    reserialize (purl_identity s) = s
    \/ purl_identity (reserialize (purl_identity s)) = purl_identity s.

(** The expected grammar in the words of the specification:
    [pkg:<ecosystem>/<name>] with an optional [@<version>], the ecosystem
    and the name as in the valid form, the version over hex digits, dot
    and percent sign. *)
Definition purl_grammar {rt : Runtime} (s : pystr) : Prop :=
  exists eco name,
    eco <> [] /\ forallb is_word eco = true
    /\ name <> [] /\ forallb purl_name_char name = true
    /\ (s = str "pkg:" ++ eco ++ [47%N] ++ name
        \/ exists version,
             forallb purl_version_char version = true
             /\ s = purl_string eco name version).

(** The string opens with [pkg:<ecosystem>/<name>], a non-empty
    ecosystem of word characters and a non-empty name over the name
    class, whatever follows. *)
Definition opens_as_purl {rt : Runtime} (s : pystr) : Prop :=
  exists eco name rest,
    eco <> [] /\ forallb is_word eco = true
    /\ name <> [] /\ forallb purl_name_char name = true
    /\ s = str "pkg:" ++ eco ++ [47%N] ++ name ++ rest.

(** The malformed string as the specification states it: a string off
    the grammar leaves the three identity fields of a new package null. *)
Definition off_grammar_as_stated {rt : Runtime} (s : pystr) : Prop :=
  ~ purl_grammar s -> purl_identity s = (None, None, None).

(** *** The retry loop in the words of the specification *)

(** The exchanges and the log entries that a step from [w] to [w'] added. *)
Definition new_exchanges {rt : Runtime} (w w' : world)
    : list (pystr * outcome) :=
  skipn (List.length (exchanges w)) (exchanges w').

(** The end of the loop as the specification states it: a top-level
    response with status 200 is followed by exactly one owners request and
    one downloads request, and by nothing else. *)
Definition top_level_200_as_stated {rt : Runtime} (w : world) : Prop :=
  let w' := snd (fill_package_metadata w) in
  forall t1 b t2,
    new_exchanges w w'
    = t1 ++ (cargo_api_url (self w), Response 200 b) :: t2 ->
    exists o2 o3,
      t2 = [(cargo_owners_url (self w), o2); (downloads_url (self w), o3)].

(** *** Sample documents and registries *)

(** A top-level document of the registry. *)
Definition crate_document (repository : string) (versions : list pyval)
    : pyval :=
  VDict [ (str "crate",
           VDict [ (str "repository", VStr (str repository));
                   (str "homepage", VNone) ]);
          (str "versions", VList versions) ].

(** A day of the downloads document. *)
Definition day (n : Z) : pyval := VDict [(str "downloads", VInt n)].

Definition downloads_document (days : list pyval) : pyval :=
  VDict [(str "meta", VDict [(str "extra_downloads", VList days)])].

Definition ten_days : list pyval :=
  map day [1; 2; 3; 4; 5; 6; 7; 100; 200; 300]%Z.

Definition foo_history : list pyval :=
  [ version_entry "1.0.0" "2024-01-02T03:04:05.000000+00:00" "alice";
    version_entry "0.9.0" "2023-01-02T03:04:05.000000+00:00" "bob" ].

(** Answers 200 to the top-level request, 500 to the owners request and
    200 with ten days to the downloads request. *)
Definition registry_owners_500 : nat -> pystr -> outcome :=
  fun n _ =>
    match n with
    | 0 =>
        Response 200
          (Some (crate_document "https://github.com/owner/repo" foo_history))
    | 1 => Response 500 None
    | _ => Response 200 (Some (downloads_document ten_days))
    end.

(** Answers the first request with status 200 and a body that is not
    JSON, and refuses every later connection. *)
Definition registry_bad_json : nat -> pystr -> outcome :=
  fun n _ =>
    match n with
    | 0 => Response 200 None
    | _ => Raises RequestException
    end.

(** Answers every request with 200 and ten days of downloads. *)
Definition registry_ten_days : nat -> pystr -> outcome :=
  fun _ _ => Response 200 (Some (downloads_document ten_days)).

(** Answers every request with status 500. *)
Definition registry_500 : nat -> pystr -> outcome :=
  fun _ _ => Response 500 None.

(** An entry of the SBOM with one external reference. *)
Definition sbom_entry (name purl : string) : pyval :=
  VDict [ (str "name", VStr (str name));
          (str "externalreference",
           VList [VList [VStr (str "PACKAGE-MANAGER"); VStr (str "purl");
                         VStr (str purl)]]) ].

(** *** Further vocabulary *)

(** A repository URL of the canonical form
    [https://<h1>.<h2>/<owner>/<repo><extra>]. *)
Definition repo_url_string (h1 h2 owner repo extra : pystr) : pystr :=
  str "https://" ++ h1 ++ [46%N] ++ h2 ++ [47%N] ++ owner ++ [47%N] ++ repo
    ++ extra.

(** The text ends here or goes on with a character outside the class. *)
Definition ends_class (p : N -> bool) (rest : pystr) : Prop :=
  match rest with
  | [] => True
  | c :: _ => p c = false
  end.

(** [set.add] on the list that holds a set. *)
Definition set_add (os : list pystr) (o : pystr) : list pystr :=
  if existsb (pystr_eqb o) os then os else os ++ [o].

(** The descriptor line 135 builds from an owner object that has a
    [login] and a [name]. *)
Definition owner_descriptor {rt : Runtime} (owner : pyval) : option pystr :=
  match owner with
  | VDict d =>
      match assoc (str "login") d, assoc (str "name") d with
      | Some l, Some n =>
          Some (format_value l ++ str " (" ++ format_value n ++ str ")")
      | _, _ => None
      end
  | _ => None
  end.

(** The number of requests of a list of exchanges that went to [url]. *)
Definition requests_to (url : pystr) (t : list (pystr * outcome)) : nat :=
  List.length (filter (fun x => pystr_eqb (fst x) url) t).

(** The repository fields and the record of the URLs given stay. *)
Definition same_repo {rt : Runtime} (w w' : world) : Prop :=
  _repo_url (self w') = _repo_url (self w)
  /\ _repo_owner (self w') = _repo_owner (self w)
  /\ _repo_name (self w') = _repo_name (self w)
  /\ repo_urls_given w' = repo_urls_given w.

(** A top-level exchange after which the attempt ends without having
    read anything: the request raised, or the status is not 200. *)
Definition fails_top (o : outcome) : Prop :=
  match o with
  | Raises _ => True
  | Response s _ => s <> 200%Z
  end.

(** The warnings of attempts [i + 1], [i + 2], ... that end with the
    top-level outcomes [os]: one for each request that raised. *)
Fixpoint top_warnings (name : option pystr) (i : nat) (os : list outcome)
    : list (level * message) :=
  match os with
  | [] => []
  | Raises e :: rest =>
      (WARNING, ErrorFetchingMetadata name e (i + 1))
      :: top_warnings name (S i) rest
  | Response _ _ :: rest => top_warnings name (S i) rest
  end.

(** The record after [set_repo_url] was given the non-empty string [u]. *)
Definition classified {rt : Runtime} (u : pystr) (p : Package) : Package :=
  match re_match REPO_URL_REGEX u with
  | Some g =>
      with_repo_name (Some (group g 2))
        (with_repo_owner (Some (group g 1)) (with_repo_url (VStr u) p))
  | None => with_repo_url (VStr u) p
  end.

(** The world after the exchange [x]. *)
Definition exchanged {rt : Runtime} (x : pystr * outcome) (w : world) : world :=
  mkWorld (self w) (log w) (exchanges w ++ [x]) (repo_urls_given w)
    (registry w).

(** The world after the logging call [x]. *)
Definition logged {rt : Runtime} (x : level * message) (w : world) : world :=
  mkWorld (self w) (log w ++ [x]) (exchanges w) (repo_urls_given w)
    (registry w).

(** The owners document of the registry. *)
Definition users_document (users : list pyval) : pyval :=
  VDict [(str "users", VList users)].

Definition user (login name : string) : pyval :=
  VDict [(str "login", VStr (str login)); (str "name", VStr (str name))].

(** Answers 200 to the top-level request and 500 to the two others. *)
Definition registry_top_only : nat -> pystr -> outcome :=
  fun n _ =>
    match n with
    | 0 =>
        Response 200
          (Some (crate_document "https://github.com/owner/repo" foo_history))
    | _ => Response 500 None
    end.

(** Answers every request with 200 and three owners, one of them twice. *)
Definition registry_users : nat -> pystr -> outcome :=
  fun _ _ =>
    Response 200
      (Some (users_document
               [user "alice" "Alice"; user "bob" "Bob"; user "alice" "Alice"])).

(** Answers every request with 200 and three days, the third without
    count. *)
Definition registry_broken_day : nat -> pystr -> outcome :=
  fun _ _ =>
    Response 200
      (Some (downloads_document [day 5; day 6; VDict []; day 7])).

(* ================================================================== *)
(** ** [lib/logging.py] *)

Module Logging.

(** The level numbers of the [logging] module. *)
Definition CRITICAL : Z := 50.
Definition ERROR : Z := 40.
Definition WARNING : Z := 30.
Definition INFO : Z := 20.
Definition DEBUG : Z := 10.
Definition NOTSET : Z := 0.

(** [logging._nameToLevel] *)
Definition nameToLevel (s : pystr) : option Z :=
  if pystr_eqb s (str "CRITICAL") then Some CRITICAL
  else if pystr_eqb s (str "FATAL") then Some CRITICAL
  else if pystr_eqb s (str "ERROR") then Some ERROR
  else if pystr_eqb s (str "WARN") then Some WARNING
  else if pystr_eqb s (str "WARNING") then Some WARNING
  else if pystr_eqb s (str "INFO") then Some INFO
  else if pystr_eqb s (str "DEBUG") then Some DEBUG
  else if pystr_eqb s (str "NOTSET") then Some NOTSET
  else None.

Definition DEFAULT_LOG_LEVEL : pystr := str "INFO".

(** A [StreamHandler] with its level; [colored] when its formatter is a
    [ColoredFormatter]. *)
Record Handler : Type := mkHandler {
  handler_level : Z;
  colored : bool
}.

Record Logger : Type := mkLogger {
  propagate : bool;
  logger_level : Z;
  handlers : list Handler
}.

(** A logger object of the [logging] module: the root logger, or the
    logger that the manager keeps under a name. *)
Inductive logger_ref : Type :=
| Root
| Named (name : pystr).

Definition logger_ref_eqb (a b : logger_ref) : bool :=
  match a, b with
  | Root, Root => true
  | Named x, Named y => pystr_eqb x y
  | _, _ => false
  end.

(** [logging.getLogger(name)] on a string, as of the Python that the
    program's [StrEnum] needs: the empty name and the name [root] give the
    root logger, any other name the manager's logger of that name, which
    is created at the first call and is the same object afterwards. *)
Definition getLogger (name : pystr) : logger_ref :=
  match name with
  | [] => Root
  | _ => if pystr_eqb name (str "root") then Root else Named name
  end.

(** The logger objects of the [logging] module and the module's cache
    [colored_loggers], from names to logger objects. *)
Record state : Type := mkState {
  loggers : logger_ref -> Logger;
  colored_loggers : list (pystr * logger_ref)
}.

(** [name in colored_loggers] and [colored_loggers[name]] *)
Fixpoint cache_get (name : pystr) (c : list (pystr * logger_ref))
    : option logger_ref :=
  match c with
  | [] => None
  | (k, v) :: c' => if pystr_eqb name k then Some v else cache_get name c'
  end.

(** An assignment to the logger object [logger]. *)
Definition update_logger (logger : logger_ref) (f : Logger -> Logger)
    (st : state) : state :=
  mkState
    (fun l => if logger_ref_eqb l logger then f (loggers st l) else loggers st l)
    (colored_loggers st).

(** The handler lines 39-41 build. *)
Definition ch : Handler := mkHandler DEBUG true.

(** [get_colored_logger(name)] with the module constant [LOGLEVEL]: the
    logger it returns, or the [ValueError] of [setLevel]. *)
Definition get_colored_logger (LOGLEVEL : pystr) (name : pystr) (st : state)
    : result logger_ref * state :=
  match cache_get name (colored_loggers st) with
  | Some logger => (Ok logger, st)
  | None =>
      let logger := getLogger name in
      (* logger.propagate = False *)
      let st1 :=
        update_logger logger
          (fun l => mkLogger false (logger_level l) (handlers l)) st in
      (* logger.setLevel(level=LOGLEVEL) *)
      match nameToLevel LOGLEVEL with
      | None => (Raise ValueError, st1)
      | Some lv =>
          let st2 :=
            update_logger logger
              (fun l => mkLogger (propagate l) lv (handlers l)) st1 in
          (* logger.addHandler(ch): a new handler is not in the list *)
          let st3 :=
            update_logger logger
              (fun l =>
                 mkLogger (propagate l) (logger_level l) (handlers l ++ [ch]))
              st2 in
          (* colored_loggers[name] = logger *)
          (Ok logger,
           mkState (loggers st3) ((name, logger) :: colored_loggers st3))
      end
  end.

(** A sequence of calls, as the modules of a program make them; it stops
    at the first call that raises. *)
Fixpoint get_all (LOGLEVEL : pystr) (names : list pystr) (st : state)
    : result unit * state :=
  match names with
  | [] => (Ok tt, st)
  | name :: rest =>
      match get_colored_logger LOGLEVEL name st with
      | (Ok _, st') => get_all LOGLEVEL rest st'
      | (Raise e, st') => (Raise e, st')
      end
  end.

(** The names of [names] that are not among [seen], each at its first
    place: the calls of a sequence that miss a cache with the keys
    [seen]. *)
Fixpoint first_asked (seen names : list pystr) : list pystr :=
  match names with
  | [] => []
  | k :: rest =>
      if existsb (pystr_eqb k) seen then first_asked seen rest
      else k :: first_asked (k :: seen) rest
  end.

(** The number of the names [ks] under which [getLogger] gives the
    logger [l]. *)
Definition denoting (l : logger_ref) (ks : list pystr) : nat :=
  List.length (filter (fun k => logger_ref_eqb l (getLogger k)) ks).

End Logging.

(* ================================================================== *)
(** * Properties *)

Unset Implicit Arguments.
Arguments str : simpl never.

Lemma pystr_eqb_eq (a b : pystr) : pystr_eqb a b = true <-> a = b.
Proof.
  revert b; induction a as [|x a IH]; intros [|y b]; simpl; split;
    try congruence; try reflexivity.
  - intros H. apply andb_true_iff in H as [H1 H2].
    apply N.eqb_eq in H1. apply IH in H2. congruence.
  - intros H. injection H as -> ->. rewrite N.eqb_refl. simpl.
    apply IH. reflexivity.
Qed.

Lemma pystr_eqb_refl (a : pystr) : pystr_eqb a a = true.
Proof. apply pystr_eqb_eq. reflexivity. Qed.

(** ** The matcher on a greedy run *)

(** A run of class characters that ends where the class ends is taken
    whole when the continuation accepts it there. *)
Lemma many_greedy (R : Type) (p : N -> bool) (a rest : pystr)
    (k : pystr -> pystr -> option R) (r : R) :
  forallb p a = true ->
  match rest with [] => True | c :: _ => p c = false end ->
  k a rest = Some r ->
  many p (a ++ rest) k = Some r.
Proof.
  revert k. induction a as [|c a IH]; intros k Ha Hrest Hk; simpl.
  - destruct rest as [|c rest]; simpl; [exact Hk|].
    rewrite Hrest. exact Hk.
  - simpl in Ha. apply andb_true_iff in Ha as [Hc Ha].
    rewrite Hc. rewrite (IH (fun m rest0 => k (c :: m) rest0) Ha Hrest Hk).
    reflexivity.
Qed.

Lemma many_all (R : Type) (p : N -> bool) (a : pystr)
    (k : pystr -> pystr -> option R) (r : R) :
  forallb p a = true -> k a [] = Some r -> many p a k = Some r.
Proof.
  intros Ha Hk. rewrite <- (app_nil_r a) at 1.
  apply many_greedy; simpl; auto.
Qed.

(** Runs the plumbing of the monad. *)
Ltac mrun :=
  cbv beta iota delta
    [bind ret raise get_self update_self emit note_repo_url try_except].

Section Theory.

Context {rt : Runtime}.

Lemma purl_match (eco name version : pystr) :
  eco <> [] -> forallb is_word eco = true ->
  name <> [] -> forallb purl_name_char name = true ->
  forallb purl_version_char version = true ->
  re_match PURL_REGEX (purl_string eco name version)
  = Some [eco; name; version].
Proof.
  intros He Hew Hn Hnc Hv.
  destruct eco as [|e eco]; [congruence|].
  destruct name as [|c name]; [congruence|].
  simpl in Hew, Hnc.
  apply andb_true_iff in Hew as [He0 Hew].
  apply andb_true_iff in Hnc as [Hc0 Hnc].
  unfold re_match, PURL_REGEX, purl_string, str. simpl.
  rewrite He0.
  apply many_greedy; [exact Hew | reflexivity |].
  simpl. rewrite Hc0.
  apply many_greedy; [exact Hnc | reflexivity |].
  simpl.
  rewrite (@many_all _ purl_version_char version _ [e :: eco; c :: name; version]);
    [reflexivity | exact Hv |].
  destruct version; reflexivity.
Qed.


Lemma purl_match_no_version (eco name : pystr) :
  eco <> [] -> forallb is_word eco = true ->
  name <> [] -> forallb purl_name_char name = true ->
  re_match PURL_REGEX (str "pkg:" ++ eco ++ [47%N] ++ name)
  = Some [eco; name; []].
Proof.
  intros He Hew Hn Hnc.
  destruct eco as [|e eco]; [congruence|].
  destruct name as [|c name]; [congruence|].
  simpl in Hew, Hnc.
  apply andb_true_iff in Hew as [He0 Hew].
  apply andb_true_iff in Hnc as [Hc0 Hnc].
  unfold re_match, PURL_REGEX, str. simpl.
  rewrite He0.
  apply many_greedy; [exact Hew | reflexivity |].
  simpl. rewrite Hc0.
  apply many_all; [exact Hnc | reflexivity].
Qed.

(** ** Percent decoding *)

Lemma unquote_to_bytes_nil (s : pystr) : unquote_to_bytes s = [] -> s = [].
Proof.
  destruct s as [|c rest]; [reflexivity|]. simpl.
  destruct (N.eqb c 37); [|discriminate].
  destruct rest as [|a [|b rest']]; try discriminate.
  destruct (is_hexdig a && is_hexdig b); discriminate.
Qed.

Lemma utf8_decode_nil (bs : list N) : utf8_decode bs = [] -> bs = [].
Proof.
  unfold utf8_decode. destruct (forallb is_ascii bs); [auto|].
  intros H. destruct bs as [|b bs]; [reflexivity|].
  exfalso. apply (@utf8_decode_replace_nonempty rt (b :: bs)); [discriminate|exact H].
Qed.

Lemma unquote_parts_nil (s run : pystr) :
  unquote_parts s run = [] -> s = [] /\ run = [].
Proof.
  revert run. induction s as [|c s IH]; intros run; simpl.
  - intros H. apply utf8_decode_nil, unquote_to_bytes_nil in H.
    split; [reflexivity|]. destruct run as [|x run]; [reflexivity|].
    simpl in H. destruct (rev run); discriminate.
  - destruct (is_ascii c).
    + intros H. apply IH in H as [_ H]. discriminate.
    + intros H. apply app_eq_nil in H as [_ H]. discriminate.
Qed.

Lemma unquote_nonempty (s : pystr) : s <> [] -> unquote s <> [].
Proof.
  intros Hs. unfold unquote. destruct (existsb (N.eqb 37) s); [|exact Hs].
  intros H. apply unquote_parts_nil in H as [H _]. contradiction.
Qed.

Lemma unquote_plain (s : pystr) :
  existsb (N.eqb 37) s = false -> unquote s = s.
Proof. intros H. unfold unquote. rewrite H. reflexivity. Qed.

(** ** [from_purl] *)

(** C5, as the code has it.  For every package-URL string of the valid form
    [pkg:<eco>/<name>@<version>] (a non-empty [\w] ecosystem, a non-empty
    name over the name class of [PURL_REGEX], a non-empty version over its
    version class), [from_purl] returns and leaves exactly the identity
    (eco, percent-decoded name, percent-decoded version), whatever the
    auxiliary record; when name and version hold no [%], the triple the
    string was written from is read back unchanged; and when the decoded
    name and version hold no [%] and stay within the two classes, the
    string written from the parsed triple is parsed to that triple
    again. *)
Theorem from_purl_valid_form (eco name version : pystr) (sbom_dict : pyval)
    (w : world) :
  eco <> [] -> forallb is_word eco = true ->
  name <> [] -> forallb purl_name_char name = true ->
  version <> [] -> forallb purl_version_char version = true ->
  exists p,
    from_purl (VStr (purl_string eco name version)) sbom_dict w
      = (Ok tt, with_self p w)
    /\ identity p = (Some eco, Some (unquote name), Some (unquote version))
    /\ (existsb (N.eqb 37) name = false ->
        existsb (N.eqb 37) version = false ->
        identity p = (Some eco, Some name, Some version))
    /\ (forallb purl_name_char (unquote name) = true ->
        forallb purl_version_char (unquote version) = true ->
        existsb (N.eqb 37) (unquote name) = false ->
        existsb (N.eqb 37) (unquote version) = false ->
        exists p',
          from_purl (VStr (reserialize (identity p))) sbom_dict w
            = (Ok tt, with_self p' w)
          /\ identity p' = identity p).
Proof.
  intros He Hew Hn Hnc Hv Hvc.
  assert (Hparse : forall n v,
             n <> [] -> forallb purl_name_char n = true ->
             v <> [] -> forallb purl_version_char v = true ->
             exists p,
               from_purl (VStr (purl_string eco n v)) sbom_dict w
                 = (Ok tt, with_self p w)
               /\ identity p = (Some eco, Some (unquote n), Some (unquote v))).
  { intros n v Hn' Hnc' Hv' Hvc'.
    pose proof (purl_match eco n v He Hew Hn' Hnc' Hvc') as Hm.
    pose proof (unquote_nonempty v Hv') as Hu.
    unfold from_purl, regex_match, bind, ret. rewrite Hm.
    unfold update_self, get_self, group. simpl.
    unfold truthy_str, of_opt, truthy.
    destruct (unquote v) as [|c v'] eqn:Ev; [congruence|]. simpl.
    eexists. split; [reflexivity|]. unfold identity. simpl.
    rewrite <- Ev. reflexivity. }
  destruct (Hparse name version Hn Hnc Hv Hvc) as (p & E & I).
  exists p. split; [exact E|]. split; [exact I|]. split.
  - intros H1 H2. rewrite I, (unquote_plain name H1), (unquote_plain version H2).
    reflexivity.
  - intros Hnc' Hvc' H1 H2. rewrite I. simpl reserialize.
    destruct (Hparse (unquote name) (unquote version)
                (unquote_nonempty name Hn) Hnc'
                (unquote_nonempty version Hv) Hvc') as (p' & E' & I').
    exists p'. split; [exact E'|].
    rewrite I', (unquote_plain _ H1), (unquote_plain _ H2). reflexivity.
Qed.


Lemma cargo_attempt_other (w : world) :
  is_cargo (self w) = false -> cargo_attempt w = (Ok false, w).
Proof.
  unfold is_cargo, cargo_attempt, bind, get_self. intros H. rewrite H.
  reflexivity.
Qed.

Lemma attempts_other (n i : nat) (w : world) :
  is_cargo (self w) = false -> attempts n i w = (Ok tt, w).
Proof.
  intros H. revert i. induction n as [|n IH]; intros i; simpl; [reflexivity|].
  unfold bind, try_except. rewrite (cargo_attempt_other w H). apply IH.
Qed.

(** What a successful repetition consumed. *)
Lemma many_inv (R : Type) (p : N -> bool) (s : pystr) :
  forall (k : pystr -> pystr -> option R) (r : R),
    many p s k = Some r ->
    exists m rest,
      s = m ++ rest /\ forallb p m = true /\ k m rest = Some r.
Proof.
  induction s as [|c s IH]; intros k r H; simpl in H.
  - exists [], []. auto.
  - destruct (p c) eqn:Ec.
    + destruct (many p s (fun m rest => k (c :: m) rest)) as [r'|] eqn:Em.
      * injection H as ->.
        destruct (IH _ _ Em) as (m & rest & -> & Hm & Hk).
        exists (c :: m), rest. simpl. rewrite Ec, Hm. auto.
      * exists [], (c :: s). auto.
    + exists [], (c :: s). auto.
Qed.

(** A string that [PURL_REGEX] matches opens with
    [pkg:<ecosystem>/<name>]. *)
Lemma purl_match_opens (s : pystr) (g : list pystr) :
  re_match PURL_REGEX s = Some g -> opens_as_purl s.
Proof.
  unfold re_match, PURL_REGEX, str. simpl. intros H.
  destruct s as [|c1 s]; [discriminate|].
  destruct (N.eqb c1 112) eqn:E1; [|discriminate].
  destruct s as [|c2 s]; [discriminate|].
  destruct (N.eqb c2 107) eqn:E2; [|discriminate].
  destruct s as [|c3 s]; [discriminate|].
  destruct (N.eqb c3 103) eqn:E3; [|discriminate].
  destruct s as [|c4 s]; [discriminate|].
  destruct (N.eqb c4 58) eqn:E4; [|discriminate].
  apply N.eqb_eq in E1, E2, E3, E4. subst c1 c2 c3 c4.
  destruct s as [|x s]; [discriminate|].
  destruct (is_word x) eqn:Ex; [|discriminate].
  apply many_inv in H as (m & rest & -> & Hm & H).
  destruct rest as [|y rest]; [discriminate|].
  destruct (N.eqb y 47) eqn:Ey; [|discriminate].
  apply N.eqb_eq in Ey. subst y.
  destruct rest as [|z rest]; [discriminate|].
  destruct (purl_name_char z) eqn:Ez; [|discriminate].
  apply many_inv in H as (m2 & rest2 & -> & Hm2 & _).
  exists (x :: m), (z :: m2), rest2.
  split; [discriminate|]. split; [simpl; rewrite Ex; exact Hm|].
  split; [discriminate|]. split; [simpl; rewrite Ez; exact Hm2|].
  unfold str. simpl. reflexivity.
Qed.

Lemma purl_grammar_opens (s : pystr) : purl_grammar s -> opens_as_purl s.
Proof.
  intros (eco & name & He & Hew & Hn & Hnc & [-> | (version & _ & ->)]).
  - exists eco, name, []. rewrite app_nil_r. auto.
  - exists eco, name, ([64%N] ++ version). auto.
Qed.

(** The characters of a string of the grammar: those of its fixed parts
    and those of the three classes. *)
Lemma purl_grammar_chars (s : pystr) (c : N) :
  purl_grammar s -> In c s ->
  In c (str "pkg:/@")
  \/ is_word c = true \/ purl_name_char c = true
  \/ purl_version_char c = true.
Proof.
  intros (eco & name & _ & Hew & _ & Hnc & Hs) Hin.
  rewrite forallb_forall in Hew, Hnc.
  assert (Hfix : forall x, In x (str "pkg:" ++ [47%N] ++ [64%N]) ->
                           In x (str "pkg:/@")).
  { intros x Hx. exact Hx. }
  destruct Hs as [-> | (version & Hv & ->)]; unfold purl_string in Hin;
    rewrite ?in_app_iff in Hin.
  - destruct Hin as [Hin|[Hin|[Hin|Hin]]].
    + left. apply Hfix. rewrite !in_app_iff. auto.
    + right. left. auto.
    + left. apply Hfix. rewrite !in_app_iff. auto.
    + right. right. left. auto.
  - rewrite forallb_forall in Hv.
    destruct Hin as [Hin|[Hin|[Hin|[Hin|[Hin|Hin]]]]].
    + left. apply Hfix. rewrite !in_app_iff. auto.
    + right. left. auto.
    + left. apply Hfix. rewrite !in_app_iff. auto.
    + right. right. left. auto.
    + left. apply Hfix. rewrite !in_app_iff. auto.
    + right. right. right. auto.
Qed.

(** C6, as the code has it.  A string that does not open with
    [pkg:<ecosystem>/<name>] is not matched by [PURL_REGEX].  A string
    that [PURL_REGEX] does not match is off the grammar
    [pkg:<ecosystem>/<name>[@<version>]]; it leaves the object as it was
    and [from_purl] returns; on a new [Package()] the three identity
    fields are then null, enrichment returns without a request or a
    change, and the row of the package has only empty cells (and the
    count 0). *)
Theorem from_purl_no_match (s : pystr) (sbom_dict : pyval) (w : world) :
  (~ opens_as_purl s -> re_match PURL_REGEX s = None)
  /\ (re_match PURL_REGEX s = None ->
      ~ purl_grammar s
      /\ from_purl (VStr s) sbom_dict w = (Ok tt, w)
      /\ (self w = Package_init None None None ->
          identity (self w) = (None, None, None)
          /\ fill_package_metadata w = (Ok tt, w)
          /\ row (self w)
             = [VNone; VNone; VNone; VNone; VNone; VNone; VStr []; VInt 0;
                VNone; VNone])).
Proof.
  split.
  - intros Ho. destruct (re_match PURL_REGEX s) as [g|] eqn:Em; [|reflexivity].
    exfalso. apply Ho. apply (purl_match_opens s g Em).
  - intros Hm. split; [|split].
    + intros (eco & name & He & Hew & Hn & Hnc & [Hs | (version & Hv & Hs)]);
        subst s.
      * rewrite (purl_match_no_version eco name He Hew Hn Hnc) in Hm.
        discriminate.
      * rewrite (purl_match eco name version He Hew Hn Hnc Hv) in Hm.
        discriminate.
    + unfold from_purl, regex_match, bind, ret. rewrite Hm. reflexivity.
    + intros Hs. split; [rewrite Hs; reflexivity|]. split.
      * apply attempts_other. rewrite Hs. reflexivity.
      * rewrite Hs. reflexivity.
Qed.

(** ** [set_repo_url] *)

Lemma set_repo_url_str (u : pystr) (w : world) :
  u <> [] ->
  set_repo_url (VStr u) w =
    (Ok tt,
     mkWorld
       (match re_match REPO_URL_REGEX u with
        | Some g =>
            with_repo_name (Some (group g 2))
              (with_repo_owner (Some (group g 1))
                 (with_repo_url (VStr u) (self w)))
        | None => with_repo_url (VStr u) (self w)
        end)
       (log w) (exchanges w) (repo_urls_given w ++ [VStr u]) (registry w)).
Proof.
  intros Hu. destruct u as [|c u]; [congruence|].
  unfold set_repo_url, note_repo_url, bind, regex_match, update_self, ret.
  simpl. destruct (re_match REPO_URL_REGEX (c :: u)); reflexivity.
Qed.

(** C10. For every non-empty URL string [u], [set_repo_url] returns with
    the repository-URL field set to [u], also when [u] does not match
    [REPO_URL_REGEX]; in that case owner and name keep their values, so
    that a record whose owner and name were null ends with a non-null URL
    and both still null. *)
Theorem set_repo_url_stores_url (u : pystr) (w : world) :
  u <> [] ->
  exists w',
    set_repo_url (VStr u) w = (Ok tt, w')
    /\ _repo_url (self w') = VStr u
    /\ (re_match REPO_URL_REGEX u = None ->
        _repo_owner (self w') = _repo_owner (self w)
        /\ _repo_name (self w') = _repo_name (self w)
        /\ (_repo_owner (self w) = None -> _repo_name (self w) = None ->
            _repo_url (self w') <> VNone
            /\ _repo_owner (self w') = None /\ _repo_name (self w') = None)).
Proof.
  intros Hu. eexists. split; [apply set_repo_url_str; exact Hu|].
  simpl. destruct (re_match REPO_URL_REGEX u) as [g|]; simpl.
  - split; [reflexivity|]. discriminate.
  - split; [reflexivity|]. intros _. repeat split; try assumption.
    discriminate.
Qed.

(** C2, on the code: [set_repo_url("ftp://bad")] returns, stores the URL
    and leaves owner and name alone, and logs nothing: the warning of the
    method stands in the branch of the empty URL only. *)
Theorem set_repo_url_ftp_bad_logs_nothing (w : world) :
  re_match REPO_URL_REGEX (str "ftp://bad") = None
  /\ exists w',
       set_repo_url (VStr (str "ftp://bad")) w = (Ok tt, w')
       /\ log w' = log w
       /\ _repo_url (self w') = VStr (str "ftp://bad")
       /\ _repo_owner (self w') = _repo_owner (self w)
       /\ _repo_name (self w') = _repo_name (self w).
Proof.
  split; [reflexivity|].
  eexists. split; [apply set_repo_url_str; discriminate|].
  repeat split.
Qed.

(** The empty URL and [None] do get the warning, with the package name. *)
Lemma set_repo_url_empty_warns (v : pyval) (w : world) :
  truthy v = false ->
  set_repo_url v w =
    (Ok tt,
     mkWorld (self w)
       (log w ++ [(WARNING, InvalidRepoUrl v (_name (self w)))])
       (exchanges w) (repo_urls_given w ++ [v]) (registry w)).
Proof.
  intros Hv. unfold set_repo_url, note_repo_url, bind, get_self, emit.
  rewrite Hv. reflexivity.
Qed.


(** ** The downloads request *)

Lemma with_downloads_self (w : world) :
  with_self (with_downloads (_downloads (self w)) (self w)) w = w.
Proof. destruct w as [[] ? ? ? ?]. reflexivity. Qed.

Lemma sum_downloads_window (l : list pyval) :
  forall (i : nat) (zs : list Z) (w : world),
    i <= DOWNLOADS_DEPTH_DAYS ->
    map daily_downloads (firstn (DOWNLOADS_DEPTH_DAYS - i) l) = map Some zs ->
    sum_downloads i l w
    = (Ok tt,
       with_self
         (with_downloads (_downloads (self w) + sum_list zs) (self w)) w).
Proof.
  induction l as [|e l IH]; intros i zs w Hi H.
  - rewrite firstn_nil in H. destruct zs; [|discriminate]. simpl.
    rewrite Z.add_0_r, with_downloads_self. reflexivity.
  - simpl. destruct (Nat.eqb i DOWNLOADS_DEPTH_DAYS) eqn:Ei.
    + apply Nat.eqb_eq in Ei. subst i. rewrite Nat.sub_diag in H.
      destruct zs; [|discriminate]. simpl.
      rewrite Z.add_0_r, with_downloads_self. reflexivity.
    + apply Nat.eqb_neq in Ei.
      destruct (DOWNLOADS_DEPTH_DAYS - i) as [|k] eqn:Ek.
      * unfold DOWNLOADS_DEPTH_DAYS in *. lia.
      * simpl in H. destruct zs as [|z zs]; [discriminate|].
        simpl in H. injection H as He Hl.
        unfold daily_downloads in He.
        destruct e as [| | | | |d]; try discriminate.
        destruct (assoc (str "downloads") d) as [[| |z'| | |]|] eqn:Ea;
          try discriminate.
        injection He as ->.
        unfold getitem. mrun. rewrite Ea. unfold int_add. mrun.
        assert (Hk : DOWNLOADS_DEPTH_DAYS - S i = k)
          by (unfold DOWNLOADS_DEPTH_DAYS in *; lia).
        assert (Hi' : S i <= DOWNLOADS_DEPTH_DAYS)
          by (unfold DOWNLOADS_DEPTH_DAYS in *; lia).
        rewrite <- Hk in Hl. rewrite (IH (S i) zs _ Hi' Hl).
        destruct w as [[] ? ? ? ?]. unfold with_self, with_downloads.
        simpl. rewrite Z.add_assoc. reflexivity.
Qed.

(** C7. When the downloads request gets a 200 response whose
    [meta.extra_downloads] is a list with integer [downloads] in its first
    7 entries (or in all, when there are fewer), the download count
    becomes the sum of those first 7 values, whatever follows them; when
    it gets another status, a warning is logged and the count keeps its
    value, which is 0 on a new package. *)
Theorem fetch_downloads_window (w : world) (status : Z) (body : option pyval) :
  registry w (List.length (exchanges w)) (downloads_url (self w))
    = Response status body ->
  (status = 200%Z ->
   forall d m l zs,
     body = Some (VDict d) ->
     assoc (str "meta") d = Some (VDict m) ->
     assoc (str "extra_downloads") m = Some (VList l) ->
     map daily_downloads (firstn DOWNLOADS_DEPTH_DAYS l) = map Some zs ->
     exists w',
       fetch_downloads w = (Ok tt, w')
       /\ _downloads (self w') = sum_list zs
       /\ log w' = log w)
  /\ (status <> 200%Z ->
      exists w',
        fetch_downloads w = (Ok tt, w')
        /\ _downloads (self w') = _downloads (self w)
        /\ log w'
           = log w
             ++ [(WARNING, ErrorFetchingDownloads (_name (self w)) status)])
  /\ (forall t n v, _downloads (Package_init t n v) = 0%Z).
Proof.
  intros Hreg. split; [|split].
  - intros -> d m l zs -> Hm Hl Hz.
    unfold fetch_downloads, read_downloads, bind, get_self, requests_get.
    rewrite Hreg. simpl. unfold getitem. rewrite Hm. unfold ret. rewrite Hl.
    simpl. rewrite <- (Nat.sub_0_r DOWNLOADS_DEPTH_DAYS) in Hz.
    rewrite (sum_downloads_window l 0 zs _ (Nat.le_0_l _) Hz).
    eexists. split; [reflexivity|]. simpl. split; reflexivity.
  - intros Hs.
    unfold fetch_downloads, bind, get_self, requests_get. rewrite Hreg.
    simpl. apply Z.eqb_neq in Hs. rewrite Hs. unfold emit. simpl.
    eexists. split; [reflexivity|]. simpl. split; reflexivity.
  - reflexivity.
Qed.


(** ** The version history *)

(** With a target version, the scan records the first entry of the
    history: the test of line 122 holds at index 0 whatever [num] is. *)
Lemma record_last_push_first (w : world) (data : list (pystr * pyval))
    (e : pyval) (rest : list pyval) (p' : Package) :
  truthy_str (_version (self w)) = true ->
  assoc (str "versions") data = Some (VList (e :: rest)) ->
  (exists d x, e = VDict d /\ assoc (str "num") d = Some x) ->
  recorded e (self w) = Some p' ->
  record_last_push (VDict data) w = (Ok tt, with_self p' w).
Proof.
  intros Hv Hd (d & x & -> & Hn) Hr.
  unfold record_last_push. mrun. rewrite Hv. unfold getitem. rewrite Hd.
  mrun. simpl. mrun. rewrite Hn. mrun. rewrite orb_true_r.
  unfold recorded in Hr.
  destruct (assoc (str "created_at") d) as [[| | |s| |]|]; try discriminate.
  destruct (assoc (str "published_by") d) as [pb|] eqn:Epb; try discriminate.
  unfold strptime_value. destruct (strptime s) as [t|]; try discriminate.
  mrun. simpl.
  unfold entry_author in Hr. destruct (truthy pb) eqn:Etr.
  - destruct pb as [| | | | |d']; try discriminate.
    unfold py_get.
    destruct (assoc (str "login") d') as [a|]; injection Hr as <-;
      reflexivity.
  - injection Hr as <-. reflexivity.
Qed.

(** C1, as the code has it.  On a 200 response: without a target version
    (null or empty) the history is not read and nothing is recorded; with
    a target version and an empty history nothing is recorded; with a
    target version that the first entry of the history carries as its
    [num], the creation time and the author of that entry are recorded. *)
Theorem record_last_push_amended (w : world) (data : list (pystr * pyval)) :
  (truthy_str (_version (self w)) = false ->
   record_last_push (VDict data) w = (Ok tt, w))
  /\ (truthy_str (_version (self w)) = true ->
      assoc (str "versions") data = Some (VList []) ->
      record_last_push (VDict data) w = (Ok tt, w))
  /\ (forall v d rest p',
        _version (self w) = Some v -> v <> [] ->
        assoc (str "versions") data = Some (VList (VDict d :: rest)) ->
        assoc (str "num") d = Some (VStr v) ->
        recorded (VDict d) (self w) = Some p' ->
        record_last_push (VDict data) w = (Ok tt, with_self p' w)
        /\ spec_selected (_version (self w)) (VDict d :: rest)
           = Some (VDict d)).
Proof.
  split; [|split].
  - intros Hv. unfold record_last_push. mrun. rewrite Hv. reflexivity.
  - intros Hv Hd. unfold record_last_push. mrun. rewrite Hv.
    unfold getitem. rewrite Hd. reflexivity.
  - intros v d rest p' Hv Hne Hd Hn Hr. split.
    + apply record_last_push_first with (e := VDict d) (rest := rest).
      * rewrite Hv. destruct v; [congruence|reflexivity].
      * exact Hd.
      * exists d, (VStr v). split; [reflexivity|exact Hn].
      * exact Hr.
    + unfold spec_selected. rewrite Hv. simpl.
      destruct v as [|c v]; [congruence|]. simpl. rewrite Hn.
      simpl. rewrite N.eqb_refl, pystr_eqb_refl. reflexivity.
Qed.

End Theory.

(** ** Frames of the enrichment code

    What every step of [fill_package_metadata] respects follows from what
    its primitive steps respect. *)
Section Frames.

Context {rt : Runtime}.
Variable R : world -> world -> Prop.
Hypothesis R_refl : forall w, R w w.
Hypothesis R_trans : forall a b c, R a b -> R b c -> R a c.
Hypothesis R_update : forall f, keeps f -> respects R (update_self f).
Hypothesis R_emit : forall l m, body_message m -> respects R (emit l m).
Hypothesis R_warn :
  forall n e a, respects R (emit WARNING (ErrorFetchingMetadata n e a)).
Hypothesis R_set_repo_url : forall v, respects R (set_repo_url v).
Hypothesis R_requests_get : forall url, respects R (requests_get url).

Lemma respects_ret (A : Type) (a : A) : respects R (ret a).
Proof. intros w. apply R_refl. Qed.

Lemma respects_raise (A : Type) (e : exn) : respects R (@raise rt A e).
Proof. intros w. apply R_refl. Qed.

Lemma respects_get_self : respects R get_self.
Proof. intros w. apply R_refl. Qed.

Lemma respects_bind (A B : Type) (m : M A) (f : A -> M B) :
  respects R m -> (forall a, respects R (f a)) -> respects R (bind m f).
Proof.
  intros Hm Hf w. unfold bind. specialize (Hm w).
  destruct (m w) as [[a|e] w1]; simpl in *; [|exact Hm].
  apply R_trans with w1; [exact Hm | apply Hf].
Qed.

Lemma respects_try_except (A : Type) (m : M A) (h : exn -> M A) :
  respects R m -> (forall e, respects R (h e)) -> respects R (try_except m h).
Proof.
  intros Hm Hh w. unfold try_except. specialize (Hm w).
  destruct (m w) as [[a|e] w1]; simpl in *; [exact Hm|].
  apply R_trans with w1; [exact Hm | apply Hh].
Qed.

Lemma respects_json (b : option pyval) : respects R (json b).
Proof. destruct b; [apply respects_ret | apply respects_raise]. Qed.

Lemma respects_getitem (v : pyval) (k : string) : respects R (getitem v k).
Proof.
  unfold getitem. destruct v; try apply respects_raise.
  destruct (assoc (str k) d); [apply respects_ret | apply respects_raise].
Qed.

Lemma respects_getindex (v : pyval) (i : nat) : respects R (getindex v i).
Proof.
  unfold getindex. destruct v; try apply respects_raise.
  - destruct (nth_error s i); [apply respects_ret | apply respects_raise].
  - destruct (nth_error l i); [apply respects_ret | apply respects_raise].
Qed.

Lemma respects_py_get (v : pyval) (k : string) (d : pyval) :
  respects R (py_get v k d).
Proof.
  unfold py_get. destruct v; try apply respects_raise.
  destruct (assoc (str k) d0); apply respects_ret.
Qed.

Lemma respects_iterate (v : pyval) : respects R (iterate v).
Proof. destruct v; simpl; try apply respects_raise; apply respects_ret. Qed.

Lemma respects_strptime_value (v : pyval) : respects R (strptime_value v).
Proof.
  unfold strptime_value. destruct v; try apply respects_raise.
  destruct (strptime s); [apply respects_ret | apply respects_raise].
Qed.

Lemma respects_int_add (n : Z) (v : pyval) : respects R (int_add n v).
Proof. destruct v; simpl; try apply respects_raise; apply respects_ret. Qed.

Lemma keeps_last_push_date (x : option datetime) :
  keeps (with_last_push_date x).
Proof. intros p. repeat split. Qed.

Lemma keeps_last_push_author (x : pyval) : keeps (with_last_push_author x).
Proof. intros p. repeat split. Qed.

Lemma keeps_downloads (x : Z) : keeps (with_downloads x).
Proof. intros p. repeat split. Qed.

Lemma keeps_add_owner (o : pystr) :
  keeps (fun p =>
    if existsb (pystr_eqb o) (_lib_owners p) then p
    else with_lib_owners (_lib_owners p ++ [o]) p).
Proof.
  intros p. destruct (existsb (pystr_eqb o) (_lib_owners p)); repeat split.
Qed.

(** Descends through the binds and branches of a computation down to its
    primitive steps. *)
Ltac frame :=
  repeat first
    [ apply R_set_repo_url
    | apply respects_ret
    | apply respects_raise
    | apply respects_get_self
    | apply respects_json
    | apply respects_getitem
    | apply respects_getindex
    | apply respects_py_get
    | apply respects_iterate
    | apply respects_strptime_value
    | apply respects_int_add
    | apply R_requests_get
    | apply R_warn
    | apply R_emit; exact I
    | apply R_update;
      first [ apply keeps_last_push_date | apply keeps_last_push_author
            | apply keeps_downloads | apply keeps_add_owner ]
    | apply respects_bind; [|intro]
    | match goal with
      | |- respects _ (if ?b then _ else _) => destruct b
      end ].

Lemma respects_scan_versions (l : list pyval) :
  forall i, respects R (scan_versions i l).
Proof.
  induction l as [|crate rest IH]; intros i; simpl; frame. apply IH.
Qed.

Lemma respects_record_last_push (data : pyval) :
  respects R (record_last_push data).
Proof. unfold record_last_push. frame. apply respects_scan_versions. Qed.

Lemma respects_add_lib_owner (o : pystr) : respects R (add_lib_owner o).
Proof. unfold add_lib_owner. frame. Qed.

Lemma respects_add_owners (l : list pyval) : respects R (add_owners l).
Proof.
  induction l as [|owner rest IH]; simpl; frame. exact IH.
Qed.

Lemma respects_sum_downloads (l : list pyval) :
  forall i, respects R (sum_downloads i l).
Proof.
  induction l as [|d rest IH]; intros i; simpl; frame. apply IH.
Qed.

Lemma respects_read_metadata (data : pyval) : respects R (read_metadata data).
Proof. unfold read_metadata. frame. apply respects_scan_versions. Qed.

Lemma respects_read_owners (v : pyval) : respects R (read_owners v).
Proof. unfold read_owners. frame. apply respects_add_owners. Qed.

Lemma respects_read_downloads (v : pyval) : respects R (read_downloads v).
Proof. unfold read_downloads. frame. apply respects_sum_downloads. Qed.

Lemma respects_fetch_owners : respects R fetch_owners.
Proof. unfold fetch_owners. frame. apply respects_add_owners. Qed.

Lemma respects_fetch_downloads : respects R fetch_downloads.
Proof. unfold fetch_downloads. frame. apply respects_sum_downloads. Qed.

Lemma respects_cargo_attempt : respects R cargo_attempt.
Proof.
  unfold cargo_attempt. frame.
  - apply respects_scan_versions.
  - apply respects_add_owners.
  - apply respects_sum_downloads.
Qed.

Lemma respects_attempts (n : nat) : forall i, respects R (attempts n i).
Proof.
  induction n as [|n IH]; intros i; simpl; frame.
  - apply respects_try_except; [apply respects_cargo_attempt|].
    intros e. frame.
  - apply IH.
Qed.

Lemma respects_fill_package_metadata : respects R fill_package_metadata.
Proof. apply respects_attempts. Qed.

End Frames.

Section Runs.

Context {rt : Runtime}.

(** ** [set_repo_url] on any object *)

Lemma set_repo_url_other (v : pyval) (w : world) :
  truthy v = true -> (forall s, v <> VStr s) ->
  set_repo_url v w =
    (Raise TypeError,
     mkWorld (with_repo_url v (self w)) (log w) (exchanges w)
       (repo_urls_given w ++ [v]) (registry w)).
Proof.
  intros Ht Hs. unfold set_repo_url, note_repo_url. mrun. rewrite Ht.
  destruct v; try reflexivity. exfalso. apply (Hs s). reflexivity.
Qed.

(** The three ways [set_repo_url] ends. *)
Lemma set_repo_url_cases (v : pyval) (w : world) :
  (exists u, v = VStr u /\ u <> [])
  \/ truthy v = false
  \/ (truthy v = true /\ forall s, v <> VStr s).
Proof.
  destruct v as [| b | z | s | l | d]; simpl.
  - right. left. reflexivity.
  - destruct b; [right; right; split; [reflexivity|discriminate]
                |right; left; reflexivity].
  - destruct (Z.eqb z 0); simpl;
      [right; left; reflexivity
      |right; right; split; [reflexivity|discriminate]].
  - destruct s as [|c s]; [right; left; reflexivity|].
    left. exists (c :: s). split; [reflexivity|discriminate].
  - destruct l; [right; left; reflexivity
                |right; right; split; [reflexivity|discriminate]].
  - destruct d; [right; left; reflexivity
                |right; right; split; [reflexivity|discriminate]].
Qed.

Lemma quiet_refl (w : world) : quiet w w.
Proof.
  repeat split. exists []. rewrite app_nil_r. split; [reflexivity|constructor].
Qed.

Lemma quiet_trans (a b c : world) : quiet a b -> quiet b c -> quiet a c.
Proof.
  intros (E1 & G1 & I1 & l1 & L1 & F1) (E2 & G2 & I2 & l2 & L2 & F2).
  repeat split; try congruence.
  exists (l1 ++ l2). split.
  - rewrite L2, L1, app_assoc. reflexivity.
  - apply Forall_app. split; assumption.
Qed.

Lemma quiet_same_log (w w' : world) :
  exchanges w' = exchanges w -> registry w' = registry w ->
  identity (self w') = identity (self w) -> log w' = log w ->
  quiet w w'.
Proof.
  intros E G I L. repeat split; try assumption.
  exists []. rewrite app_nil_r. split; [exact L|constructor].
Qed.

Lemma quiet_update (f : Package -> Package) :
  keeps f -> respects quiet (update_self f).
Proof.
  intros Hf w. apply quiet_same_log; try reflexivity. simpl. apply Hf.
Qed.

Lemma quiet_emit (l : level) (m : message) :
  body_message m -> respects quiet (emit l m).
Proof.
  intros Hm w. repeat split. exists [(l, m)]. split; [reflexivity|].
  constructor; [exact Hm|constructor].
Qed.

Lemma quiet_set_repo_url (v : pyval) : respects quiet (set_repo_url v).
Proof.
  intros w.
  destruct (set_repo_url_cases v w) as [(u & -> & Hu) | [Hf | (Ht & Hs)]].
  - rewrite (set_repo_url_str u w Hu). apply quiet_same_log; try reflexivity.
    simpl. destruct (re_match REPO_URL_REGEX u); reflexivity.
  - rewrite (set_repo_url_empty_warns v w Hf). repeat split.
    eexists. split; [reflexivity|]. constructor; [exact I|constructor].
  - rewrite (set_repo_url_other v w Ht Hs).
    apply quiet_same_log; reflexivity.
Qed.

Lemma quiet_read_metadata (data : pyval) : respects quiet (read_metadata data).
Proof.
  apply respects_read_metadata.
  - exact quiet_refl.
  - exact quiet_trans.
  - exact quiet_update.
  - exact quiet_emit.
  - exact quiet_set_repo_url.
Qed.

Lemma quiet_read_owners (v : pyval) : respects quiet (read_owners v).
Proof.
  apply respects_read_owners.
  - exact quiet_refl.
  - exact quiet_trans.
  - exact quiet_update.
Qed.

Lemma quiet_read_downloads (v : pyval) : respects quiet (read_downloads v).
Proof.
  apply respects_read_downloads.
  - exact quiet_refl.
  - exact quiet_trans.
  - exact quiet_update.
Qed.

(** ** One request and what follows it *)

Lemma grown_quiet (w w' : world) : quiet w w' -> grown [] w w'.
Proof.
  intros (E & G & I & L). repeat split; try assumption.
  rewrite app_nil_r. exact E.
Qed.

Lemma grown_trans (t1 t2 : list (pystr * outcome)) (a b c : world) :
  grown t1 a b -> grown t2 b c -> grown (t1 ++ t2) a c.
Proof.
  intros (E1 & G1 & I1 & l1 & L1 & F1) (E2 & G2 & I2 & l2 & L2 & F2).
  repeat split; try congruence.
  - rewrite E2, E1, app_assoc. reflexivity.
  - exists (l1 ++ l2). split.
    + rewrite L2, L1, app_assoc. reflexivity.
    + apply Forall_app. split; assumption.
Qed.

Lemma grown_answer (t : list (pystr * outcome)) (w w' : world) (url : pystr) :
  grown t w w' ->
  answer w' url = registry w (List.length (exchanges w) + List.length t) url.
Proof.
  intros (E & G & _). unfold answer. rewrite E, G, length_app. reflexivity.
Qed.

Lemma urls_of_identity (p q : Package) :
  identity p = identity q ->
  cargo_api_url p = cargo_api_url q
  /\ cargo_owners_url p = cargo_owners_url q
  /\ downloads_url p = downloads_url q
  /\ is_cargo p = is_cargo q
  /\ _name p = _name q.
Proof.
  unfold identity, cargo_api_url, cargo_owners_url, downloads_url, is_cargo.
  intros H. injection H as H1 H2 H3. rewrite H1, H2. repeat split.
Qed.

(** A request whose 200 response is decoded and read quietly, and whose
    other responses are logged. *)
Lemma request_step (url : pystr) (body : pyval -> M unit)
    (msg : Z -> message) (w : world) :
  (forall v, respects quiet (body v)) ->
  (forall s, body_message (msg s)) ->
  exists r w',
    bind (requests_get url)
      (fun resp =>
         if Z.eqb (fst resp) 200 then bind (json (snd resp)) body
         else emit WARNING (msg (fst resp))) w = (r, w')
    /\ grown [(url, answer w url)] w w'
    /\ step_end (answer w url) r.
Proof.
  intros Hbody Hmsg. unfold bind, requests_get, answer.
  destruct (registry w (List.length (exchanges w)) url) as [e|s b]; simpl.
  - eexists _, _. split; [reflexivity|]. split; [|reflexivity].
    repeat split. exists []. rewrite app_nil_r. split; [reflexivity|constructor].
  - destruct (Z.eqb s 200) eqn:Es.
    + apply Z.eqb_eq in Es. subst s. destruct b as [v|]; simpl.
      * match goal with
        | |- context [body v ?w1] =>
            pose proof (Hbody v w1) as Hq; destruct (body v w1) as [r w2]
        end.
        simpl in Hq. destruct Hq as (E & G & I & L).
        exists r, w2. split; [reflexivity|]. split.
        -- repeat split; assumption.
        -- destruct r; simpl; [discriminate|].
           split; [reflexivity|discriminate].
      * eexists _, _. split; [reflexivity|]. split.
        -- repeat split. exists []. rewrite app_nil_r.
           split; [reflexivity|constructor].
        -- simpl. split; reflexivity.
    + apply Z.eqb_neq in Es. unfold emit. simpl.
      eexists _, _. split; [reflexivity|]. split.
      * repeat split. eexists. split; [reflexivity|].
        constructor; [apply Hmsg|constructor].
      * simpl. intros H. contradiction.
Qed.

Lemma fetch_owners_step (w : world) :
  exists r w',
    fetch_owners w = (r, w')
    /\ grown [(cargo_owners_url (self w),
               answer w (cargo_owners_url (self w)))] w w'
    /\ step_end (answer w (cargo_owners_url (self w))) r.
Proof.
  apply (request_step (cargo_owners_url (self w)) read_owners
           (ErrorFetchingOwners (_name (self w))) w).
  - exact quiet_read_owners.
  - intros s. exact I.
Qed.

Lemma fetch_downloads_step (w : world) :
  exists r w',
    fetch_downloads w = (r, w')
    /\ grown [(downloads_url (self w), answer w (downloads_url (self w)))]
         w w'
    /\ step_end (answer w (downloads_url (self w))) r.
Proof.
  apply (request_step (downloads_url (self w)) read_downloads
           (ErrorFetchingDownloads (_name (self w))) w).
  - exact quiet_read_downloads.
  - intros s. exact I.
Qed.

(** ** One attempt *)

Lemma grown_one (w : world) (url : pystr) :
  grown [(url, answer w url)] w
    (mkWorld (self w) (log w) (exchanges w ++ [(url, answer w url)])
       (repo_urls_given w) (registry w)).
Proof.
  repeat split. exists []. rewrite app_nil_r. split; [reflexivity|constructor].
Qed.

Lemma cargo_attempt_trace (w : world) :
  is_cargo (self w) = true ->
  exists r w' t,
    cargo_attempt w = (r, w')
    /\ grown t w w'
    /\ attempt_trace (cargo_api_url (self w)) (cargo_owners_url (self w))
         (downloads_url (self w)) t r.
Proof.
  intros Hc. unfold is_cargo in Hc.
  unfold cargo_attempt, bind, get_self. rewrite Hc.
  unfold requests_get. fold (answer w (cargo_api_url (self w))).
  pose proof (grown_one w (cargo_api_url (self w))) as G1.
  set (api := cargo_api_url (self w)) in *.
  set (w1 := mkWorld (self w) (log w) (exchanges w ++ [(api, answer w api)])
               (repo_urls_given w) (registry w)) in *.
  destruct (answer w api) as [e|s b] eqn:Ea.
  - exists (Raise e), w1, [(api, Raises e)]. split; [reflexivity|].
    split; [exact G1|]. apply AT_top. reflexivity.
  - simpl. destruct (Z.eqb s 200) eqn:Es.
    2:{ apply Z.eqb_neq in Es.
        exists (Ok false), w1, [(api, Response s b)]. split; [reflexivity|].
        split; [exact G1|]. apply AT_status. exact Es. }
    apply Z.eqb_eq in Es. subst s.
    destruct b as [d|]; simpl.
    2:{ exists (Raise JSONDecodeError), w1, [(api, Response 200 None)].
        split; [reflexivity|]. split; [exact G1|].
        apply AT_top. split; reflexivity. }
    pose proof (quiet_read_metadata d w1) as Q2.
    destruct (read_metadata d w1) as [[[]|e] w2]; simpl in Q2.
    2:{ exists (Raise e), w2, ([(api, Response 200 (Some d))] ++ []).
        split; [reflexivity|].
        split; [apply (grown_trans _ _ _ _ _ G1 (grown_quiet _ _ Q2))|].
        apply AT_top. split; [reflexivity|discriminate]. }
    pose proof (grown_trans _ _ _ _ _ G1 (grown_quiet _ _ Q2)) as G2.
    simpl in G2.
    destruct (urls_of_identity (self w2) (self w)) as (_ & Uo & Ud & _).
    { apply G2. }
    destruct (fetch_owners_step w2) as (r3 & w3 & E3 & G3 & S3).
    rewrite E3. rewrite Uo in G3, S3.
    pose proof (grown_trans _ _ _ _ _ G2 G3) as G23. simpl in G23.
    destruct r3 as [[]|e].
    2:{ eexists _, _, _. split; [reflexivity|]. split; [exact G23|].
        apply AT_owners. exact S3. }
    destruct (urls_of_identity (self w3) (self w)) as (_ & _ & Ud3 & _).
    { apply G23. }
    destruct (fetch_downloads_step w3) as (r4 & w4 & E4 & G4 & S4).
    rewrite E4. rewrite Ud3 in G4, S4.
    pose proof (grown_trans _ _ _ _ _ G23 G4) as G234. simpl in G234.
    destruct r4 as [[]|e].
    + eexists _, _, _. split; [reflexivity|]. split; [exact G234|].
      apply AT_done; assumption.
    + eexists _, _, _. split; [reflexivity|]. split; [exact G234|].
      apply AT_downloads; assumption.
Qed.

(** ** The retry loop *)

Lemma attempts_run (n : nat) :
  forall (i : nat) (w : world),
    is_cargo (self w) = true ->
    exists w' t lg,
      attempts n i w = (Ok tt, w')
      /\ exchanges w' = exchanges w ++ t
      /\ log w' = log w ++ lg
      /\ identity (self w') = identity (self w)
      /\ run_trace (_name (self w)) (cargo_api_url (self w))
           (cargo_owners_url (self w)) (downloads_url (self w)) n i t lg.
Proof.
  induction n as [|n IH]; intros i w Hc.
  - exists w, [], []. simpl. rewrite !app_nil_r.
    repeat split. constructor.
  - destruct (cargo_attempt_trace w Hc)
      as (r & w1 & t & E & (Ex & Rg & Id & lg & Lg & Fl) & T).
    destruct (urls_of_identity (self w1) (self w) Id)
      as (Ua & Uo & Ud & Uc & Un).
    simpl. unfold bind, try_except. rewrite E.
    destruct r as [[|]|e].
    + exists w1, t, lg. repeat split; try assumption.
      apply RT_done; assumption.
    + rewrite Hc in Uc.
      destruct (IH (S i) w1 Uc)
        as (w' & ts & lgs & E' & Ex' & Lg' & Id' & T').
      rewrite Ua, Uo, Ud, Un in T'.
      exists w', (t ++ ts), (lg ++ lgs). split; [exact E'|].
      split; [rewrite Ex', Ex, app_assoc; reflexivity|].
      split; [rewrite Lg', Lg, app_assoc; reflexivity|].
      split; [congruence|].
      apply RT_again; assumption.
    + unfold get_self, emit, ret. simpl.
      match goal with
      | |- context [attempts n (S i) ?w2] =>
          destruct (IH (S i) w2)
            as (w' & ts & lgs & E' & Ex' & Lg' & Id' & T')
      end.
      { simpl. rewrite Uc. exact Hc. }
      simpl in Ex', Lg', Id', T'. rewrite Ua, Uo, Ud, Un in T'.
      exists w', (t ++ ts),
        (lg ++ (WARNING, ErrorFetchingMetadata (_name (self w)) e (i + 1))
            :: lgs).
      split; [exact E'|].
      split; [rewrite Ex', Ex, app_assoc; reflexivity|].
      split; [rewrite Lg', Lg, Un, <- !app_assoc; reflexivity|].
      split; [congruence|].
      apply RT_caught; assumption.
Qed.

Lemma run_trace_fill_trace (name : option pystr) (api own dl : pystr)
    (n i : nat) t lg :
  run_trace name api own dl n i t lg -> fill_trace api own dl n t.
Proof.
  induction 1.
  - constructor.
  - apply FT_done. assumption.
  - apply FT_retry with (r := Ok false); [assumption|discriminate|assumption].
  - apply FT_retry with (r := Raise e); [assumption|discriminate|assumption].
Qed.


Lemma urls_distinct (p : Package) :
  cargo_api_url p <> cargo_owners_url p
  /\ cargo_api_url p <> downloads_url p
  /\ cargo_owners_url p <> downloads_url p.
Proof.
  unfold cargo_api_url, cargo_owners_url, downloads_url.
  repeat split; intros H; apply (f_equal (@List.length N)) in H;
    rewrite ?length_app in H; unfold str in H; simpl in H; lia.
Qed.

(** C4, as the code has it.  On a cargo package the requests of one call
    come in at most 3 attempts, each opened by one top-level request; the
    owners request is issued only right after a top-level response with
    status 200 and a decodable body, the downloads request only right
    after an owners request that did not stop the attempt, each at most
    once per top-level request.  The run is that of the code: the
    exchanges and the log of the call are those of its attempts, an
    attempt that raised having left its numbered warning; whatever an
    attempt returns, its exchanges are those of one attempt with that
    result; an attempt that makes all three requests and does not raise
    ends the loop in the state it leaves, so that no request follows; an
    attempt that raises is followed by the next attempt, if one is left,
    after its warning, and an attempt whose top-level status is not 200 by
    the next attempt with nothing logged.  The three URLs differ, and a
    package of another ecosystem causes no request. *)
Theorem fill_package_metadata_requests (w : world) :
  (is_cargo (self w) = true ->
   exists w' t lg,
     fill_package_metadata w = (Ok tt, w')
     /\ exchanges w' = exchanges w ++ t
     /\ log w' = log w ++ lg
     /\ run_trace (_name (self w)) (cargo_api_url (self w))
          (cargo_owners_url (self w)) (downloads_url (self w))
          MAX_REGISTRY_FAILED_REQUESTS 0 t lg)
  /\ (is_cargo (self w) = true ->
      forall r w1,
        cargo_attempt w = (r, w1) ->
        exists t,
          exchanges w1 = exchanges w ++ t
          /\ attempt_trace (cargo_api_url (self w)) (cargo_owners_url (self w))
               (downloads_url (self w)) t r
          /\ (List.length t = 3 -> (forall e, r <> Raise e) ->
              forall n i, attempts (S n) i w = (Ok tt, w1)))
  /\ (forall n i w1,
        cargo_attempt w = (Ok true, w1) -> attempts (S n) i w = (Ok tt, w1))
  /\ (forall n i e w1,
        cargo_attempt w = (Raise e, w1) ->
        attempts (S n) i w
        = attempts n (S i)
            (logged (WARNING, ErrorFetchingMetadata (_name (self w1)) e (i + 1))
               w1))
  /\ (forall n i w1,
        cargo_attempt w = (Ok false, w1) ->
        attempts (S n) i w = attempts n (S i) w1)
  /\ (is_cargo (self w) = false -> fill_package_metadata w = (Ok tt, w))
  /\ (cargo_api_url (self w) <> cargo_owners_url (self w)
      /\ cargo_api_url (self w) <> downloads_url (self w)
      /\ cargo_owners_url (self w) <> downloads_url (self w)).
Proof.
  assert (Hdone : forall n i w1,
             cargo_attempt w = (Ok true, w1) ->
             attempts (S n) i w = (Ok tt, w1)).
  { intros n i w1 E. simpl. unfold bind at 1. unfold try_except.
    rewrite E. reflexivity. }
  split; [|split; [|split; [|split; [|split; [|split]]]]].
  - intros Hc.
    destruct (attempts_run MAX_REGISTRY_FAILED_REQUESTS 0 w Hc)
      as (w' & t & lg & E & Ex & Lg & _ & T).
    exists w', t, lg. repeat split; assumption.
  - intros Hc r w1 E.
    destruct (cargo_attempt_trace w Hc) as (r' & w1' & t & E' & G & T).
    rewrite E in E'. injection E' as <- <-.
    exists t. split; [apply G|]. split; [exact T|].
    intros Hl Hr n i. apply Hdone.
    inversion T; subst; try discriminate Hl.
    + exfalso. apply (Hr e). reflexivity.
    + exact E.
  - exact Hdone.
  - intros n i e w1 E. simpl. unfold bind at 1. unfold try_except.
    rewrite E. reflexivity.
  - intros n i w1 E. simpl. unfold bind at 1. unfold try_except.
    rewrite E. reflexivity.
  - intros Hc. apply attempts_other. exact Hc.
  - apply urls_distinct.
Qed.

(** ** The invariant of the repository fields *)

Lemma repo_invariant_frame (w w' : world) :
  _repo_owner (self w') = _repo_owner (self w) ->
  _repo_name (self w') = _repo_name (self w) ->
  (truthy (_repo_url (self w)) = true -> truthy (_repo_url (self w')) = true) ->
  (forall x, In x (repo_urls_given w) -> In x (repo_urls_given w')) ->
  repo_invariant w -> repo_invariant w'.
Proof.
  unfold repo_invariant. intros -> -> Hu Hin.
  destruct (_repo_owner (self w)), (_repo_name (self w)); auto.
  intros (Ht & u & g & Hi & Hm & Ho & Hn). split; [auto|].
  exists u, g. auto.
Qed.

Lemma invariant_update (f : Package -> Package) :
  keeps f -> respects keeps_invariant (update_self f).
Proof.
  intros Hf w. destruct (Hf (self w)) as (_ & Ho & Hn & Hu).
  unfold keeps_invariant.
  apply repo_invariant_frame; simpl; auto. rewrite Hu. auto.
Qed.

Lemma invariant_emit (l : level) (m : message) :
  respects keeps_invariant (emit l m).
Proof.
  intros w. unfold keeps_invariant.
  apply repo_invariant_frame; simpl; auto.
Qed.

Lemma invariant_requests_get (url : pystr) :
  respects keeps_invariant (requests_get url).
Proof.
  intros w. unfold requests_get, keeps_invariant.
  destruct (registry w (List.length (exchanges w)) url);
    apply repo_invariant_frame; simpl; auto.
Qed.

Lemma invariant_set_repo_url (v : pyval) :
  respects keeps_invariant (set_repo_url v).
Proof.
  intros w. unfold keeps_invariant.
  destruct (set_repo_url_cases v w) as [(u & -> & Hu) | [Hf | (Ht & Hs)]].
  - rewrite (set_repo_url_str u w Hu). simpl.
    destruct (re_match REPO_URL_REGEX u) as [g|] eqn:Hm.
    + intros _. unfold repo_invariant. simpl.
      split; [destruct u; [congruence|reflexivity]|].
      exists u, g. split; [apply in_or_app; right; left; reflexivity|].
      repeat split. exact Hm.
    + apply repo_invariant_frame; simpl; auto.
      * intros _. destruct u; [congruence|reflexivity].
      * intros x Hx. apply in_or_app. left. exact Hx.
  - rewrite (set_repo_url_empty_warns v w Hf).
    apply repo_invariant_frame; simpl; auto.
    intros x Hx. apply in_or_app. left. exact Hx.
  - rewrite (set_repo_url_other v w Ht Hs).
    apply repo_invariant_frame; simpl; auto.
    intros x Hx. apply in_or_app. left. exact Hx.
Qed.

Lemma invariant_fill_package_metadata :
  respects keeps_invariant fill_package_metadata.
Proof.
  apply respects_fill_package_metadata.
  - intros w H. exact H.
  - intros a b c Hab Hbc H. auto.
  - exact invariant_update.
  - intros l m _. apply invariant_emit.
  - intros n e a. apply invariant_emit.
  - exact invariant_set_repo_url.
  - exact invariant_requests_get.
Qed.

(** [from_purl] touches the identity fields only. *)
Lemma from_purl_self (purl sbom_dict : pyval) (w : world) :
  exists p,
    snd (from_purl purl sbom_dict w) = with_self p w
    /\ _repo_owner p = _repo_owner (self w)
    /\ _repo_name p = _repo_name (self w)
    /\ _repo_url p = _repo_url (self w).
Proof.
  destruct w as [p0 lg ex us rg].
  unfold from_purl, regex_match.
  destruct purl as [| | |s| |];
    try (eexists; split; [reflexivity|repeat split; reflexivity]).
  mrun. destruct (re_match PURL_REGEX s) as [g|];
    [|eexists; split; [reflexivity|repeat split; reflexivity]].
  cbv beta iota.
  match goal with
  | |- context [if ?c then _ else _] => destruct c
  end; [|eexists; split; [reflexivity|repeat split; reflexivity]].
  unfold py_get.
  destruct sbom_dict as [| | | | |d];
    try (eexists; split; [reflexivity|repeat split; reflexivity]).
  destruct (assoc (str "version") d) as [v|]; mrun;
    [|eexists; split; [reflexivity|repeat split; reflexivity]].
  unfold unquote_value.
  destruct v; eexists; (split; [reflexivity|repeat split; reflexivity]).
Qed.

(** C8. The invariant of the derived repository fields holds of a new
    package and is preserved by every method, whether it returns or
    raises: owner and name are either both null or both set, and when set
    the record has a repository URL and they are the two groups of the
    match of [REPO_URL_REGEX] on one URL that [set_repo_url] was given. *)
Theorem repo_invariant_preserved :
  (forall t n v lg ex urls reg,
     repo_invariant (mkWorld (Package_init t n v) lg ex urls reg))
  /\ (forall w,
       repo_invariant w ->
       (forall purl sbom_dict,
          repo_invariant (snd (from_purl purl sbom_dict w)))
       /\ (forall o, repo_invariant (snd (add_lib_owner o w)))
       /\ (forall v, repo_invariant (snd (set_repo_url v w)))
       /\ repo_invariant (snd (fill_package_metadata w))
       /\ (_repo_owner (self w) = None <-> _repo_name (self w) = None)).
Proof.
  split.
  - intros. exact I.
  - intros w Hw. split; [|split; [|split; [|split]]].
    + intros purl d.
      destruct (from_purl_self purl d w) as (p & -> & Ho & Hn & Hu).
      apply (repo_invariant_frame w); simpl; auto.
      rewrite Hu. auto.
    + intros o. apply (invariant_update _ (keeps_add_owner o) w Hw).
    + intros v. apply (invariant_set_repo_url v w Hw).
    + apply (invariant_fill_package_metadata w Hw).
    + unfold repo_invariant in Hw.
      destruct (_repo_owner (self w)), (_repo_name (self w));
        try contradiction; split; congruence.
Qed.

(** ** The rows of [main] *)

Lemma from_purl_local (purl sbom_dict : pyval) (w1 w2 : world) :
  self w1 = self w2 ->
  fst (from_purl purl sbom_dict w1) = fst (from_purl purl sbom_dict w2)
  /\ self (snd (from_purl purl sbom_dict w1))
     = self (snd (from_purl purl sbom_dict w2)).
Proof.
  destruct w1 as [p1 lg1 ex1 us1 rg1], w2 as [p2 lg2 ex2 us2 rg2].
  simpl. intros ->.
  unfold from_purl, regex_match.
  destruct purl as [| | |s| |]; try (split; reflexivity).
  mrun. destruct (re_match PURL_REGEX s) as [g|]; [|split; reflexivity].
  simpl.
  match goal with
  | |- context [if ?c then _ else _] => destruct c
  end; [|split; reflexivity].
  unfold py_get.
  destruct sbom_dict as [| | | | |d]; try (split; reflexivity).
  destruct (assoc (str "version") d) as [v|]; mrun; [|split; reflexivity].
  unfold unquote_value. destruct v; split; reflexivity.
Qed.

Lemma from_purl_returns (s : pystr) (package : pyval) (w : world) :
  entry_version_is_text package = true ->
  fst (from_purl (VStr s) package w) = Ok tt.
Proof.
  intros Hv. unfold from_purl, regex_match. mrun.
  destruct (re_match PURL_REGEX s) as [g|]; [|reflexivity].
  cbv beta iota.
  match goal with
  | |- context [if ?c then _ else _] => destruct c
  end; [|reflexivity].
  unfold entry_version_is_text in Hv. unfold py_get.
  destruct package as [| | | | |d]; try discriminate.
  destruct (assoc (str "version") d) as [v|]; mrun; [|reflexivity].
  destruct v; try discriminate. reflexivity.
Qed.



End Runs.

(* ================================================================== *)
(** * The properties on sample inputs *)

Example purl_example_groups :
  re_match (PURL_REGEX (rt := ascii_runtime))
    (str "pkg:cargo/foo%2Dbar@1.0.0")
  = Some [str "cargo"; str "foo%2Dbar"; str "1.0.0"].
Proof. vm_compute. reflexivity. Qed.

Example repo_url_example_groups :
  re_match (REPO_URL_REGEX (rt := ascii_runtime))
    (str "https://github.com/owner/repo/extra")
  = Some [str "owner"; str "repo"].
Proof. vm_compute. reflexivity. Qed.

(** [pkg:cargo/foo%2Dbar@1.0.0] gives the name [foo-bar] and the version
    [1.0.0], and [pkg:cargo/foo-bar@1.0.0], written from that triple, gives
    them again. *)
Lemma from_purl_valid_form_witness :
  exists p,
    from_purl (rt := ascii_runtime) (VStr (str "pkg:cargo/foo%2Dbar@1.0.0"))
      VNone (fresh_world offline)
    = (Ok tt, with_self p (fresh_world offline))
    /\ identity p
       = (Some (str "cargo"), Some (str "foo-bar"), Some (str "1.0.0"))
    /\ exists p',
         from_purl (rt := ascii_runtime)
           (VStr (str "pkg:cargo/foo-bar@1.0.0")) VNone (fresh_world offline)
         = (Ok tt, with_self p' (fresh_world offline))
         /\ identity p' = identity p.
Proof.
  destruct (@from_purl_valid_form ascii_runtime (str "cargo")
              (str "foo%2Dbar") (str "1.0.0") VNone (fresh_world offline))
    as (p & E & I & _ & R);
    try (vm_compute; congruence).
  exists p. split; [exact E|]. split; [exact I|].
  destruct R as (p' & E' & I'); try (vm_compute; reflexivity).
  exists p'. split; [|exact I'].
  rewrite I in E'. exact E'.
Defined.

(** [pkg:npm/%40angular@1.0.0] is of the valid form and gives the name
    [@angular]; the triple is written to [pkg:npm/@angular@1.0.0], which is
    another string and one that [PURL_REGEX] does not match. *)
Lemma round_trip_counterexample :
  ~ round_trip_as_stated (rt := ascii_runtime).
Proof.
  intros H.
  destruct (H (str "npm") (str "%40angular") (str "1.0.0")) as [E|E].
  - repeat split; try discriminate; reflexivity.
  - vm_compute in E. discriminate E.
  - vm_compute in E. discriminate E.
Qed.

(** [pkg:cargo/foo bar] is off the grammar, a space being in none of its
    classes, yet [PURL_REGEX] matches it, its last part taking what
    follows the name: the package gets the identity (cargo, foo, empty
    version). *)
Lemma off_grammar_counterexample :
  ~ off_grammar_as_stated (rt := ascii_runtime) (str "pkg:cargo/foo bar").
Proof.
  unfold off_grammar_as_stated. intros H.
  assert (Hg : ~ purl_grammar (rt := ascii_runtime) (str "pkg:cargo/foo bar")).
  { intros Hg.
    destruct (purl_grammar_chars _ 32%N Hg) as [Hc|[Hc|[Hc|Hc]]];
      try discriminate Hc.
    - unfold str. simpl. tauto.
    - unfold str in Hc. simpl in Hc.
      repeat (destruct Hc as [Hc|Hc]; [discriminate Hc|]). exact Hc. }
  specialize (H Hg). vm_compute in H. discriminate H.
Qed.

(** [not-a-purl] does not open with [pkg:]: it is not matched and off the
    grammar, and the new package keeps its null identity and causes no
    request. *)
Lemma from_purl_no_match_witness :
  re_match (PURL_REGEX (rt := ascii_runtime)) (str "not-a-purl") = None
  /\ ~ purl_grammar (rt := ascii_runtime) (str "not-a-purl")
  /\ from_purl (rt := ascii_runtime) (VStr (str "not-a-purl")) VNone
       (fresh_world offline)
     = (Ok tt, fresh_world offline)
  /\ identity (self (fresh_world (rt := ascii_runtime) offline))
     = (None, None, None)
  /\ fill_package_metadata (rt := ascii_runtime) (fresh_world offline)
     = (Ok tt, fresh_world offline).
Proof.
  destruct (@from_purl_no_match ascii_runtime (str "not-a-purl") VNone
              (fresh_world offline)) as (Hno & H).
  assert (Hm : re_match (PURL_REGEX (rt := ascii_runtime)) (str "not-a-purl")
               = None).
  { apply Hno. intros (eco & name & rest & _ & _ & _ & _ & Hs).
    unfold str in Hs. simpl in Hs. discriminate Hs. }
  destruct (H Hm) as (H0 & H1 & H2).
  destruct (H2 eq_refl) as (H3 & H4 & _).
  split; [exact Hm|]. split; [exact H0|]. split; [exact H1|].
  split; [exact H3|exact H4].
Defined.

Lemma set_repo_url_stores_url_witness :
  exists w',
    set_repo_url (rt := ascii_runtime) (VStr (str "ftp://bad"))
      (fresh_world offline) = (Ok tt, w')
    /\ _repo_url (self w') = VStr (str "ftp://bad")
    /\ _repo_owner (self w') = None
    /\ _repo_name (self w') = None.
Proof.
  destruct (@set_repo_url_stores_url ascii_runtime (str "ftp://bad")
              (fresh_world offline)) as (w' & E & U & H).
  - vm_compute. congruence.
  - exists w'. split; [exact E|]. split; [exact U|].
    destruct H as (_ & _ & H); [vm_compute; reflexivity|].
    destruct (H eq_refl eq_refl) as (_ & Ho & Hn).
    split; [exact Ho|exact Hn].
Defined.

(** ** The version history *)

(** A cargo package without target version and a history of two entries:
    the specification selects the first entry, the code reads nothing. *)
Lemma version_scan_counterexample :
  ~ version_scan_as_stated (rt := ascii_runtime)
      (with_self (cargo_package "foo" "") (fresh_world offline)) foo_history.
Proof.
  unfold version_scan_as_stated. vm_compute. intros H. discriminate H.
Qed.

(** On the code: with the target version [0.9.0], the second entry of the
    history, the scan still records the first entry. *)
Example record_last_push_takes_first :
  exists p,
    record_last_push (rt := ascii_runtime)
      (VDict [(str "versions", VList foo_history)])
      (with_self (cargo_package "foo" "0.9.0") (fresh_world offline))
    = (Ok tt, with_self p (fresh_world offline))
    /\ _last_push_author p = VStr (str "alice").
Proof. eexists. split; vm_compute; reflexivity. Qed.

Lemma record_last_push_amended_witness :
  record_last_push (rt := ascii_runtime)
    (VDict [(str "versions", VList foo_history)])
    (with_self (cargo_package "foo" "") (fresh_world offline))
  = (Ok tt, with_self (cargo_package "foo" "") (fresh_world offline))
  /\ exists p,
       record_last_push (rt := ascii_runtime)
         (VDict [(str "versions", VList foo_history)])
         (with_self (cargo_package "foo" "1.0.0") (fresh_world offline))
       = (Ok tt,
          with_self p
            (with_self (cargo_package "foo" "1.0.0") (fresh_world offline)))
       /\ _last_push_author p = VStr (str "alice")
       /\ _last_push_date p = Some (str "2024-01-02T03:04:05.000000+00:00").
Proof.
  split.
  - apply (proj1 (@record_last_push_amended ascii_runtime
                    (with_self (cargo_package "foo" "") (fresh_world offline))
                    [(str "versions", VList foo_history)])).
    reflexivity.
  - destruct (@record_last_push_amended ascii_runtime
                (with_self (cargo_package "foo" "1.0.0") (fresh_world offline))
                [(str "versions", VList foo_history)]) as (_ & _ & H).
    eexists. split.
    + refine (proj1 (H (str "1.0.0") _ _ _ eq_refl _ eq_refl eq_refl
                       eq_refl)).
      discriminate.
    + split; reflexivity.
Defined.

(** ** The downloads request *)

Lemma fetch_downloads_window_witness :
  (exists w',
     fetch_downloads (rt := ascii_runtime)
       (with_self (cargo_package "foo" "1.0.0") (fresh_world registry_ten_days))
     = (Ok tt, w')
     /\ _downloads (self w') = 28%Z)
  /\ (exists w',
        fetch_downloads (rt := ascii_runtime)
          (with_self (cargo_package "foo" "1.0.0") (fresh_world registry_500))
        = (Ok tt, w')
        /\ _downloads (self w') = 0%Z
        /\ log w'
           = [(WARNING, ErrorFetchingDownloads (Some (str "foo")) 500)]).
Proof.
  split.
  - destruct (@fetch_downloads_window ascii_runtime
                (with_self (cargo_package "foo" "1.0.0")
                   (fresh_world registry_ten_days))
                200%Z (Some (downloads_document ten_days)) eq_refl)
      as (H & _).
    destruct (H eq_refl
                [(str "meta", VDict [(str "extra_downloads", VList ten_days)])]
                [(str "extra_downloads", VList ten_days)] ten_days
                [1; 2; 3; 4; 5; 6; 7]%Z eq_refl eq_refl eq_refl eq_refl)
      as (w' & E & D & _).
    exists w'. split; [exact E|exact D].
  - destruct (@fetch_downloads_window ascii_runtime
                (with_self (cargo_package "foo" "1.0.0")
                   (fresh_world registry_500))
                500%Z None eq_refl)
      as (_ & H & _).
    destruct H as (w' & E & D & L); [discriminate|].
    exists w'. split; [exact E|]. split; [exact D|exact L].
Defined.

(** ** The retry loop *)

(** C3.  On the code: the registry answers every top-level request for
    the cargo package [foo] with status 500.  The call returns after three
    attempts, each of one top-level request, and the log stays empty: a
    top-level response whose status is not 200 is retried without the
    warning and the attempt count that a failed attempt is to leave, while
    the owners and the downloads step of the same body each log a warning
    on a status other than 200. *)
Theorem fill_package_metadata_status_unlogged (rt : Runtime) :
  exists w',
    fill_package_metadata
      (with_self (cargo_package "foo" "1.0.0") (fresh_world registry_500))
    = (Ok tt, w')
    /\ exchanges w'
       = [ (str "https://crates.io/api/v1/crates/foo", Response 500 None);
           (str "https://crates.io/api/v1/crates/foo", Response 500 None);
           (str "https://crates.io/api/v1/crates/foo", Response 500 None) ]
    /\ log w' = []
    /\ self w' = cargo_package "foo" "1.0.0".
Proof.
  eexists. split; [vm_compute; reflexivity|].
  split; [|split]; reflexivity.
Qed.

(** A cargo package whose first top-level response has status 200 and a
    body that is not JSON: two more top-level requests follow, and no
    owners or downloads request. *)
Lemma top_level_200_counterexample :
  ~ top_level_200_as_stated (rt := ascii_runtime)
      (with_self (cargo_package "foo" "1.0.0") (fresh_world registry_bad_json)).
Proof.
  unfold top_level_200_as_stated. intros H.
  destruct (H [] None
              [(str "https://crates.io/api/v1/crates/foo",
                Raises RequestException);
               (str "https://crates.io/api/v1/crates/foo",
                Raises RequestException)])
    as (o2 & o3 & E).
  - vm_compute. reflexivity.
  - vm_compute in E. discriminate E.
Qed.

(** On the package whose owners request is answered with status 500 the
    call is one attempt of three requests; that attempt returns at the
    [break] and ends the loop.  On the package whose first top-level
    response is not JSON the first attempt raises, and the second follows
    its warning.  A record without ecosystem causes no request. *)
Lemma fill_package_metadata_requests_witness :
  (exists w' t lg,
     fill_package_metadata (rt := ascii_runtime)
       (with_self (cargo_package "foo" "1.0.0")
          (fresh_world registry_owners_500))
     = (Ok tt, w')
     /\ exchanges w' = t
     /\ log w' = lg
     /\ run_trace (Some (str "foo"))
          (str "https://crates.io/api/v1/crates/foo")
          (str "https://crates.io/api/v1/crates/foo/owners")
          (str "https://crates.io/api/v1/crates/foo/downloads") 3 0 t lg)
  /\ (exists w1,
        cargo_attempt (rt := ascii_runtime)
          (with_self (cargo_package "foo" "1.0.0")
             (fresh_world registry_owners_500))
        = (Ok true, w1)
        /\ List.length (exchanges w1) = 3
        /\ attempts 3 0
             (with_self (cargo_package "foo" "1.0.0")
                (fresh_world registry_owners_500))
           = (Ok tt, w1))
  /\ (exists w1,
        cargo_attempt (rt := ascii_runtime)
          (with_self (cargo_package "foo" "1.0.0")
             (fresh_world registry_bad_json))
        = (Raise JSONDecodeError, w1)
        /\ attempts 3 0
             (with_self (cargo_package "foo" "1.0.0")
                (fresh_world registry_bad_json))
           = attempts 2 1
               (logged
                  (WARNING,
                   ErrorFetchingMetadata (Some (str "foo")) JSONDecodeError 1)
                  w1))
  /\ fill_package_metadata (rt := ascii_runtime) (fresh_world offline)
     = (Ok tt, fresh_world offline).
Proof.
  pose proof (@fill_package_metadata_requests ascii_runtime
                (with_self (cargo_package "foo" "1.0.0")
                   (fresh_world registry_owners_500)))
    as (H1 & H2 & _).
  pose proof (@fill_package_metadata_requests ascii_runtime
                (with_self (cargo_package "foo" "1.0.0")
                   (fresh_world registry_bad_json)))
    as (_ & _ & _ & H4 & _).
  pose proof (@fill_package_metadata_requests ascii_runtime
                (fresh_world offline))
    as (_ & _ & _ & _ & _ & H6 & _).
  split; [|split; [|split]].
  - destruct (H1 eq_refl) as (w' & t & lg & E & Ex & Lg & T).
    exists w', t, lg. split; [exact E|]. split; [exact Ex|].
    split; [exact Lg|exact T].
  - assert (E : exists w1,
               cargo_attempt (rt := ascii_runtime)
                 (with_self (cargo_package "foo" "1.0.0")
                    (fresh_world registry_owners_500))
               = (Ok true, w1)
               /\ List.length (exchanges w1) = 3).
    { eexists. split; [vm_compute; reflexivity|reflexivity]. }
    destruct E as (w1 & E & Hl).
    exists w1. split; [exact E|]. split; [exact Hl|].
    destruct (H2 eq_refl (Ok true) w1 E) as (t & Ex & _ & H).
    apply H.
    + rewrite Ex in Hl. exact Hl.
    + intros e. discriminate.
  - assert (E : exists w1,
               cargo_attempt (rt := ascii_runtime)
                 (with_self (cargo_package "foo" "1.0.0")
                    (fresh_world registry_bad_json))
               = (Raise JSONDecodeError, w1)
               /\ _name (self w1) = Some (str "foo")).
    { eexists. split; [vm_compute; reflexivity|reflexivity]. }
    destruct E as (w1 & E & Hn).
    exists w1. split; [exact E|].
    rewrite <- Hn. exact (H4 2 0 JSONDecodeError w1 E).
  - apply H6. reflexivity.
Defined.

(** ** The invariant and the rows *)

Lemma repo_invariant_preserved_witness :
  repo_invariant (rt := ascii_runtime)
    (snd (set_repo_url (VStr (str "https://github.com/owner/repo"))
            (fresh_world offline)))
  /\ repo_invariant (rt := ascii_runtime)
       (snd (fill_package_metadata
               (with_self (cargo_package "foo" "1.0.0")
                  (fresh_world registry_owners_500)))).
Proof.
  destruct (@repo_invariant_preserved ascii_runtime) as [H0 H].
  split.
  - apply (H (fresh_world offline)). exact I.
  - apply (H (with_self (cargo_package "foo" "1.0.0")
                (fresh_world registry_owners_500))).
    exact I.
Defined.


(* ================================================================== *)
(** * Further properties of the code *)

(** A pattern that opens with a literal word only matches text that
    opens with it. *)
Lemma lits_prefix (s : pystr) (r : regex) :
  forall u g k,
    exec (lits s r) u g k <> None -> exists rest, u = s ++ rest.
Proof.
  induction s as [|c s IH]; intros u g k H.
  - exists u. reflexivity.
  - simpl in H. destruct u as [|x u]; [congruence|].
    destruct (N.eqb x c) eqn:Ex; [|congruence].
    apply N.eqb_eq in Ex. subst x.
    apply IH in H. destruct H as [rest ->]. exists rest. reflexivity.
Qed.

Section More.

Context {rt : Runtime}.

(** ** [from_purl] beyond the full form *)

Lemma purl_match_suffix (eco name version suffix : pystr) :
  eco <> [] -> forallb is_word eco = true ->
  name <> [] -> forallb purl_name_char name = true ->
  forallb purl_version_char version = true ->
  ends_class purl_version_char suffix ->
  forallb any_char suffix = true ->
  re_match PURL_REGEX (purl_string eco name version ++ suffix)
  = Some [eco; name; version].
Proof.
  intros He Hew Hn Hnc Hv Hs Hany.
  destruct eco as [|e eco]; [congruence|].
  destruct name as [|c name]; [congruence|].
  simpl in Hew, Hnc.
  apply andb_true_iff in Hew as [He0 Hew].
  apply andb_true_iff in Hnc as [Hc0 Hnc].
  unfold re_match, PURL_REGEX, purl_string, str. simpl.
  rewrite <- !app_assoc. simpl.
  rewrite He0.
  apply many_greedy; [exact Hew | reflexivity |].
  simpl. rewrite Hc0. rewrite <- !app_assoc. simpl.
  apply many_greedy; [exact Hnc | reflexivity |].
  simpl.
  rewrite (@many_greedy _ purl_version_char version suffix _
             [e :: eco; c :: name; version]);
    [reflexivity | exact Hv | exact Hs |].
  apply many_all; [exact Hany | reflexivity].
Qed.

(** X1. A package URL without version, [pkg:<eco>/<name>], gives the
    ecosystem and the decoded name; the version is the decoded [version]
    of the auxiliary record when that record is a non-empty dict with a
    string [version], and the empty string (not null) when there is no
    record, an empty one, or one without [version]. *)
Theorem from_purl_version_fallback (eco name : pystr) (sbom_dict : pyval)
    (w : world) :
  eco <> [] -> forallb is_word eco = true ->
  name <> [] -> forallb purl_name_char name = true ->
  let purl := VStr (str "pkg:" ++ eco ++ [47%N] ++ name) in
  let parsed v :=
    with_version (Some v)
      (with_name (Some (unquote name))
         (with_package_type (Some eco) (self w))) in
  (truthy sbom_dict = false ->
   from_purl purl sbom_dict w = (Ok tt, with_self (parsed []) w))
  /\ (forall d,
        sbom_dict = VDict d -> d <> [] ->
        assoc (str "version") d = None ->
        from_purl purl sbom_dict w = (Ok tt, with_self (parsed []) w))
  /\ (forall d v,
        sbom_dict = VDict d ->
        assoc (str "version") d = Some (VStr v) ->
        from_purl purl sbom_dict w = (Ok tt, with_self (parsed (unquote v)) w)).
Proof.
  intros He Hew Hn Hnc purl parsed.
  pose proof (purl_match_no_version eco name He Hew Hn Hnc) as Hm.
  assert (Hrun : forall b,
            truthy sbom_dict = b ->
            from_purl purl sbom_dict w
            = (if b
               then
                 bind (py_get sbom_dict "version" (VStr []))
                   (fun v => bind (unquote_value v)
                      (fun s => update_self (with_version (Some s))))
               else ret tt) (with_self (parsed []) w)).
  { intros b Hb. unfold purl, from_purl, regex_match. mrun. rewrite Hm.
    unfold group. simpl. rewrite Hb. destruct b; reflexivity. }
  split; [|split].
  - intros Hf. rewrite (Hrun false Hf). reflexivity.
  - intros d -> Hd Ha. rewrite (Hrun true).
    + unfold py_get. mrun. rewrite Ha. reflexivity.
    + destruct d; [congruence|reflexivity].
  - intros d v -> Ha. rewrite (Hrun true).
    + unfold py_get. mrun. rewrite Ha. reflexivity.
    + destruct d; [discriminate|reflexivity].
Qed.

(** X2. On a package URL without version, an auxiliary record whose
    [version] is not a string makes [from_purl] raise, after it has set
    ecosystem and name and the empty version. *)
Theorem from_purl_version_not_text (eco name : pystr)
    (d : list (pystr * pyval)) (x : pyval) (w : world) :
  eco <> [] -> forallb is_word eco = true ->
  name <> [] -> forallb purl_name_char name = true ->
  assoc (str "version") d = Some x ->
  (forall v, x <> VStr v) ->
  exists e,
    from_purl (VStr (str "pkg:" ++ eco ++ [47%N] ++ name)) (VDict d) w
    = (Raise e,
       with_self
         (with_version (Some [])
            (with_name (Some (unquote name))
               (with_package_type (Some eco) (self w)))) w).
Proof.
  intros He Hew Hn Hnc Ha Hx.
  pose proof (purl_match_no_version eco name He Hew Hn Hnc) as Hm.
  unfold from_purl, regex_match. mrun. rewrite Hm.
  unfold group. simpl.
  destruct d as [|kv d]; [discriminate|].
  cbv beta iota. unfold py_get. mrun. rewrite Ha.
  destruct x; try (eexists; reflexivity).
  exfalso. apply (Hx s). reflexivity.
Qed.

(** X3. What follows the version of a package URL is dropped: when the
    version part is followed by text that opens with a character outside
    [[0-9a-fA-F.%]] and holds no newline, the version read is the part
    before that character, so that [1.0.0-beta] and [1.0.0?arch=x] are
    both read as [1.0.0]. *)
Theorem from_purl_drops_suffix (eco name version suffix : pystr)
    (sbom_dict : pyval) (w : world) :
  eco <> [] -> forallb is_word eco = true ->
  name <> [] -> forallb purl_name_char name = true ->
  version <> [] -> forallb purl_version_char version = true ->
  ends_class purl_version_char suffix ->
  forallb any_char suffix = true ->
  from_purl (VStr (purl_string eco name version ++ suffix)) sbom_dict w
  = (Ok tt,
     with_self
       (with_version (Some (unquote version))
          (with_name (Some (unquote name))
             (with_package_type (Some eco) (self w)))) w).
Proof.
  intros He Hew Hn Hnc Hv Hvc Hs Hany.
  pose proof (purl_match_suffix eco name version suffix He Hew Hn Hnc Hvc
                Hs Hany) as Hm.
  pose proof (unquote_nonempty version Hv) as Hu.
  unfold from_purl, regex_match. mrun. rewrite Hm.
  unfold group. simpl.
  unfold truthy_str, of_opt, truthy.
  destruct (unquote version) as [|c v] eqn:Ev; [congruence|]. reflexivity.
Qed.

(** ** [set_repo_url] on the canonical form and off it *)

Lemma repo_url_match (h1 h2 owner repo extra : pystr) :
  h1 <> [] -> forallb is_word h1 = true ->
  h2 <> [] -> forallb is_word h2 = true ->
  owner <> [] -> forallb not_slash owner = true ->
  repo <> [] -> forallb not_slash repo = true ->
  ends_class not_slash extra -> forallb slash_or_word extra = true ->
  re_match REPO_URL_REGEX (repo_url_string h1 h2 owner repo extra)
  = Some [owner; repo].
Proof.
  intros H1 W1 H2 W2 Ho Wo Hr Wr Hx Wx.
  destruct h1 as [|a h1]; [congruence|].
  destruct h2 as [|b h2]; [congruence|].
  destruct owner as [|o owner]; [congruence|].
  destruct repo as [|r repo]; [congruence|].
  simpl in W1, W2, Wo, Wr.
  apply andb_true_iff in W1 as [Wa W1].
  apply andb_true_iff in W2 as [Wb W2].
  apply andb_true_iff in Wo as [Wo0 Wo].
  apply andb_true_iff in Wr as [Wr0 Wr].
  unfold re_match, REPO_URL_REGEX, repo_url_string, str. simpl.
  rewrite Wa.
  apply many_greedy; [exact W1 | reflexivity |].
  simpl. rewrite Wb.
  apply many_greedy; [exact W2 | reflexivity |].
  simpl. rewrite Wo0.
  apply many_greedy; [exact Wo | reflexivity |].
  simpl. rewrite Wr0.
  apply many_greedy; [exact Wr | exact Hx |].
  simpl. apply many_all; [exact Wx | reflexivity].
Qed.

(** X4. On a URL of the canonical form
    [https://<word>.<word>/<owner>/<repo>], alone or followed by a path of
    slashes and word characters, [set_repo_url] returns, logs nothing,
    stores the URL and sets owner and name to the first two path
    segments. *)
Theorem set_repo_url_canonical (h1 h2 owner repo extra : pystr) (w : world) :
  h1 <> [] -> forallb is_word h1 = true ->
  h2 <> [] -> forallb is_word h2 = true ->
  owner <> [] -> forallb not_slash owner = true ->
  repo <> [] -> forallb not_slash repo = true ->
  ends_class not_slash extra -> forallb slash_or_word extra = true ->
  exists w',
    set_repo_url (VStr (repo_url_string h1 h2 owner repo extra)) w = (Ok tt, w')
    /\ _repo_owner (self w') = Some owner
    /\ _repo_name (self w') = Some repo
    /\ _repo_url (self w') = VStr (repo_url_string h1 h2 owner repo extra)
    /\ log w' = log w.
Proof.
  intros H1 W1 H2 W2 Ho Wo Hr Wr Hx Wx.
  pose proof (repo_url_match h1 h2 owner repo extra H1 W1 H2 W2 Ho Wo Hr Wr
                Hx Wx) as Hm.
  eexists. split.
  - apply set_repo_url_str. unfold repo_url_string, str. simpl. discriminate.
  - rewrite Hm. simpl. repeat split.
Qed.

(** X5. A URL that does not open with [https://] (an [http://] or
    [git@] URL, say) is stored, and owner and name keep their values: no
    such URL matches [REPO_URL_REGEX]. *)
Theorem set_repo_url_needs_https (u : pystr) (w : world) :
  u <> [] ->
  firstn 8 u <> str "https://" ->
  re_match REPO_URL_REGEX u = None
  /\ exists w',
       set_repo_url (VStr u) w = (Ok tt, w')
       /\ _repo_url (self w') = VStr u
       /\ _repo_owner (self w') = _repo_owner (self w)
       /\ _repo_name (self w') = _repo_name (self w)
       /\ log w' = log w.
Proof.
  intros Hu Hp.
  assert (Hm : re_match REPO_URL_REGEX u = None).
  { destruct (re_match REPO_URL_REGEX u) as [g|] eqn:E; [|reflexivity].
    exfalso. unfold re_match, REPO_URL_REGEX in E.
    destruct (lits_prefix (str "https://") _ u [] _
                ltac:(rewrite E; discriminate)) as [rest ->].
    apply Hp. reflexivity. }
  split; [exact Hm|].
  eexists. split; [apply set_repo_url_str; exact Hu|].
  rewrite Hm. simpl. repeat split.
Qed.

End More.

Section Enrichment.

Context {rt : Runtime}.

(** ** What [read_metadata] passes to [set_repo_url] *)

Lemma same_repo_record_last_push (data : pyval) :
  respects same_repo (record_last_push data).
Proof.
  apply respects_record_last_push.
  - intros w. repeat split.
  - intros a b c (A1 & A2 & A3 & A4) (B1 & B2 & B3 & B4).
    repeat split; congruence.
  - intros f Hf w. destruct (Hf (self w)) as (_ & Ho & Hn & Hu).
    repeat split; assumption.
Qed.

Lemma read_metadata_steps (dd c : list (pystr * pyval)) (r h : pyval)
    (w : world) :
  assoc (str "crate") dd = Some (VDict c) ->
  assoc (str "repository") c = Some r ->
  assoc (str "homepage") c = Some h ->
  read_metadata (VDict dd) w
  = bind (set_repo_url (if truthy r then r else h))
      (fun _ => record_last_push (VDict dd))
      (logged (DEBUG, GotCargoMetadata (_name (self w))) w).
Proof.
  intros Hc Hr Hh. unfold read_metadata, getitem. mrun.
  rewrite Hc. cbv beta iota. rewrite Hr. cbv beta iota. rewrite Hh.
  reflexivity.
Qed.

Lemma quiet_record_last_push (data : pyval) :
  respects quiet (record_last_push data).
Proof.
  apply respects_record_last_push.
  - exact quiet_refl.
  - exact quiet_trans.
  - exact quiet_update.
Qed.

(** X6. In a top-level document whose [crate.repository] is empty or
    null, [crate.homepage] stands in for it.  A homepage string is what
    [set_repo_url] is given and what the record holds afterwards, whether
    the rest of the reading returns or raises.  When the homepage is
    empty or null too, the warning with the package name is logged and
    the repository fields of the record stay as they were.  A document
    whose [crate] has no [homepage] key raises [KeyError] before any URL
    is set, even when it has a repository. *)
Theorem read_metadata_homepage (dd c : list (pystr * pyval)) (w : world) :
  assoc (str "crate") dd = Some (VDict c) ->
  (forall r u,
     assoc (str "repository") c = Some r -> truthy r = false ->
     assoc (str "homepage") c = Some (VStr u) -> u <> [] ->
     let w' := snd (read_metadata (VDict dd) w) in
     _repo_url (self w') = VStr u
     /\ repo_urls_given w' = repo_urls_given w ++ [VStr u])
  /\ (forall r h,
        assoc (str "repository") c = Some r -> truthy r = false ->
        assoc (str "homepage") c = Some h -> truthy h = false ->
        let w' := snd (read_metadata (VDict dd) w) in
        _repo_url (self w') = _repo_url (self w)
        /\ _repo_owner (self w') = _repo_owner (self w)
        /\ _repo_name (self w') = _repo_name (self w)
        /\ In (WARNING, InvalidRepoUrl h (_name (self w))) (log w'))
  /\ (forall r,
        assoc (str "repository") c = Some r ->
        assoc (str "homepage") c = None ->
        read_metadata (VDict dd) w
        = (Raise KeyError,
           logged (DEBUG, GotCargoMetadata (_name (self w))) w)).
Proof.
  intros Hc. split; [|split].
  - intros r u Hr Hf Hh Hu.
    rewrite (read_metadata_steps dd c r (VStr u) w Hc Hr Hh). rewrite Hf.
    unfold bind. rewrite (set_repo_url_str u _ Hu).
    match goal with
    | |- context [record_last_push ?d ?w1] =>
        destruct (same_repo_record_last_push d w1) as (Su & _ & _ & Sg)
    end.
    cbv zeta. rewrite Su, Sg. simpl.
    destruct (re_match REPO_URL_REGEX u); split; reflexivity.
  - intros r h Hr Hf Hh Hhf.
    rewrite (read_metadata_steps dd c r h w Hc Hr Hh). rewrite Hf.
    unfold bind. rewrite (set_repo_url_empty_warns h _ Hhf).
    match goal with
    | |- context [record_last_push ?d ?w1] =>
        destruct (same_repo_record_last_push d w1) as (Su & So & Sn & _);
        destruct (quiet_record_last_push d w1) as (_ & _ & _ & lg & Lg & _)
    end.
    cbv zeta. rewrite Su, So, Sn, Lg. simpl.
    repeat split. apply in_or_app. left. apply in_or_app. right.
    left. reflexivity.
  - intros r Hr Hh. unfold read_metadata, getitem. mrun.
    rewrite Hc. cbv beta iota. rewrite Hr. cbv beta iota. rewrite Hh.
    reflexivity.
Qed.

(** X7. A top-level document whose [crate.repository] is a true object
    that is not a string (a number, a list, an object) makes the reading
    raise [TypeError], and the record is left holding that object as its
    repository URL; owner and name keep their values. *)
Theorem read_metadata_repository_not_text (dd c : list (pystr * pyval))
    (r h : pyval) (w : world) :
  assoc (str "crate") dd = Some (VDict c) ->
  assoc (str "repository") c = Some r ->
  assoc (str "homepage") c = Some h ->
  truthy r = true -> (forall s, r <> VStr s) ->
  exists w',
    read_metadata (VDict dd) w = (Raise TypeError, w')
    /\ _repo_url (self w') = r
    /\ _repo_owner (self w') = _repo_owner (self w)
    /\ _repo_name (self w') = _repo_name (self w).
Proof.
  intros Hc Hr Hh Ht Hs.
  rewrite (read_metadata_steps dd c r h w Hc Hr Hh). rewrite Ht.
  unfold bind. rewrite (set_repo_url_other r _ Ht Hs).
  eexists. split; [reflexivity|]. repeat split.
Qed.

(** ** The owners *)

Lemma set_add_in (os : list pystr) (o x : pystr) :
  In x (set_add os o) <-> In x os \/ x = o.
Proof.
  unfold set_add. destruct (existsb (pystr_eqb o) os) eqn:E.
  - split; [auto|]. intros [H| ->]; [exact H|].
    apply existsb_exists in E. destruct E as (y & Hy & Ey).
    apply pystr_eqb_eq in Ey. subst y. exact Hy.
  - rewrite in_app_iff. simpl. intuition congruence.
Qed.

Lemma set_add_nodup (os : list pystr) (o : pystr) :
  NoDup os -> NoDup (set_add os o).
Proof.
  intros H. unfold set_add. destruct (existsb (pystr_eqb o) os) eqn:E.
  - exact H.
  - apply NoDup_app; [exact H | repeat constructor; intros [] |].
    intros x Hx [Hxo|[]]. subst x.
    assert (existsb (pystr_eqb o) os = true) as E'.
    { apply existsb_exists. exists o. split; [exact Hx|].
      apply pystr_eqb_refl. }
    congruence.
Qed.

Lemma fold_set_add_in (ds os : list pystr) (x : pystr) :
  In x (fold_left set_add ds os) <-> In x os \/ In x ds.
Proof.
  revert os. induction ds as [|d ds IH]; intros os; simpl.
  - intuition.
  - rewrite IH, set_add_in. intuition.
Qed.

Lemma fold_set_add_nodup (ds os : list pystr) :
  NoDup os -> NoDup (fold_left set_add ds os).
Proof.
  revert os. induction ds as [|d ds IH]; intros os H; simpl; [exact H|].
  apply IH. apply set_add_nodup. exact H.
Qed.

Lemma with_lib_owners_self (w : world) :
  with_self (with_lib_owners (_lib_owners (self w)) (self w)) w = w.
Proof. destruct w as [[] ? ? ? ?]. reflexivity. Qed.

Lemma add_lib_owner_set_add (o : pystr) (w : world) :
  add_lib_owner o w
  = (Ok tt,
     with_self (with_lib_owners (set_add (_lib_owners (self w)) o) (self w))
       w).
Proof.
  unfold add_lib_owner, update_self, set_add.
  destruct w as [[] ? ? ? ?]. simpl.
  destruct (existsb (pystr_eqb o) _lib_owners0); reflexivity.
Qed.

Lemma add_owners_descriptors (l : list pyval) :
  forall (ds : list pystr) (w : world),
    map owner_descriptor l = map Some ds ->
    add_owners l w
    = (Ok tt,
       with_self
         (with_lib_owners (fold_left set_add ds (_lib_owners (self w)))
            (self w)) w).
Proof.
  induction l as [|owner l IH]; intros ds w H.
  - destruct ds; [|discriminate]. simpl.
    rewrite with_lib_owners_self. reflexivity.
  - destruct ds as [|d ds]; [discriminate|]. simpl in H.
    injection H as Hd Hl. unfold owner_descriptor in Hd.
    destruct owner as [| | | | |od]; try discriminate.
    destruct (assoc (str "login") od) as [lg|] eqn:El; try discriminate.
    destruct (assoc (str "name") od) as [nm|] eqn:En; try discriminate.
    injection Hd as <-.
    simpl. unfold getitem. mrun. rewrite El. cbv beta iota. rewrite En.
    cbv beta iota. rewrite add_lib_owner_set_add.
    rewrite (IH ds _ Hl). destruct w as [[] ? ? ? ?]. reflexivity.
Qed.

(** X8. When the owners request gets a 200 response whose [users] is a
    list of objects with [login] and [name], the step returns and the
    owners of the record are those it had and the descriptors
    [login (name)] of the list, each once: owners already present are
    kept, an owner listed twice is held once. *)
Theorem fetch_owners_accumulates (w : world) (dd : list (pystr * pyval))
    (l : list pyval) (ds : list pystr) :
  answer w (cargo_owners_url (self w)) = Response 200 (Some (VDict dd)) ->
  assoc (str "users") dd = Some (VList l) ->
  map owner_descriptor l = map Some ds ->
  exists w',
    fetch_owners w = (Ok tt, w')
    /\ (forall o,
          In o (_lib_owners (self w'))
          <-> In o (_lib_owners (self w)) \/ In o ds)
    /\ (NoDup (_lib_owners (self w)) -> NoDup (_lib_owners (self w')))
    /\ log w' = log w.
Proof.
  intros Ha Hu Hd. unfold answer in Ha.
  unfold fetch_owners, read_owners, bind, get_self, requests_get.
  rewrite Ha. simpl. unfold getitem. rewrite Hu. unfold ret. simpl.
  rewrite (add_owners_descriptors l ds _ Hd).
  eexists. split; [reflexivity|]. simpl.
  split; [intros o; apply fold_set_add_in|].
  split; [apply fold_set_add_nodup|reflexivity].
Qed.

(** ** A day without count *)

Lemma sum_downloads_broken (good : list pyval) :
  forall (zs : list Z) (d : list (pystr * pyval)) (rest : list pyval)
         (i : nat) (w : world),
    map daily_downloads good = map Some zs ->
    i + List.length good < DOWNLOADS_DEPTH_DAYS ->
    assoc (str "downloads") d = None ->
    sum_downloads i (good ++ VDict d :: rest) w
    = (Raise KeyError,
       with_self
         (with_downloads (_downloads (self w) + sum_list zs) (self w)) w).
Proof.
  induction good as [|e good IH]; intros zs d rest i w Hz Hi Hd.
  - destruct zs; [|discriminate]. simpl.
    destruct (Nat.eqb i DOWNLOADS_DEPTH_DAYS) eqn:Ei.
    + apply Nat.eqb_eq in Ei. simpl in Hi. lia.
    + unfold getitem. mrun. rewrite Hd.
      rewrite Z.add_0_r, with_downloads_self. reflexivity.
  - destruct zs as [|z zs]; [discriminate|]. simpl in Hz.
    injection Hz as He Hz. simpl in Hi. simpl.
    destruct (Nat.eqb i DOWNLOADS_DEPTH_DAYS) eqn:Ei.
    + apply Nat.eqb_eq in Ei. lia.
    + unfold daily_downloads in He.
      destruct e as [| | | | |ed]; try discriminate.
      destruct (assoc (str "downloads") ed) as [[| |z'| | |]|] eqn:Ea;
        try discriminate.
      injection He as ->.
      unfold getitem. mrun. rewrite Ea. unfold int_add. mrun.
      rewrite (IH zs d rest (S i) _ Hz ltac:(lia) Hd).
      destruct w as [[] ? ? ? ?]. unfold with_self, with_downloads.
      simpl. rewrite Z.add_assoc. reflexivity.
Qed.

(** X9. When one of the first 7 entries of [meta.extra_downloads] is an
    object without [downloads], the downloads step raises [KeyError] and
    leaves as download count the sum of the entries before it, not the
    count the record had. *)
Theorem fetch_downloads_broken_day (w : world)
    (dd m d : list (pystr * pyval)) (good rest : list pyval) (zs : list Z) :
  answer w (downloads_url (self w)) = Response 200 (Some (VDict dd)) ->
  assoc (str "meta") dd = Some (VDict m) ->
  assoc (str "extra_downloads") m = Some (VList (good ++ VDict d :: rest)) ->
  map daily_downloads good = map Some zs ->
  List.length good < DOWNLOADS_DEPTH_DAYS ->
  assoc (str "downloads") d = None ->
  exists w',
    fetch_downloads w = (Raise KeyError, w')
    /\ _downloads (self w') = sum_list zs
    /\ log w' = log w.
Proof.
  intros Ha Hm He Hz Hl Hd. unfold answer in Ha.
  unfold fetch_downloads, read_downloads, bind, get_self, requests_get.
  rewrite Ha. simpl. unfold getitem. rewrite Hm. unfold ret. rewrite He.
  simpl.
  rewrite (sum_downloads_broken good zs d rest 0 _ Hz Hl Hd).
  eexists. split; [reflexivity|]. split; reflexivity.
Qed.

End Enrichment.

Section Loop.

Context {rt : Runtime}.

(** ** The three ways an attempt passes control *)

Lemma attempts_caught (n i : nat) (w w1 : world) (e : exn) :
  cargo_attempt w = (Raise e, w1) ->
  attempts (S n) i w
  = attempts n (S i)
      (logged (WARNING, ErrorFetchingMetadata (_name (self w1)) e (i + 1)) w1).
Proof.
  intros E. simpl. unfold bind at 1. unfold try_except. rewrite E.
  reflexivity.
Qed.

Lemma attempts_again (n i : nat) (w w1 : world) :
  cargo_attempt w = (Ok false, w1) ->
  attempts (S n) i w = attempts n (S i) w1.
Proof.
  intros E. simpl. unfold bind at 1. unfold try_except. rewrite E.
  reflexivity.
Qed.

Lemma attempts_done (n i : nat) (w w1 : world) :
  cargo_attempt w = (Ok true, w1) -> attempts (S n) i w = (Ok tt, w1).
Proof.
  intros E. simpl. unfold bind at 1. unfold try_except. rewrite E.
  reflexivity.
Qed.

Lemma cargo_attempt_fails_top (w : world) (o : outcome) :
  is_cargo (self w) = true ->
  answer w (cargo_api_url (self w)) = o ->
  fails_top o ->
  cargo_attempt w
  = (match o with
     | Raises e => Raise e
     | Response _ _ => Ok false
     end,
     exchanged (cargo_api_url (self w), o) w).
Proof.
  intros Hc Ha Hf. unfold is_cargo in Hc. unfold answer in Ha.
  unfold cargo_attempt, bind, get_self. rewrite Hc.
  unfold requests_get. rewrite Ha.
  destruct o as [e|s b]; [reflexivity|].
  simpl in Hf. apply Z.eqb_neq in Hf. simpl. rewrite Hf. reflexivity.
Qed.

Lemma attempts_all_fail (os : list outcome) :
  forall (i : nat) (w : world),
    is_cargo (self w) = true ->
    (forall k o,
       nth_error os k = Some o ->
       registry w (List.length (exchanges w) + k) (cargo_api_url (self w))
       = o) ->
    Forall fails_top os ->
    attempts (List.length os) i w
    = (Ok tt,
       mkWorld (self w) (log w ++ top_warnings (_name (self w)) i os)
         (exchanges w ++ map (fun o => (cargo_api_url (self w), o)) os)
         (repo_urls_given w) (registry w)).
Proof.
  induction os as [|o os IH]; intros i w Hc Hreg Hall.
  - simpl. rewrite !app_nil_r. destruct w. reflexivity.
  - inversion Hall as [|? ? Ho Hos]; subst.
    assert (Ha : answer w (cargo_api_url (self w)) = o).
    { unfold answer. rewrite <- (Hreg 0 o eq_refl), Nat.add_0_r.
      reflexivity. }
    pose proof (cargo_attempt_fails_top w o Hc Ha Ho) as E.
    assert (Hnext : forall w1,
              self w1 = self w -> registry w1 = registry w ->
              exchanges w1 = exchanges w ++ [(cargo_api_url (self w), o)] ->
              forall k o',
                nth_error os k = Some o' ->
                registry w1 (List.length (exchanges w1) + k)
                  (cargo_api_url (self w1)) = o').
    { intros w1 Hs Hr Hx k o' Hk. rewrite Hs, Hr, Hx, length_app. simpl.
      rewrite <- (Hreg (S k) o' Hk). f_equal. lia. }
    cbn [List.length]. destruct o as [e|s b].
    + rewrite (attempts_caught _ _ _ _ _ E).
      rewrite IH; [|exact Hc|apply Hnext; reflexivity|exact Hos].
      unfold logged, exchanged. simpl. rewrite <- !app_assoc. reflexivity.
    + rewrite (attempts_again _ _ _ _ E).
      rewrite IH; [|exact Hc|apply Hnext; reflexivity|exact Hos].
      unfold exchanged. simpl. rewrite <- !app_assoc. reflexivity.
Qed.

(** X10. When each of the three top-level requests of a cargo package is
    refused or answered with a status other than 200, the call returns
    with the record as it was, after exactly three requests, all to the
    top-level URL; each refused request has left the warning with its
    attempt number, in order, and a response with another status has left
    nothing in the log. *)
Theorem fill_all_attempts_fail (w : world) (o1 o2 o3 : outcome) :
  is_cargo (self w) = true ->
  let n := List.length (exchanges w) in
  let api := cargo_api_url (self w) in
  registry w n api = o1 -> fails_top o1 ->
  registry w (n + 1) api = o2 -> fails_top o2 ->
  registry w (n + 2) api = o3 -> fails_top o3 ->
  fill_package_metadata w
  = (Ok tt,
     mkWorld (self w)
       (log w ++ top_warnings (_name (self w)) 0 [o1; o2; o3])
       (exchanges w ++ [(api, o1); (api, o2); (api, o3)])
       (repo_urls_given w) (registry w)).
Proof.
  intros Hc n api H1 F1 H2 F2 H3 F3.
  unfold fill_package_metadata, MAX_REGISTRY_FAILED_REQUESTS.
  apply (attempts_all_fail [o1; o2; o3] 0 w Hc).
  - intros k o Hk. fold n. fold api.
    destruct k as [|[|[|k]]]; simpl in Hk.
    + injection Hk as <-. rewrite Nat.add_0_r. exact H1.
    + injection Hk as <-. exact H2.
    + injection Hk as <-. exact H3.
    + destruct k; discriminate.
  - repeat constructor; assumption.
Qed.

(** ** A call that gets the top-level document only *)

Lemma recorded_keeps (e : pyval) (p p' : Package) :
  recorded e p = Some p' ->
  identity p' = identity p
  /\ _lib_owners p' = _lib_owners p
  /\ _downloads p' = _downloads p
  /\ _repo_url p' = _repo_url p
  /\ _repo_owner p' = _repo_owner p
  /\ _repo_name p' = _repo_name p.
Proof.
  unfold recorded. destruct e as [| | | | |d]; try discriminate.
  destruct (assoc (str "created_at") d) as [[| | |s| |]|]; try discriminate.
  destruct (assoc (str "published_by") d) as [pb|]; try discriminate.
  destruct (strptime s); try discriminate.
  destruct (entry_author pb); try discriminate.
  intros H. injection H as <-. repeat split.
Qed.

Lemma fetch_owners_status (w : world) (s : Z) (b : option pyval) :
  answer w (cargo_owners_url (self w)) = Response s b -> s <> 200%Z ->
  fetch_owners w
  = (Ok tt,
     logged (WARNING, ErrorFetchingOwners (_name (self w)) s)
       (exchanged (cargo_owners_url (self w), Response s b) w)).
Proof.
  intros Ha Hs. unfold answer in Ha.
  unfold fetch_owners, bind, get_self, requests_get. rewrite Ha. simpl.
  apply Z.eqb_neq in Hs. rewrite Hs. reflexivity.
Qed.

Lemma fetch_downloads_status (w : world) (s : Z) (b : option pyval) :
  answer w (downloads_url (self w)) = Response s b -> s <> 200%Z ->
  fetch_downloads w
  = (Ok tt,
     logged (WARNING, ErrorFetchingDownloads (_name (self w)) s)
       (exchanged (downloads_url (self w), Response s b) w)).
Proof.
  intros Ha Hs. unfold answer in Ha.
  unfold fetch_downloads, bind, get_self, requests_get. rewrite Ha. simpl.
  apply Z.eqb_neq in Hs. rewrite Hs. reflexivity.
Qed.

(** X11. When a cargo package with a target version gets a 200 top-level
    document with a repository string and a readable first version entry,
    and the owners and downloads requests get other statuses, the call
    ends after these three requests in the first attempt: the record has
    the repository fields and the last-publish data of the document, its
    owners and its download count are as before, and the log has the
    debug message and the two warnings. *)
Theorem fill_top_level_only (w : world) (dd c ed : list (pystr * pyval))
    (u : pystr) (h x : pyval) (rest : list pyval) (p2 : Package)
    (s2 s3 : Z) (b2 b3 : option pyval) :
  is_cargo (self w) = true ->
  truthy_str (_version (self w)) = true ->
  let n := List.length (exchanges w) in
  registry w n (cargo_api_url (self w)) = Response 200 (Some (VDict dd)) ->
  assoc (str "crate") dd = Some (VDict c) ->
  assoc (str "repository") c = Some (VStr u) -> u <> [] ->
  assoc (str "homepage") c = Some h ->
  assoc (str "versions") dd = Some (VList (VDict ed :: rest)) ->
  assoc (str "num") ed = Some x ->
  recorded (VDict ed) (classified u (self w)) = Some p2 ->
  registry w (n + 1) (cargo_owners_url (self w)) = Response s2 b2 ->
  s2 <> 200%Z ->
  registry w (n + 2) (downloads_url (self w)) = Response s3 b3 ->
  s3 <> 200%Z ->
  fill_package_metadata w
  = (Ok tt,
     mkWorld p2
       (log w
          ++ [(DEBUG, GotCargoMetadata (_name (self w)));
              (WARNING, ErrorFetchingOwners (_name (self w)) s2);
              (WARNING, ErrorFetchingDownloads (_name (self w)) s3)])
       (exchanges w
          ++ [(cargo_api_url (self w), Response 200 (Some (VDict dd)));
              (cargo_owners_url (self w), Response s2 b2);
              (downloads_url (self w), Response s3 b3)])
       (repo_urls_given w ++ [VStr u]) (registry w))
  /\ _lib_owners p2 = _lib_owners (self w)
  /\ _downloads p2 = _downloads (self w)
  /\ _repo_url p2 = VStr u.
Proof.
  intros Hc Hv n Ha Hcr Hr Hu Hh Hvs Hn Hrec Ho Hs2 Hd Hs3.
  destruct (recorded_keeps _ _ _ Hrec) as (Id & Hlo & Hdl & Hru & _).
  unfold classified in Hrec, Id, Hlo, Hdl, Hru.
  assert (Ht : truthy (VStr u) = true)
    by (destruct u; [congruence|reflexivity]).
  unfold is_cargo in Hc.
  destruct (re_match REPO_URL_REGEX u) as [g|] eqn:Em;
    (destruct (urls_of_identity _ _ Id) as (_ & Uo & Ud & _ & Un);
     simpl in Uo, Ud, Un;
     split;
     [ unfold fill_package_metadata, MAX_REGISTRY_FAILED_REQUESTS;
       apply attempts_done;
       unfold cargo_attempt; unfold bind at 1; unfold get_self at 1;
       rewrite Hc; unfold bind at 1; unfold requests_get; fold n;
       rewrite Ha;
       cbn [fst snd Z.eqb Pos.eqb json]; unfold bind at 1;
       unfold ret at 1; unfold bind at 1;
       rewrite (read_metadata_steps dd c (VStr u) h _ Hcr Hr Hh);
       rewrite Ht; unfold bind at 1; rewrite (set_repo_url_str u _ Hu);
       rewrite Em;
       rewrite (record_last_push_first _ dd (VDict ed) rest p2);
       [ | exact Hv | exact Hvs
         | exists ed, x; split; [reflexivity|exact Hn]
         | exact Hrec ];
       unfold bind at 1;
       rewrite (fetch_owners_status _ s2 b2);
       [ | unfold answer; simpl; rewrite Uo, length_app; exact Ho
         | exact Hs2 ];
       unfold bind at 1;
       rewrite (fetch_downloads_status _ s3 b3);
       [ | unfold answer; simpl; rewrite Ud, !length_app; simpl;
           rewrite <- Nat.add_assoc; exact Hd
         | exact Hs3 ];
       unfold ret, logged, exchanged, with_self; simpl;
       rewrite Uo, Ud, Un, <- !app_assoc; reflexivity
     | rewrite Hlo, Hdl, Hru; repeat split ]).
Qed.

End Loop.

Section Bounds.

Context {rt : Runtime}.

(** ** How many requests a call makes *)

Lemma pystr_eqb_neq (a b : pystr) : a <> b -> pystr_eqb a b = false.
Proof.
  intros H. destruct (pystr_eqb a b) eqn:E; [|reflexivity].
  apply pystr_eqb_eq in E. contradiction.
Qed.

Lemma requests_to_app (u : pystr) (a b : list (pystr * outcome)) :
  requests_to u (a ++ b) = requests_to u a + requests_to u b.
Proof. unfold requests_to. rewrite filter_app, length_app. reflexivity. Qed.

Lemma attempt_trace_counts (api own dl : pystr) t (r : result bool) :
  api <> own -> api <> dl -> own <> dl ->
  attempt_trace api own dl t r ->
  List.length t <= 3
  /\ requests_to api t = 1
  /\ requests_to own t <= 1
  /\ requests_to dl t <= 1.
Proof.
  intros Hao Had Hod T.
  pose proof (pystr_eqb_neq _ _ Hao) as E1.
  pose proof (pystr_eqb_neq _ _ Had) as E2.
  pose proof (pystr_eqb_neq _ _ Hod) as E3.
  pose proof (pystr_eqb_neq _ _ (not_eq_sym Hao)) as E4.
  pose proof (pystr_eqb_neq _ _ (not_eq_sym Had)) as E5.
  pose proof (pystr_eqb_neq _ _ (not_eq_sym Hod)) as E6.
  destruct T; unfold requests_to; simpl;
    rewrite ?pystr_eqb_refl, ?E1, ?E2, ?E3, ?E4, ?E5, ?E6; simpl;
    repeat split; lia.
Qed.

Lemma fill_trace_counts (api own dl : pystr) (n : nat) t :
  api <> own -> api <> dl -> own <> dl ->
  fill_trace api own dl n t ->
  List.length t <= 3 * n
  /\ requests_to api t <= n
  /\ requests_to own t <= n
  /\ requests_to dl t <= n.
Proof.
  intros Hao Had Hod T. induction T as [|n t Ht|n t ts r Ht Hr Hts IH].
  - unfold requests_to. simpl. repeat split; lia.
  - destruct (attempt_trace_counts api own dl t _ Hao Had Hod Ht)
      as (L & A & O & D).
    repeat split; lia.
  - destruct (attempt_trace_counts api own dl t _ Hao Had Hod Ht)
      as (L & A & O & D).
    destruct IH as (L' & A' & O' & D').
    rewrite length_app, !requests_to_app. repeat split; lia.
Qed.

Lemma fill_requests (w : world) :
  exists w' t,
    fill_package_metadata w = (Ok tt, w')
    /\ exchanges w' = exchanges w ++ t
    /\ List.length t <= 3 * MAX_REGISTRY_FAILED_REQUESTS
    /\ requests_to (cargo_api_url (self w)) t <= MAX_REGISTRY_FAILED_REQUESTS
    /\ requests_to (cargo_owners_url (self w)) t
       <= MAX_REGISTRY_FAILED_REQUESTS
    /\ requests_to (downloads_url (self w)) t <= MAX_REGISTRY_FAILED_REQUESTS
    /\ identity (self w') = identity (self w).
Proof.
  unfold fill_package_metadata.
  destruct (is_cargo (self w)) eqn:Hc.
  - destruct (attempts_run MAX_REGISTRY_FAILED_REQUESTS 0 w Hc)
      as (w' & t & lg & E & Ex & _ & Id & T).
    apply run_trace_fill_trace in T.
    destruct (urls_distinct (self w)) as (Hao & Had & Hod).
    destruct (fill_trace_counts _ _ _ _ _ Hao Had Hod T) as (L & A & O & D).
    exists w', t. repeat split; assumption.
  - exists w, []. rewrite app_nil_r.
    split; [apply attempts_other; exact Hc|].
    unfold requests_to. simpl. repeat split; lia.
Qed.

(** X12. Whatever the registry answers, [fill_package_metadata] leaves
    ecosystem, name and version of the package as they were. *)
Theorem fill_keeps_identity (w : world) :
  identity (self (snd (fill_package_metadata w))) = identity (self w).
Proof.
  destruct (fill_requests w) as (w' & t & E & _ & _ & _ & _ & _ & Id).
  rewrite E. exact Id.
Qed.

(** X13. One call of [fill_package_metadata] makes at most 9 requests:
    at most 3 to each of the top-level, the owners and the downloads URL
    of the package. *)
Theorem fill_request_bound (w : world) :
  exists t,
    exchanges (snd (fill_package_metadata w)) = exchanges w ++ t
    /\ List.length t <= 9
    /\ requests_to (cargo_api_url (self w)) t <= 3
    /\ requests_to (cargo_owners_url (self w)) t <= 3
    /\ requests_to (downloads_url (self w)) t <= 3.
Proof.
  destruct (fill_requests w) as (w' & t & E & Ex & L & A & O & D & _).
  exists t. rewrite E. repeat split; assumption.
Qed.

(** ** The loop of [main] on any list of entries *)

Lemma main_loop_app (a b : list pyval) :
  forall (acc : list (list pyval)) (w : world),
    main_loop (a ++ b) acc w
    = match main_loop a acc w with
      | (Ok rows, w') => main_loop b rows w'
      | (Raise e, w') => (Raise e, w')
      end.
Proof.
  induction a as [|x a IH]; intros acc w; [reflexivity|].
  simpl. mrun.
  repeat match goal with
         | |- context [let (_, _) := ?m in _] =>
             destruct m as [[?|?] ?]; [|reflexivity]
         end.
  apply IH.
Qed.

Lemma main_loop_run (packages : list pyval) :
  forall (acc : list (list pyval)) (w : world),
    Forall (fun package =>
              entry_purl package <> None
              /\ entry_version_is_text package = true) packages ->
    exists rows w' t,
      main_loop packages acc w = (Ok (acc ++ rows), w')
      /\ List.length rows = List.length packages
      /\ exchanges w' = exchanges w ++ t
      /\ List.length t
         <= 3 * MAX_REGISTRY_FAILED_REQUESTS * List.length packages.
Proof.
  induction packages as [|package rest IH]; intros acc w Hall.
  - exists [], w, []. simpl. rewrite !app_nil_r. repeat split. lia.
  - inversion Hall as [|? ? [Hp Hv] Hrest]; subst.
    destruct (entry_purl package) as [purl|] eqn:Ep; [|congruence].
    unfold entry_purl in Ep.
    destruct package as [| | | | |d]; try discriminate.
    destruct (assoc (str "externalreference") d)
      as [[| | | |[|[| | | |[|a [|b [|[| | |s| |] l3]]]|] l0]|]|] eqn:Er;
      try discriminate.
    injection Ep as ->.
    simpl main_loop. mrun. unfold getitem. rewrite Er. mrun. simpl.
    match goal with
    | |- context [from_purl ?a ?b ?w0] =>
        pose proof (from_purl_returns purl b w0 Hv) as Hf;
        destruct (from_purl_self a b w0) as (p & Hs & _);
        destruct (from_purl a b w0) as [r1 w1]
    end.
    simpl in Hf, Hs. subst r1 w1.
    match goal with
    | |- context [fill_package_metadata ?w2] =>
        destruct (fill_requests w2) as (w3 & t & Ef & Ex & L & _)
    end.
    rewrite Ef. simpl in Ex.
    destruct (IH (acc ++ [row (self w3)]) w3 Hrest)
      as (rows & w' & ts & E & Hlen & Ex' & L').
    exists (row (self w3) :: rows), w', (t ++ ts).
    split; [rewrite E, <- app_assoc; reflexivity|].
    split; [simpl; rewrite Hlen; reflexivity|].
    split; [rewrite Ex', Ex, app_assoc; reflexivity|].
    rewrite length_app. simpl List.length.
    unfold MAX_REGISTRY_FAILED_REQUESTS in *. lia.
Qed.

(** X14. An entry that is an object without [externalreference], or
    with an empty list of references, stops the loop of [main] with
    [KeyError] or [IndexError], wherever it stands among well-formed
    entries: the loop returns no rows, those of the entries before it
    included. *)
Theorem main_loop_missing_reference (good rest : list pyval)
    (d : list (pystr * pyval)) (acc : list (list pyval)) (w : world) :
  Forall (fun package =>
            entry_purl package <> None
            /\ entry_version_is_text package = true) good ->
  (assoc (str "externalreference") d = None ->
   fst (main_loop (good ++ VDict d :: rest) acc w) = Raise KeyError)
  /\ (assoc (str "externalreference") d = Some (VList []) ->
      fst (main_loop (good ++ VDict d :: rest) acc w) = Raise IndexError).
Proof.
  intros Hg.
  destruct (main_loop_run good acc w Hg) as (rows & w' & t & E & _).
  split; intros Hd; rewrite main_loop_app, E; simpl; mrun;
    unfold getitem; rewrite Hd; reflexivity.
Qed.

(** X15. On well-formed entries the loop of [main] makes at most 9
    requests per entry, whatever the registry answers. *)
Theorem main_loop_request_bound (packages : list pyval)
    (acc : list (list pyval)) (w : world) :
  Forall (fun package =>
            entry_purl package <> None
            /\ entry_version_is_text package = true) packages ->
  exists t,
    exchanges (snd (main_loop packages acc w)) = exchanges w ++ t
    /\ List.length t <= 9 * List.length packages.
Proof.
  intros H.
  destruct (main_loop_run packages acc w H) as (rows & w' & t & E & _ & Ex & L).
  exists t. rewrite E. split; [exact Ex|].
  unfold MAX_REGISTRY_FAILED_REQUESTS in L. lia.
Qed.

End Bounds.

(** ** The logger cache of [lib/logging.py] *)

Lemma logger_ref_eqb_eq (a b : Logging.logger_ref) :
  Logging.logger_ref_eqb a b = true <-> a = b.
Proof.
  destruct a as [|x], b as [|y]; simpl; split; intros H;
    try reflexivity; try discriminate.
  - apply pystr_eqb_eq in H. subst y. reflexivity.
  - injection H as ->. apply pystr_eqb_refl.
Qed.

Lemma logger_ref_eqb_refl (a : Logging.logger_ref) :
  Logging.logger_ref_eqb a a = true.
Proof. apply logger_ref_eqb_eq. reflexivity. Qed.

(** A name other than the empty one and [root] has a logger of its own,
    which no other name denotes. *)
Lemma getLogger_named (k : pystr) :
  k <> [] -> k <> str "root" -> Logging.getLogger k = Logging.Named k.
Proof.
  intros H1 H2. unfold Logging.getLogger.
  destruct k as [|c k]; [congruence|].
  destruct (pystr_eqb (c :: k) (str "root")) eqn:E; [|reflexivity].
  apply pystr_eqb_eq in E. contradiction.
Qed.

Lemma getLogger_named_inv (x k : pystr) :
  Logging.getLogger x = Logging.Named k -> x = k.
Proof.
  unfold Logging.getLogger. destruct x as [|c x]; [discriminate|].
  destruct (pystr_eqb (c :: x) (str "root")); [discriminate|].
  intros H. injection H as ->. reflexivity.
Qed.

Lemma cache_get_keys (k : pystr) (c : list (pystr * Logging.logger_ref)) :
  Logging.cache_get k c = None <-> existsb (pystr_eqb k) (map fst c) = false.
Proof.
  induction c as [|[k' v] c IH]; simpl.
  - split; reflexivity.
  - destruct (pystr_eqb k k'); simpl; [split; discriminate|exact IH].
Qed.

Lemma get_colored_logger_cached (L name : pystr) (v : Logging.logger_ref)
    (st : Logging.state) :
  Logging.cache_get name (Logging.colored_loggers st) = Some v ->
  Logging.get_colored_logger L name st = (Ok v, st).
Proof. intros H. unfold Logging.get_colored_logger. rewrite H. reflexivity. Qed.

Lemma get_colored_logger_new (L name : pystr) (lv : Z) (st : Logging.state) :
  Logging.nameToLevel L = Some lv ->
  Logging.cache_get name (Logging.colored_loggers st) = None ->
  exists st',
    Logging.get_colored_logger L name st = (Ok (Logging.getLogger name), st')
    /\ Logging.colored_loggers st'
       = (name, Logging.getLogger name) :: Logging.colored_loggers st
    /\ Logging.loggers st' (Logging.getLogger name)
       = Logging.mkLogger false lv
           (Logging.handlers (Logging.loggers st (Logging.getLogger name))
              ++ [Logging.ch])
    /\ (forall l,
          l <> Logging.getLogger name ->
          Logging.loggers st' l = Logging.loggers st l).
Proof.
  intros Hl Hc. unfold Logging.get_colored_logger. rewrite Hc, Hl.
  eexists. split; [reflexivity|]. simpl.
  split; [reflexivity|]. split.
  - rewrite logger_ref_eqb_refl. reflexivity.
  - intros l Hn. destruct (Logging.logger_ref_eqb l _) eqn:E; [|reflexivity].
    apply logger_ref_eqb_eq in E. contradiction.
Qed.

(** The names that denote [l] among those that miss the cache. *)
Lemma denoting_cons (l : Logging.logger_ref) (k : pystr) (ks : list pystr) :
  Logging.denoting l (k :: ks)
  = if Logging.logger_ref_eqb l (Logging.getLogger k)
    then S (Logging.denoting l ks) else Logging.denoting l ks.
Proof.
  unfold Logging.denoting. simpl.
  destruct (Logging.logger_ref_eqb l (Logging.getLogger k)); reflexivity.
Qed.

Lemma get_all_handlers (L : pystr) (lv : Z) (names : list pystr) :
  Logging.nameToLevel L = Some lv ->
  forall st,
    exists st',
      Logging.get_all L names st = (Ok tt, st')
      /\ (forall l,
            Logging.handlers (Logging.loggers st' l)
            = Logging.handlers (Logging.loggers st l)
                ++ repeat Logging.ch
                     (Logging.denoting l
                        (Logging.first_asked
                           (map fst (Logging.colored_loggers st)) names)))
      /\ (forall l,
            Logging.denoting l
              (Logging.first_asked (map fst (Logging.colored_loggers st))
                 names) = 0 ->
            Logging.loggers st' l = Logging.loggers st l)
      /\ (forall l,
            Logging.denoting l
              (Logging.first_asked (map fst (Logging.colored_loggers st))
                 names) <> 0 ->
            Logging.propagate (Logging.loggers st' l) = false
            /\ Logging.logger_level (Logging.loggers st' l) = lv).
Proof.
  intros Hl. induction names as [|a rest IH]; intros st.
  - exists st. simpl. split; [reflexivity|]. split; [|split].
    + intros l. rewrite app_nil_r. reflexivity.
    + reflexivity.
    + intros l H. contradiction.
  - simpl.
    destruct (Logging.cache_get a (Logging.colored_loggers st)) as [v|] eqn:Ec.
    + rewrite (get_colored_logger_cached L a v st Ec).
      destruct (existsb (pystr_eqb a) (map fst (Logging.colored_loggers st)))
        eqn:Ek.
      * apply IH.
      * apply cache_get_keys in Ek. congruence.
    + destruct (get_colored_logger_new L a lv st Hl Ec)
        as (st1 & E1 & Hc1 & Ha1 & Ho1).
      rewrite E1. apply cache_get_keys in Ec. rewrite Ec.
      destruct (IH st1) as (st' & E & Hh & Hsame & Hset).
      rewrite Hc1 in Hh, Hsame, Hset. simpl in Hh, Hsame, Hset.
      exists st'. split; [exact E|].
      split; [|split]; intros l; rewrite denoting_cons;
        destruct (Logging.logger_ref_eqb l (Logging.getLogger a)) eqn:El.
      * apply logger_ref_eqb_eq in El. subst l.
        rewrite Hh, Ha1. simpl. rewrite <- app_assoc. reflexivity.
      * rewrite Hh, Ho1; [reflexivity|].
        intros ->. rewrite logger_ref_eqb_refl in El. discriminate.
      * discriminate.
      * intros H0. rewrite (Hsame l H0). apply Ho1.
        intros ->. rewrite logger_ref_eqb_refl in El. discriminate.
      * intros _. apply logger_ref_eqb_eq in El. subst l.
        destruct (Nat.eq_dec
                    (Logging.denoting (Logging.getLogger a)
                       (Logging.first_asked
                          (a :: map fst (Logging.colored_loggers st)) rest))
                    0) as [H0|H0].
        -- rewrite (Hsame _ H0), Ha1. split; reflexivity.
        -- apply Hset. exact H0.
      * intros H0. apply Hset. exact H0.
Qed.

(** A name asked for that no key of the cache is, is one of the calls
    that miss, once. *)
Lemma first_asked_once (p : pystr -> bool) (k : pystr) :
  (forall x, p x = true <-> x = k) ->
  forall names seen,
    List.length (filter p (Logging.first_asked seen names))
    = if existsb (pystr_eqb k) seen then 0
      else if existsb (pystr_eqb k) names then 1 else 0.
Proof.
  intros Hp. induction names as [|a rest IH]; intros seen; simpl.
  - destruct (existsb (pystr_eqb k) seen); reflexivity.
  - destruct (existsb (pystr_eqb a) seen) eqn:Ea.
    + rewrite IH. destruct (existsb (pystr_eqb k) seen) eqn:Ek; [reflexivity|].
      destruct (pystr_eqb k a) eqn:Eka; [|reflexivity].
      apply pystr_eqb_eq in Eka. subst a. congruence.
    + simpl filter. destruct (p a) eqn:Epa; simpl List.length; rewrite IH;
        simpl existsb.
      * apply Hp in Epa. subst a. rewrite Ea, !pystr_eqb_refl. reflexivity.
      * destruct (pystr_eqb k a) eqn:Eka; [|reflexivity].
        apply pystr_eqb_eq in Eka. subst a.
        rewrite (proj2 (Hp k) eq_refl) in Epa. discriminate.
Qed.

(** X16. From the empty cache, with a valid [LOGLEVEL], any sequence of
    calls of [get_colored_logger] returns, and each logger gets one
    coloured handler for every distinct name under which it was asked
    for, however often that name is asked for; such a logger has
    propagation off and the level of [LOGLEVEL], and the other loggers
    are untouched.  The logger of a name other than the empty one and
    [root] gets the handler exactly once; the root logger, which both of
    these names denote, gets it once under each.  With a [LOGLEVEL] that
    is not the name of a level the first call raises [ValueError]:
    nothing is cached and no handler is added, but the propagation of
    that logger is already switched off. *)
Theorem get_colored_logger_handler_per_name (L : pystr) (names : list pystr)
    (st : Logging.state) :
  Logging.colored_loggers st = [] ->
  (forall lv,
     Logging.nameToLevel L = Some lv ->
     exists st',
       Logging.get_all L names st = (Ok tt, st')
       /\ (forall l,
             Logging.handlers (Logging.loggers st' l)
             = Logging.handlers (Logging.loggers st l)
                 ++ repeat Logging.ch
                      (Logging.denoting l (Logging.first_asked [] names)))
       /\ (forall k,
             In k names ->
             Logging.propagate (Logging.loggers st' (Logging.getLogger k))
             = false
             /\ Logging.logger_level
                  (Logging.loggers st' (Logging.getLogger k)) = lv)
       /\ (forall l,
             (forall k, In k names -> Logging.getLogger k <> l) ->
             Logging.loggers st' l = Logging.loggers st l)
       /\ (forall k,
             In k names -> k <> [] -> k <> str "root" ->
             Logging.handlers (Logging.loggers st' (Logging.Named k))
             = Logging.handlers (Logging.loggers st (Logging.Named k))
                 ++ [Logging.ch]))
  /\ (Logging.nameToLevel L = None ->
      forall name rest,
        names = name :: rest ->
        exists st',
          Logging.get_all L names st = (Raise ValueError, st')
          /\ Logging.colored_loggers st' = []
          /\ (forall l,
                Logging.handlers (Logging.loggers st' l)
                = Logging.handlers (Logging.loggers st l))
          /\ Logging.propagate (Logging.loggers st' (Logging.getLogger name))
             = false).
Proof.
  intros Hc. split.
  - intros lv Hl.
    destruct (get_all_handlers L lv names Hl st) as (st' & E & Hh & Hsame & Hset).
    rewrite Hc in Hh, Hsame, Hset. simpl in Hh, Hsame, Hset.
    assert (Hin : forall k,
               In k names ->
               Logging.denoting (Logging.getLogger k)
                 (Logging.first_asked [] names) <> 0).
    { intros k Hk. unfold Logging.denoting.
      assert (Hm : forall ns seen,
                 In k ns -> ~ In k seen -> In k (Logging.first_asked seen ns)).
      { induction ns as [|a ns IHns]; intros seen Hi Hs; [destruct Hi|].
        simpl. destruct (existsb (pystr_eqb a) seen) eqn:Ea.
        - destruct Hi as [->|Hi]; [|apply IHns; assumption].
          exfalso. apply Hs. apply existsb_exists in Ea.
          destruct Ea as (x & Hx & Ex). apply pystr_eqb_eq in Ex.
          subst x. exact Hx.
        - destruct Hi as [->|Hi]; [left; reflexivity|].
          destruct (pystr_eqb a k) eqn:Eak.
          + apply pystr_eqb_eq in Eak. left. exact Eak.
          + right. apply IHns; [exact Hi|].
            intros [->|Hs']; [|contradiction].
            rewrite pystr_eqb_refl in Eak. discriminate. }
      specialize (Hm names [] Hk (fun H => H)).
      intros H0. apply length_zero_iff_nil in H0.
      assert (Hf : In k (filter
                           (fun x => Logging.logger_ref_eqb
                                       (Logging.getLogger k)
                                       (Logging.getLogger x))
                           (Logging.first_asked [] names))).
      { apply filter_In. split; [exact Hm|apply logger_ref_eqb_refl]. }
      rewrite H0 in Hf. destruct Hf. }
    exists st'. split; [exact E|]. split; [exact Hh|].
    split; [|split].
    + intros k Hk. apply Hset. apply Hin. exact Hk.
    + intros l Hno. apply Hsame. unfold Logging.denoting.
      apply length_zero_iff_nil.
      destruct (filter _ _) as [|x xs] eqn:Ef; [reflexivity|].
      exfalso.
      assert (Hx : In x (x :: xs)) by (left; reflexivity).
      rewrite <- Ef in Hx. apply filter_In in Hx as [Hx Hlx].
      apply logger_ref_eqb_eq in Hlx.
      assert (Hsub : forall ns seen y,
                 In y (Logging.first_asked seen ns) -> In y ns).
      { induction ns as [|a ns IHns]; intros seen y Hy; [destruct Hy|].
        simpl in Hy. destruct (existsb (pystr_eqb a) seen).
        - right. apply (IHns seen). exact Hy.
        - destruct Hy as [->|Hy]; [left; reflexivity|].
          right. apply (IHns (a :: seen)). exact Hy. }
      apply (Hno x (Hsub _ _ _ Hx)). symmetry. exact Hlx.
    + intros k Hk H1 H2. rewrite Hh. f_equal.
      unfold Logging.denoting.
      rewrite (first_asked_once _ k).
      * simpl.
        assert (He : existsb (pystr_eqb k) names = true).
        { apply existsb_exists. exists k.
          split; [exact Hk|apply pystr_eqb_refl]. }
        rewrite He. reflexivity.
      * intros x. rewrite logger_ref_eqb_eq. split.
        -- intros H. symmetry in H. apply getLogger_named_inv in H. exact H.
        -- intros ->. symmetry. apply getLogger_named; assumption.
  - intros Hl name rest ->. simpl. unfold Logging.get_colored_logger.
    rewrite Hc, Hl. simpl.
    eexists. split; [reflexivity|]. simpl. split; [exact Hc|]. split.
    + intros l. destruct (Logging.logger_ref_eqb l _); reflexivity.
    + rewrite logger_ref_eqb_refl. reflexivity.
Qed.

Section Edges.

Context {rt : Runtime}.

(** X17. A string that does not open with [pkg:] is never parsed:
    [from_purl] returns and leaves the record as it was, whatever the
    auxiliary record. *)
Theorem from_purl_needs_pkg (s : pystr) (sbom_dict : pyval) (w : world) :
  firstn 4 s <> str "pkg:" ->
  re_match PURL_REGEX s = None
  /\ from_purl (VStr s) sbom_dict w = (Ok tt, w).
Proof.
  intros Hp.
  assert (Hm : re_match PURL_REGEX s = None).
  { destruct (re_match PURL_REGEX s) as [g|] eqn:E; [|reflexivity].
    exfalso. unfold re_match, PURL_REGEX in E.
    destruct (lits_prefix (str "pkg:") _ s [] _
                ltac:(rewrite E; discriminate)) as [rest ->].
    apply Hp. reflexivity. }
  split; [exact Hm|].
  unfold from_purl, regex_match. mrun. rewrite Hm. reflexivity.
Qed.

(** ** The owners over a retry *)

Lemma fold_set_add_members (ds os : list pystr) :
  (forall d, In d ds -> In d os) -> fold_left set_add ds os = os.
Proof.
  induction ds as [|d ds IH]; intros H; simpl; [reflexivity|].
  assert (E : set_add os d = os).
  { unfold set_add.
    assert (existsb (pystr_eqb d) os = true) as ->; [|reflexivity].
    apply existsb_exists. exists d.
    split; [apply H; left; reflexivity|apply pystr_eqb_refl]. }
  rewrite E. apply IH. intros x Hx. apply H. right. exact Hx.
Qed.

(** X18. The owners step is idempotent over a retry: when a later
    attempt gets the owners document of an earlier one again, the owners
    of the record are those the earlier attempt left, none twice. *)
Theorem fetch_owners_again (w w1 : world) (dd : list (pystr * pyval))
    (l : list pyval) (ds : list pystr) (r : result unit) :
  assoc (str "users") dd = Some (VList l) ->
  map owner_descriptor l = map Some ds ->
  answer w (cargo_owners_url (self w)) = Response 200 (Some (VDict dd)) ->
  fetch_owners w = (r, w1) ->
  answer w1 (cargo_owners_url (self w1)) = Response 200 (Some (VDict dd)) ->
  exists w2,
    fetch_owners w1 = (Ok tt, w2)
    /\ _lib_owners (self w2) = _lib_owners (self w1).
Proof.
  intros Hu Hd Ha E1 Ha1. unfold answer in Ha, Ha1.
  assert (H1 : forall o, In o ds -> In o (_lib_owners (self w1))).
  { revert E1.
    unfold fetch_owners, read_owners, bind, get_self, requests_get.
    rewrite Ha. simpl. unfold getitem. rewrite Hu. unfold ret. simpl.
    rewrite (add_owners_descriptors l ds _ Hd).
    intros E1. injection E1 as _ <-. simpl.
    intros o Ho. apply fold_set_add_in. right. exact Ho. }
  unfold fetch_owners, read_owners, bind, get_self, requests_get.
  rewrite Ha1. simpl. unfold getitem. rewrite Hu. unfold ret. simpl.
  rewrite (add_owners_descriptors l ds _ Hd).
  eexists. split; [reflexivity|]. simpl.
  apply fold_set_add_members. exact H1.
Qed.

(** ** A version entry that cannot be read *)

(** X19. With a target version, a first version entry that cannot be
    read makes the scan raise: without [num], [KeyError] with nothing
    recorded, although the entry would be taken whatever its [num]; with
    a [created_at] that does not parse, [ValueError] with nothing
    recorded; without [published_by], [KeyError] after the creation time
    has been recorded, so that the date is new and the author is not. *)
Theorem record_last_push_errors (w : world) (data ed : list (pystr * pyval))
    (rest : list pyval) :
  truthy_str (_version (self w)) = true ->
  assoc (str "versions") data = Some (VList (VDict ed :: rest)) ->
  (assoc (str "num") ed = None ->
   record_last_push (VDict data) w = (Raise KeyError, w))
  /\ (forall x s,
        assoc (str "num") ed = Some x ->
        assoc (str "created_at") ed = Some (VStr s) ->
        strptime s = None ->
        record_last_push (VDict data) w = (Raise ValueError, w))
  /\ (forall x s t,
        assoc (str "num") ed = Some x ->
        assoc (str "created_at") ed = Some (VStr s) ->
        strptime s = Some t ->
        assoc (str "published_by") ed = None ->
        record_last_push (VDict data) w
        = (Raise KeyError,
           with_self (with_last_push_date (Some t) (self w)) w)).
Proof.
  intros Hv Hd.
  assert (Hrun : record_last_push (VDict data) w
                 = scan_versions 0 (VDict ed :: rest) w).
  { unfold record_last_push. mrun. rewrite Hv. unfold getitem.
    rewrite Hd. reflexivity. }
  rewrite Hrun. simpl. unfold getitem. mrun. split; [|split].
  - intros Hn. rewrite Hn. reflexivity.
  - intros x s Hn Hc Hs. rewrite Hn. cbv beta iota. rewrite orb_true_r.
    rewrite Hc. unfold strptime_value. rewrite Hs. reflexivity.
  - intros x s t Hn Hc Hs Hp. rewrite Hn. cbv beta iota.
    rewrite orb_true_r. rewrite Hc. unfold strptime_value. rewrite Hs.
    cbv beta iota. rewrite Hp. reflexivity.
Qed.

(** ** The run while the registry is down *)

Lemma from_purl_row (purl sbom_dict : pyval) (w : world) :
  exists p,
    snd (from_purl purl sbom_dict w) = with_self p w
    /\ row p = identity_cells (identity p) ++ skipn 3 (row (self w)).
Proof.
  destruct w as [p0 lg ex us rg].
  unfold from_purl, regex_match.
  destruct purl as [| | |s| |];
    try (eexists; split; reflexivity).
  mrun. destruct (re_match PURL_REGEX s) as [g|];
    [|eexists; split; reflexivity].
  cbv beta iota.
  match goal with
  | |- context [if ?c then _ else _] => destruct c
  end; [|eexists; split; reflexivity].
  unfold py_get.
  destruct sbom_dict as [| | | | |d];
    try (eexists; split; reflexivity).
  destruct (assoc (str "version") d) as [v|]; mrun;
    [|eexists; split; reflexivity].
  unfold unquote_value.
  destruct v; eexists; (split; reflexivity).
Qed.

Lemma fill_registry_down (w : world) :
  (forall n url, exists e, registry w n url = Raises e) ->
  exists w',
    fill_package_metadata w = (Ok tt, w')
    /\ self w' = self w
    /\ registry w' = registry w.
Proof.
  intros Hdown.
  destruct (is_cargo (self w)) eqn:Hc.
  - set (n := List.length (exchanges w)).
    set (api := cargo_api_url (self w)).
    destruct (Hdown n api) as [e1 H1].
    destruct (Hdown (n + 1) api) as [e2 H2].
    destruct (Hdown (n + 2) api) as [e3 H3].
    eexists. split.
    + unfold fill_package_metadata, MAX_REGISTRY_FAILED_REQUESTS.
      apply (attempts_all_fail [Raises e1; Raises e2; Raises e3] 0 w Hc).
      * intros k o Hk. fold n. fold api.
        destruct k as [|[|[|k]]]; simpl in Hk.
        -- injection Hk as <-. rewrite Nat.add_0_r. exact H1.
        -- injection Hk as <-. exact H2.
        -- injection Hk as <-. exact H3.
        -- destruct k; discriminate.
      * repeat constructor.
    + split; reflexivity.
  - exists w. split; [apply attempts_other; exact Hc|].
    split; reflexivity.
Qed.

(** X20. While the registry refuses every connection, the loop of
    [main] over well-formed entries still returns one row per entry, in
    order: the identity read from the entry's package URL, followed by
    empty cells and the download count 0. *)
Theorem main_loop_registry_down (packages : list pyval) :
  forall (acc : list (list pyval)) (w : world),
    (forall n url, exists e, registry w n url = Raises e) ->
    Forall (fun package =>
              entry_purl package <> None
              /\ entry_version_is_text package = true) packages ->
    exists rows w',
      main_loop packages acc w = (Ok (acc ++ rows), w')
      /\ Forall2 (fun package r =>
                    r = identity_cells (parsed_identity package)
                        ++ [VNone; VNone; VNone; VStr []; VInt 0; VNone;
                            VNone])
           packages rows.
Proof.
  induction packages as [|package rest IH]; intros acc w Hdown Hall.
  - exists [], w. simpl. rewrite app_nil_r. split; constructor.
  - inversion Hall as [|? ? [Hp Hv] Hrest]; subst.
    destruct (entry_purl package) as [purl|] eqn:Ep; [|congruence].
    pose proof Ep as Ep'. unfold entry_purl in Ep.
    destruct package as [| | | | |d]; try discriminate.
    destruct (assoc (str "externalreference") d)
      as [[| | | |[|[| | | |[|a [|b [|[| | |s| |] l3]]]|] l0]|]|] eqn:Er;
      try discriminate.
    injection Ep as ->.
    simpl main_loop. mrun. unfold getitem. rewrite Er. mrun. simpl.
    match goal with
    | |- context [from_purl ?a ?b ?w0] =>
        pose proof (from_purl_returns purl b w0 Hv) as Hf;
        pose proof (from_purl_local a b w0 (fresh_world offline)
                      eq_refl) as [_ Hl];
        destruct (from_purl_row a b w0) as (p & Hs & Hrow);
        destruct (from_purl a b w0) as [r1 w1]
    end.
    simpl in Hf, Hl, Hs, Hrow. subst r1 w1.
    match goal with
    | |- context [fill_package_metadata ?w2] =>
        destruct (fill_registry_down w2) as (w3 & Ef & Hself & Hreg);
        [exact Hdown|]
    end.
    rewrite Ef. simpl in Hself, Hreg.
    destruct (IH (acc ++ [row (self w3)]) w3) as (rows & w' & E & Hrows);
      [rewrite Hreg; exact Hdown|exact Hrest|].
    exists (row (self w3) :: rows), w'.
    split; [rewrite E, <- app_assoc; reflexivity|].
    constructor; [|exact Hrows].
    rewrite Hself, Hrow. unfold parsed_identity. rewrite Ep'.
    simpl in Hl. rewrite Hl. reflexivity.
Qed.

End Edges.

(* ================================================================== *)
(** * The further properties on sample inputs *)

(** [pkg:cargo/foo] with the sibling record [{"version": "2.3.4"}] gives
    the version [2.3.4]; without a record it gives the empty version. *)
Lemma from_purl_version_fallback_witness :
  from_purl (rt := ascii_runtime) (VStr (str "pkg:cargo/foo"))
    (VDict [(str "version", VStr (str "2.3.4"))]) (fresh_world offline)
  = (Ok tt, with_self (cargo_package "foo" "2.3.4") (fresh_world offline))
  /\ from_purl (rt := ascii_runtime) (VStr (str "pkg:cargo/foo")) VNone
       (fresh_world offline)
     = (Ok tt, with_self (cargo_package "foo" "") (fresh_world offline)).
Proof.
  split.
  - pose proof (@from_purl_version_fallback ascii_runtime (str "cargo")
                  (str "foo") (VDict [(str "version", VStr (str "2.3.4"))])
                  (fresh_world offline)) as H.
    cbv zeta in H.
    destruct H as (_ & _ & H);
      [discriminate | reflexivity | discriminate | reflexivity |].
    exact (H _ _ eq_refl eq_refl).
  - pose proof (@from_purl_version_fallback ascii_runtime (str "cargo")
                  (str "foo") VNone (fresh_world offline)) as H.
    cbv zeta in H.
    destruct H as (H & _);
      [discriminate | reflexivity | discriminate | reflexivity |].
    exact (H eq_refl).
Defined.

Lemma from_purl_version_not_text_witness :
  exists e,
    from_purl (rt := ascii_runtime) (VStr (str "pkg:cargo/foo"))
      (VDict [(str "version", VInt 5)]) (fresh_world offline)
    = (Raise e, with_self (cargo_package "foo" "") (fresh_world offline)).
Proof.
  destruct (@from_purl_version_not_text ascii_runtime (str "cargo")
              (str "foo") [(str "version", VInt 5)] (VInt 5)
              (fresh_world offline)) as [e E];
    [discriminate | reflexivity | discriminate | reflexivity | reflexivity
    | discriminate |].
  exists e. exact E.
Defined.

(** [pkg:cargo/foo@1.0.0-beta] is read with the version [1.0.0]. *)
Lemma from_purl_drops_suffix_witness :
  from_purl (rt := ascii_runtime) (VStr (str "pkg:cargo/foo@1.0.0-beta"))
    VNone (fresh_world offline)
  = (Ok tt, with_self (cargo_package "foo" "1.0.0") (fresh_world offline)).
Proof.
  apply (@from_purl_drops_suffix ascii_runtime (str "cargo") (str "foo")
           (str "1.0.0") (str "-beta") VNone (fresh_world offline));
    solve [discriminate | reflexivity].
Defined.

Lemma set_repo_url_canonical_witness :
  exists w',
    set_repo_url (rt := ascii_runtime)
      (VStr (str "https://github.com/owner/repo/extra")) (fresh_world offline)
    = (Ok tt, w')
    /\ _repo_owner (self w') = Some (str "owner")
    /\ _repo_name (self w') = Some (str "repo").
Proof.
  destruct (@set_repo_url_canonical ascii_runtime (str "github") (str "com")
              (str "owner") (str "repo") (str "/extra") (fresh_world offline))
    as (w' & E & Ho & Hn & _);
    try solve [discriminate | reflexivity].
  exists w'. split; [exact E|]. split; [exact Ho|exact Hn].
Defined.

Lemma set_repo_url_needs_https_witness :
  exists w',
    set_repo_url (rt := ascii_runtime)
      (VStr (str "http://github.com/owner/repo")) (fresh_world offline)
    = (Ok tt, w')
    /\ _repo_owner (self w') = None
    /\ _repo_name (self w') = None.
Proof.
  destruct (@set_repo_url_needs_https ascii_runtime
              (str "http://github.com/owner/repo") (fresh_world offline))
    as (_ & w' & E & _ & Ho & Hn & _);
    try solve [discriminate].
  exists w'. split; [exact E|]. split; [exact Ho|exact Hn].
Defined.

Lemma read_metadata_homepage_witness :
  _repo_url
    (self
       (snd (read_metadata (rt := ascii_runtime)
               (VDict [(str "crate",
                        VDict [(str "repository", VNone);
                               (str "homepage",
                                VStr (str "https://gitlab.com/owner/repo"))])])
               (fresh_world offline))))
  = VStr (str "https://gitlab.com/owner/repo")
  /\ In (WARNING, InvalidRepoUrl (VStr []) None)
       (log
          (snd (read_metadata (rt := ascii_runtime)
                  (VDict [(str "crate",
                           VDict [(str "repository", VNone);
                                  (str "homepage", VStr [])])])
                  (fresh_world offline))))
  /\ read_metadata (rt := ascii_runtime)
       (VDict [(str "crate",
                VDict [(str "repository",
                        VStr (str "https://github.com/owner/repo"))])])
       (fresh_world offline)
     = (Raise KeyError,
        logged (DEBUG, GotCargoMetadata None) (fresh_world offline)).
Proof.
  split; [|split].
  - destruct (@read_metadata_homepage ascii_runtime
                [(str "crate",
                  VDict [(str "repository", VNone);
                         (str "homepage",
                          VStr (str "https://gitlab.com/owner/repo"))])]
                [(str "repository", VNone);
                 (str "homepage", VStr (str "https://gitlab.com/owner/repo"))]
                (fresh_world offline) eq_refl) as (H & _).
    destruct (H VNone (str "https://gitlab.com/owner/repo") eq_refl eq_refl
                eq_refl) as (Hu & _); [discriminate|].
    exact Hu.
  - destruct (@read_metadata_homepage ascii_runtime
                [(str "crate",
                  VDict [(str "repository", VNone);
                         (str "homepage", VStr [])])]
                [(str "repository", VNone); (str "homepage", VStr [])]
                (fresh_world offline) eq_refl) as (_ & H & _).
    destruct (H VNone (VStr []) eq_refl eq_refl eq_refl eq_refl)
      as (_ & _ & _ & Hin).
    exact Hin.
  - destruct (@read_metadata_homepage ascii_runtime
                [(str "crate",
                  VDict [(str "repository",
                          VStr (str "https://github.com/owner/repo"))])]
                [(str "repository",
                  VStr (str "https://github.com/owner/repo"))]
                (fresh_world offline) eq_refl) as (_ & _ & H).
    exact (H _ eq_refl eq_refl).
Defined.

Lemma read_metadata_repository_not_text_witness :
  exists w',
    read_metadata (rt := ascii_runtime)
      (VDict [(str "crate",
               VDict [(str "repository", VInt 5); (str "homepage", VNone)])])
      (fresh_world offline)
    = (Raise TypeError, w')
    /\ _repo_url (self w') = VInt 5.
Proof.
  destruct (@read_metadata_repository_not_text ascii_runtime
              [(str "crate",
                VDict [(str "repository", VInt 5); (str "homepage", VNone)])]
              [(str "repository", VInt 5); (str "homepage", VNone)]
              (VInt 5) VNone (fresh_world offline) eq_refl eq_refl eq_refl
              eq_refl) as (w' & E & Hu & _); [discriminate|].
  exists w'. split; [exact E|exact Hu].
Defined.

(** Three owner objects, one of them twice, leave two owners. *)
Lemma fetch_owners_accumulates_witness :
  exists w',
    fetch_owners (rt := ascii_runtime)
      (with_self (cargo_package "foo" "1.0.0") (fresh_world registry_users))
    = (Ok tt, w')
    /\ NoDup (_lib_owners (self w'))
    /\ In (str "alice (Alice)") (_lib_owners (self w'))
    /\ In (str "bob (Bob)") (_lib_owners (self w')).
Proof.
  destruct (@fetch_owners_accumulates ascii_runtime
              (with_self (cargo_package "foo" "1.0.0")
                 (fresh_world registry_users))
              [(str "users",
                VList [user "alice" "Alice"; user "bob" "Bob";
                       user "alice" "Alice"])]
              [user "alice" "Alice"; user "bob" "Bob"; user "alice" "Alice"]
              [str "alice (Alice)"; str "bob (Bob)"; str "alice (Alice)"]
              eq_refl eq_refl eq_refl) as (w' & E & Hin & Hnd & _).
  exists w'. split; [exact E|]. split; [apply Hnd; constructor|].
  split; apply Hin; right; simpl; auto.
Defined.

Lemma fetch_downloads_broken_day_witness :
  exists w',
    fetch_downloads (rt := ascii_runtime)
      (with_self (cargo_package "foo" "1.0.0")
         (fresh_world registry_broken_day))
    = (Raise KeyError, w')
    /\ _downloads (self w') = 11%Z.
Proof.
  destruct (@fetch_downloads_broken_day ascii_runtime
              (with_self (cargo_package "foo" "1.0.0")
                 (fresh_world registry_broken_day))
              [(str "meta",
                VDict [(str "extra_downloads",
                        VList [day 5; day 6; VDict []; day 7])])]
              [(str "extra_downloads", VList [day 5; day 6; VDict []; day 7])]
              [] [day 5; day 6] [day 7] [5; 6]%Z
              eq_refl eq_refl eq_refl eq_refl) as (w' & E & D & _);
    [unfold DOWNLOADS_DEPTH_DAYS; simpl; lia | reflexivity |].
  exists w'. split; [exact E|exact D].
Defined.

(** With every connection refused: three requests, three numbered
    warnings, the record untouched. *)
Lemma fill_all_attempts_fail_witness :
  fill_package_metadata (rt := ascii_runtime)
    (with_self (cargo_package "foo" "1.0.0") (fresh_world offline))
  = (Ok tt,
     mkWorld (cargo_package "foo" "1.0.0")
       [(WARNING,
         ErrorFetchingMetadata (Some (str "foo")) RequestException 1);
        (WARNING,
         ErrorFetchingMetadata (Some (str "foo")) RequestException 2);
        (WARNING,
         ErrorFetchingMetadata (Some (str "foo")) RequestException 3)]
       [(str "https://crates.io/api/v1/crates/foo", Raises RequestException);
        (str "https://crates.io/api/v1/crates/foo", Raises RequestException);
        (str "https://crates.io/api/v1/crates/foo", Raises RequestException)]
       [] offline).
Proof.
  apply (@fill_all_attempts_fail ascii_runtime
           (with_self (cargo_package "foo" "1.0.0") (fresh_world offline))
           (Raises RequestException) (Raises RequestException)
           (Raises RequestException));
    solve [reflexivity | exact I].
Defined.

Lemma fill_top_level_only_witness :
  exists w',
    fill_package_metadata (rt := ascii_runtime)
      (with_self (cargo_package "foo" "1.0.0")
         (fresh_world registry_top_only))
    = (Ok tt, w')
    /\ _repo_owner (self w') = Some (str "owner")
    /\ _last_push_author (self w') = VStr (str "alice")
    /\ _lib_owners (self w') = []
    /\ _downloads (self w') = 0%Z
    /\ List.length (exchanges w') = 3.
Proof.
  destruct (@fill_top_level_only ascii_runtime
              (with_self (cargo_package "foo" "1.0.0")
                 (fresh_world registry_top_only))
              [(str "crate",
                VDict [(str "repository",
                        VStr (str "https://github.com/owner/repo"));
                       (str "homepage", VNone)]);
               (str "versions", VList foo_history)]
              [(str "repository", VStr (str "https://github.com/owner/repo"));
               (str "homepage", VNone)]
              [(str "num", VStr (str "1.0.0"));
               (str "created_at",
                VStr (str "2024-01-02T03:04:05.000000+00:00"));
               (str "published_by",
                VDict [(str "login", VStr (str "alice"))])]
              (str "https://github.com/owner/repo") VNone
              (VStr (str "1.0.0"))
              [version_entry "0.9.0" "2023-01-02T03:04:05.000000+00:00" "bob"]
              (with_last_push_author (rt := ascii_runtime)
                 (VStr (str "alice"))
                 (with_last_push_date (rt := ascii_runtime)
                    (Some (str "2024-01-02T03:04:05.000000+00:00"))
                    (classified (str "https://github.com/owner/repo")
                       (cargo_package "foo" "1.0.0"))))
              500%Z 500%Z None None
              eq_refl eq_refl eq_refl eq_refl eq_refl)
    as (E & Hlo & Hdl & _);
    [discriminate | reflexivity | reflexivity | reflexivity | reflexivity
    | reflexivity | discriminate | reflexivity | discriminate |].
  eexists. split; [exact E|]. simpl. repeat split.
Defined.

Lemma main_loop_missing_reference_witness :
  fst (main_loop (rt := ascii_runtime)
         [sbom_entry "foo" "pkg:cargo/foo@1.0.0";
          VDict [(str "name", VStr (str "bar"))]]
         [] (fresh_world offline))
  = Raise KeyError.
Proof.
  destruct (@main_loop_missing_reference ascii_runtime
              [sbom_entry "foo" "pkg:cargo/foo@1.0.0"] []
              [(str "name", VStr (str "bar"))] [] (fresh_world offline))
    as (H & _).
  - repeat constructor; discriminate.
  - exact (H eq_refl).
Defined.

Lemma main_loop_request_bound_witness :
  exists t,
    exchanges
      (snd (main_loop (rt := ascii_runtime)
              [sbom_entry "foo" "pkg:cargo/foo@1.0.0";
               sbom_entry "bar" "pkg:npm/bar@2.0.0"]
              [] (fresh_world registry_owners_500)))
    = t
    /\ List.length t <= 18.
Proof.
  destruct (@main_loop_request_bound ascii_runtime
              [sbom_entry "foo" "pkg:cargo/foo@1.0.0";
               sbom_entry "bar" "pkg:npm/bar@2.0.0"]
              [] (fresh_world registry_owners_500)) as (t & E & L).
  - repeat constructor; discriminate.
  - exists t. split; [exact E|exact L].
Defined.

(** Four calls, for the root logger under both of its names and twice for
    the logger [a]: the root logger has two coloured handlers, the logger
    [a] one, the logger [c] none. *)
Lemma get_colored_logger_handler_per_name_witness :
  exists st',
    Logging.get_all (str "INFO") [[]; str "root"; str "a"; str "a"]
      (Logging.mkState
         (fun _ => Logging.mkLogger true Logging.NOTSET []) [])
    = (Ok tt, st')
    /\ Logging.handlers (Logging.loggers st' Logging.Root)
       = [Logging.ch; Logging.ch]
    /\ Logging.handlers (Logging.loggers st' (Logging.Named (str "a")))
       = [Logging.ch]
    /\ Logging.handlers (Logging.loggers st' (Logging.Named (str "c"))) = [].
Proof.
  destruct (@get_colored_logger_handler_per_name (str "INFO")
              [[]; str "root"; str "a"; str "a"]
              (Logging.mkState
                 (fun _ => Logging.mkLogger true Logging.NOTSET []) [])
              eq_refl) as (H & _).
  destruct (H Logging.INFO eq_refl) as (st' & E & Hh & _ & _ & Hone).
  exists st'. split; [exact E|].
  split; [rewrite (Hh Logging.Root); reflexivity|].
  split.
  - rewrite (Hone (str "a")); [reflexivity| |discriminate|discriminate].
    right. right. left. reflexivity.
  - rewrite (Hh (Logging.Named (str "c"))). reflexivity.
Defined.

Lemma from_purl_needs_pkg_witness :
  from_purl (rt := ascii_runtime) (VStr (str "cargo/foo@1.0.0")) VNone
    (fresh_world offline)
  = (Ok tt, fresh_world offline).
Proof.
  apply (@from_purl_needs_pkg ascii_runtime (str "cargo/foo@1.0.0") VNone
           (fresh_world offline)).
  discriminate.
Defined.

Lemma fetch_owners_again_witness :
  exists w1 w2,
    fetch_owners (rt := ascii_runtime)
      (with_self (cargo_package "foo" "1.0.0") (fresh_world registry_users))
    = (Ok tt, w1)
    /\ fetch_owners w1 = (Ok tt, w2)
    /\ _lib_owners (self w2) = _lib_owners (self w1).
Proof.
  eexists.
  destruct (@fetch_owners_again ascii_runtime
              (with_self (cargo_package "foo" "1.0.0")
                 (fresh_world registry_users))
              _
              [(str "users",
                VList [user "alice" "Alice"; user "bob" "Bob";
                       user "alice" "Alice"])]
              [user "alice" "Alice"; user "bob" "Bob"; user "alice" "Alice"]
              [str "alice (Alice)"; str "bob (Bob)"; str "alice (Alice)"]
              (Ok tt) eq_refl eq_refl eq_refl eq_refl eq_refl)
    as (w2 & E & H).
  exists w2. split; [reflexivity|]. split; [exact E|exact H].
Defined.

Lemma record_last_push_errors_witness :
  record_last_push (rt := ascii_runtime)
    (VDict [(str "versions",
             VList [VDict [(str "num", VStr (str "1.0.0"));
                           (str "created_at",
                            VStr (str "2024-01-02T03:04:05.000000+00:00"))]])])
    (with_self (cargo_package "foo" "1.0.0") (fresh_world offline))
  = (Raise KeyError,
     with_self
       (with_last_push_date (rt := ascii_runtime)
          (Some (str "2024-01-02T03:04:05.000000+00:00"))
          (cargo_package "foo" "1.0.0"))
       (with_self (cargo_package "foo" "1.0.0") (fresh_world offline)))
  /\ record_last_push (rt := ascii_runtime)
       (VDict [(str "versions", VList [VDict []])])
       (with_self (cargo_package "foo" "1.0.0") (fresh_world offline))
     = (Raise KeyError,
        with_self (cargo_package "foo" "1.0.0") (fresh_world offline)).
Proof.
  split.
  - destruct (@record_last_push_errors ascii_runtime
                (with_self (cargo_package "foo" "1.0.0")
                   (fresh_world offline))
                [(str "versions",
                  VList [VDict [(str "num", VStr (str "1.0.0"));
                                (str "created_at",
                                 VStr (str "2024-01-02T03:04:05.000000+00:00"))]])]
                [(str "num", VStr (str "1.0.0"));
                 (str "created_at",
                  VStr (str "2024-01-02T03:04:05.000000+00:00"))]
                [] eq_refl eq_refl) as (_ & _ & H).
    exact (H _ _ _ eq_refl eq_refl eq_refl eq_refl).
  - destruct (@record_last_push_errors ascii_runtime
                (with_self (cargo_package "foo" "1.0.0")
                   (fresh_world offline))
                [(str "versions", VList [VDict []])] [] [] eq_refl eq_refl)
      as (H & _).
    exact (H eq_refl).
Defined.

Lemma main_loop_registry_down_witness :
  main_loop (rt := ascii_runtime)
    [sbom_entry "foo" "pkg:cargo/foo@1.0.0"; sbom_entry "bar" "not-a-purl"]
    [] (fresh_world offline)
  = (Ok [[VStr (str "cargo"); VStr (str "foo"); VStr (str "1.0.0"); VNone;
          VNone; VNone; VStr []; VInt 0; VNone; VNone];
         [VNone; VNone; VNone; VNone; VNone; VNone; VStr []; VInt 0; VNone;
          VNone]],
     snd (main_loop (rt := ascii_runtime)
            [sbom_entry "foo" "pkg:cargo/foo@1.0.0";
             sbom_entry "bar" "not-a-purl"]
            [] (fresh_world offline))).
Proof.
  destruct (@main_loop_registry_down ascii_runtime
              [sbom_entry "foo" "pkg:cargo/foo@1.0.0";
               sbom_entry "bar" "not-a-purl"]
              [] (fresh_world offline)) as (rows & w' & E & H).
  - intros n url. exists RequestException. reflexivity.
  - repeat constructor; discriminate.
  - rewrite E. simpl.
    inversion H as [|? r1 ? rs1 H1 H2]; subst.
    inversion H2 as [|? r2 ? rs2 H3 H4]; subst.
    inversion H4; subst. reflexivity.
Defined.
